(** * Field overlay editors of pxt-blockly

    A shallow embedding of the note picker ([Blockly.FieldNote]), the grid
    picker ([pxtblocky.FieldGridPicker]), the flyout button
    ([Blockly.FlyoutButton]) and the colours of the toolbox
    ([pxtblocky.PXTToolbox]), with the properties of their placement,
    pagination, value handling and tear-down.

    Conventions of the embedding.
    - Pixel quantities (coordinates, sizes, scroll offsets) are integers [Z];
      the halves and quarters of them that the code computes are rationals
      [Q].
    - Frequencies and parsed field values are JavaScript numbers, modelled by
      [jsnum]: a real number, an infinity or NaN.  Arithmetic on them is the
      exact arithmetic of [R]; rounding to binary64 is not modelled there.
      Where a test of the code depends on the rounding (the row limit of
      the grid picker, which multiplies by [0.3]), the numbers are those of
      binary64, [Float64].
    - The number/string conversions of the JavaScript runtime ([parseFloat],
      [String(n)], [Number(s)], [n.toFixed(2)]) are not code of this
      repository: the definitions take them as a [Builtins] record, and
      [parseInt] as a parameter of its own.  [refBuiltins] is one instance,
      for plain decimal notation, on which the definitions are evaluated at
      given inputs.
    - Functions and constants of Blockly that the files use and do not
      define (the [dispose] of the dropdown field, [Blockly.hueToRgb],
      [CHECKMARK_OVERHANG], [getButtonCallback],
      [Blockly.Field.getCachedWidth], [Blockly.PXTUtils.fadeColour]) are
      parameters.
    - A JavaScript [undefined]/[null] is [None]; a thrown [TypeError] is the
      [None] of an option-valued handler. *)

From Stdlib Require Import ZArith Reals Lra Lia String Ascii List Bool.
From Stdlib Require Import DecimalString.
From Stdlib Require Import QArith.
From Stdlib Require Lqa.
From Stdlib Require Floats.SpecFloat.
From stdpp Require Import base gmap list strings.

Local Close Scope Q_scope.
Local Open Scope Z_scope.

(** ** JavaScript numbers and strings *)

Module JS.

Inductive jsnum : Type :=
  | NaN
  | NegInf
  | Fin (r : R)
  | PosInf.

Definition Rltb (x y : R) : bool := if Rlt_dec x y then true else false.
Definition Rleb (x y : R) : bool := if Rle_dec x y then true else false.

(** [isNaN(n)] *)
Definition isNaN (n : jsnum) : bool :=
  match n with NaN => true | _ => false end.

(** [a < b] on numbers: false as soon as one side is NaN. *)
Definition lt (a b : jsnum) : bool :=
  match a, b with
  | NaN, _ | _, NaN => false
  | NegInf, NegInf => false
  | NegInf, _ => true
  | _, NegInf => false
  | PosInf, _ => false
  | Fin _, PosInf => true
  | Fin x, Fin y => Rltb x y
  end.

(** [a <= b] on numbers. *)
Definition le (a b : jsnum) : bool :=
  match a, b with
  | NaN, _ | _, NaN => false
  | NegInf, _ => true
  | _, PosInf => true
  | _, NegInf => false
  | PosInf, _ => false
  | Fin x, Fin y => Rleb x y
  end.

(** [a - b] *)
Definition sub (a b : jsnum) : jsnum :=
  match a, b with
  | NaN, _ | _, NaN => NaN
  | PosInf, PosInf => NaN
  | NegInf, NegInf => NaN
  | PosInf, _ => PosInf
  | NegInf, _ => NegInf
  | Fin _, PosInf => NegInf
  | Fin _, NegInf => PosInf
  | Fin x, Fin y => Fin (x - y)
  end.

(** [Math.abs(a)] *)
Definition abs (a : jsnum) : jsnum :=
  match a with
  | NaN => NaN
  | NegInf | PosInf => PosInf
  | Fin x => Fin (Rabs x)
  end.

(** [Math.pow(b, e)] for a positive finite base, the only use in the
    sources ([Math.pow(2, ...)]). *)
Definition Math_pow (b e : jsnum) : jsnum :=
  match b, e with
  | Fin x, Fin y => Fin (Rpower x y)
  | _, _ => NaN
  end.

(** [a * b] and [a / b] for finite operands ([b] non-zero), as used in
    [(keyNumber - 49) / 12] and [... * 440]. *)
Definition mul (a b : jsnum) : jsnum :=
  match a, b with
  | Fin x, Fin y => Fin (x * y)
  | _, _ => NaN
  end.

Definition div (a b : jsnum) : jsnum :=
  match a, b with
  | Fin x, Fin y => Fin (x / y)
  | _, _ => NaN
  end.

(** [o || d] where [o] is a string, [null] or [undefined]: the empty string
    is falsy too. *)
Definition strOr (o : option string) (d : string) : string :=
  match o with
  | Some s => if String.eqb s "" then d else s
  | None => d
  end.

(** Truthiness of a string-or-null value. *)
Definition truthy (o : option string) : bool :=
  match o with
  | Some s => negb (String.eqb s "")
  | None => false
  end.

(** The decimal digits of a non-negative integer, which is what string
    concatenation makes of it (['Octave #' + 3]). *)
Definition natToString (n : Z) : string :=
  NilZero.string_of_uint (N.to_uint (Z.to_N n)).

(** The number/string conversions of the runtime. *)
Record Builtins : Type := {
  parseFloat : string -> jsnum;
  (** [String(n)] for a number [n] *)
  ToString : jsnum -> string;
  (** [Number(s)] for a string [s] *)
  ToNumber : string -> jsnum;
  (** [n.toFixed(2)] *)
  toFixed2 : jsnum -> string
}.

End JS.

(** ** Numbers of binary64

    The operations of IEEE 754 binary64 (53 bits of precision, rounding to
    the nearest, ties to even), as the Standard Library specifies them on
    [spec_float]. *)

Module Float64.

Definition float64 : Type := SpecFloat.spec_float.

(** The number that an integer is read as. *)
Definition ofZ (z : Z) : float64 := SpecFloat.binary_normalize 53 1024 z 0 false.

(** [a + b], [a * b] and [a < b] *)
Definition add (a b : float64) : float64 := SpecFloat.SFadd 53 1024 a b.
Definition mul (a b : float64) : float64 := SpecFloat.SFmul 53 1024 a b.
Definition ltb (a b : float64) : bool := SpecFloat.SFltb a b.

(** The literal [0.3]: [5404319552844595 * 2^-54], the number of binary64
    nearest to three tenths. *)
Definition three_tenths : float64 :=
  SpecFloat.S754_finite false 5404319552844595 (-54).

End Float64.

(** ** A reference instance of the conversions, for decimal notation *)

Module Ref.

Import JS.

Definition digitVal (c : ascii) : option Z :=
  let n := nat_of_ascii c in
  if ((48 <=? n) && (n <=? 57))%nat then Some (Z.of_nat (n - 48)) else None.

Definition isSpace (c : ascii) : bool :=
  let n := nat_of_ascii c in
  ((n =? 32) || (n =? 9) || (n =? 10) || (n =? 11) || (n =? 12) || (n =? 13))%nat.

Fixpoint trimLeft (s : string) : string :=
  match s with
  | String c r => if isSpace c then trimLeft r else s
  | EmptyString => s
  end.

Fixpoint allSpace (s : string) : bool :=
  match s with
  | String c r => isSpace c && allSpace r
  | EmptyString => true
  end.

(** Reads a run of decimal digits: the accumulated value, how many digits
    were read, and the rest of the string. *)
Fixpoint scanDigits (s : string) (acc : Z) (cnt : nat) : Z * nat * string :=
  match s with
  | String c r =>
      match digitVal c with
      | Some d => scanDigits r (10 * acc + d) (S cnt)
      | None => (acc, cnt, s)
      end
  | EmptyString => (acc, cnt, s)
  end.

Definition scanSign (s : string) : bool * string :=
  match s with
  | String "-"%char r => (true, r)
  | String "+"%char r => (false, r)
  | _ => (false, s)
  end.

(** Optional exponent part [e[+-]digits]; without digits nothing is read. *)
Definition scanExponent (s : string) : Z * string :=
  match s with
  | String c r =>
      if (Ascii.eqb c "e" || Ascii.eqb c "E")%char then
        let '(neg, r1) := scanSign r in
        let '(e, n, r2) := scanDigits r1 0 0 in
        match n with
        | O => (0, s)
        | _ => (if neg then - e else e, r2)
        end
      else (0, s)
  | EmptyString => (0, s)
  end.

(** A scanned literal: an infinity, or [(-1)^neg * m * 10^k]. *)
Inductive literal : Type :=
  | LInf (neg : bool)
  | LDec (neg : bool) (m : Z) (k : Z).

(** The longest prefix that is a decimal literal
    ([[+-] (Infinity | digits [. digits] | . digits) [exponent]]), and the
    rest of the string. *)
Definition scanNumber (s : string) : option (literal * string) :=
  let '(neg, s1) := scanSign s in
  if String.prefix "Infinity" s1 then
    Some (LInf neg, String.substring 8 (String.length s1 - 8) s1)
  else
    let '(ip, n1, s2) := scanDigits s1 0 0 in
    let '(m, n2, s3) :=
      match s2 with
      | String "."%char r =>
          let '(m, n2, s3) := scanDigits r ip 0 in
          match n1, n2 with
          | O, O => (ip, O, s2)
          | _, _ => (m, n2, s3)
          end
      | _ => (ip, O, s2)
      end in
    match (n1 + n2)%nat with
    | O => None
    | _ =>
        let '(e, s4) := scanExponent s3 in
        Some (LDec neg m (e - Z.of_nat n2), s4)
    end.

(** What [parseFloat] reads: leading white space, then the longest literal. *)
Definition floatLiteral (s : string) : option literal :=
  match scanNumber (trimLeft s) with
  | Some (l, _) => Some l
  | None => None
  end.

(** What [Number] reads: the whole string must be one literal between
    white space; the empty string is zero. *)
Definition numberLiteral (s : string) : option literal :=
  let t := trimLeft s in
  if String.eqb t "" then Some (LDec false 0 0)
  else match scanNumber t with
       | Some (l, rest) => if allSpace rest then Some l else None
       | None => None
       end.

(** [m * 10^k] as a real. *)
Definition scale10 (m k : Z) : R :=
  if 0 <=? k then IZR (m * 10 ^ k) else (IZR m / IZR (10 ^ (- k)))%R.

Definition value (o : option literal) : jsnum :=
  match o with
  | None => NaN
  | Some (LInf neg) => if neg then NegInf else PosInf
  | Some (LDec neg m k) => Fin (if neg then - scale10 m k else scale10 m k)%R
  end.

Definition ref_parseFloat (s : string) : jsnum := value (floatLiteral s).

Definition ref_ToNumber (s : string) : jsnum := value (numberLiteral s).

Fixpoint zeros (n : nat) : string :=
  match n with
  | O => ""
  | S n' => String "0" (zeros n')
  end.

(** [s] with zeros in front, up to [w] characters. *)
Definition padLeft (w : nat) (s : string) : string :=
  (zeros (w - String.length s) ++ s)%string.

Fixpoint dropTrailingZeros (l : list ascii) : list ascii :=
  match l with
  | [] => []
  | c :: r =>
      match dropTrailingZeros r with
      | [] => if Ascii.eqb c "0" then [] else [c]
      | r' => c :: r'
      end
  end.

(** A finite number printed with its integer part and at most fifteen
    fraction digits, trailing zeros removed. *)
Definition ref_ToString (n : jsnum) : string :=
  match n with
  | NaN => "NaN"
  | PosInf => "Infinity"
  | NegInf => "-Infinity"
  | Fin r =>
      let a := Rabs r in
      let ip := Int_part a in
      let fp := Int_part ((a - IZR ip) * 1000000000000000)%R in
      let frac :=
        string_of_list_ascii
          (dropTrailingZeros (list_ascii_of_string (padLeft 15 (natToString fp)))) in
      ((if Rltb r 0 then "-" else "") ++ natToString ip
       ++ (if String.eqb frac "" then "" else "." ++ frac))%string
  end.

(** [n.toFixed(2)]: the sign, then [|n|] rounded to the nearest hundredth,
    the larger one on a tie. *)
Definition ref_toFixed2 (n : jsnum) : string :=
  match n with
  | NaN => "NaN"
  | PosInf => "Infinity"
  | NegInf => "-Infinity"
  | Fin r =>
      let h := Int_part (Rabs r * 100 + / 2)%R in
      ((if Rltb r 0 then "-" else "") ++ natToString (h / 100) ++ "."
       ++ padLeft 2 (natToString (h mod 100)))%string
  end.

(** The reference runtime, for plain decimal notation.  It agrees with
    JavaScript on the inputs that the properties below evaluate it on:
    decimal literals without exponent, integers, and numbers of few
    decimals.  It is not JavaScript everywhere.  [ref_ToNumber] reads no
    hexadecimal, octal or binary literal (['0x10'] is NaN here, 16 there).
    [ref_parseFloat] and [ref_ToNumber] read a literal exactly: nothing is
    rounded to binary64 and nothing overflows (['1e999'] is finite here,
    [Infinity] there).  [ref_ToString] prints fifteen fraction digits at
    most and no exponent (a number below [1e-15] in size prints as a
    zero).  [ref_toFixed2] rounds the exact value and not its neighbour in
    binary64 ([1.005] gives ['1.01'] here, ['1.00'] there). *)
Definition refBuiltins : Builtins := {|
  parseFloat := ref_parseFloat;
  ToString := ref_ToString;
  ToNumber := ref_ToNumber;
  toFixed2 := ref_toFixed2
|}.

End Ref.

(** ** Closure geometry records *)

Module Goog.

(** [goog.math.Coordinate] *)
Record Coordinate : Type := { x : Z; y : Z }.

(** [goog.math.Size], also the shape of the scaled bounding box of a field. *)
Record Size : Type := { width : Z; height : Z }.

End Goog.

(** ** The tone service of the note picker *)

Module AudioContextManager.

Import JS.

(** The module-level variables [_frequency], [_mute], the gain of [_vca] and
    the frequency of [_vco] (both absent until the first tone), and whether
    the environment supplies an audio context and lets the nodes be
    created. *)
Record t : Type := {
  _frequency : jsnum;
  _mute : bool;
  _vco : option jsnum;
  _vca : option R;
  hasContext : bool;
  canCreate : bool
}.

Definition initial (ctx create : bool) : t :=
  {| _frequency := Fin 0; _mute := false; _vco := None; _vca := None;
     hasContext := ctx; canCreate := create |}.

Definition stop (a : t) : t :=
  {| _frequency := Fin 0;
     _mute := _mute a;
     _vco := _vco a;
     _vca := match _vca a with Some _ => Some 0%R | None => None end;
     hasContext := hasContext a;
     canCreate := canCreate a |}.

Definition mute (m : bool) (a : t) : t :=
  stop {| _frequency := _frequency a; _mute := m; _vco := _vco a;
          _vca := _vca a; hasContext := hasContext a; canCreate := canCreate a |}.

Definition frequency (a : t) : jsnum := _frequency a.

Definition tone (frequency : jsnum) (gain : R) (a : t) : t :=
  if _mute a then a
  else if le frequency (Fin 0) then a
  else
    let a1 := {| _frequency := frequency; _mute := _mute a; _vco := _vco a;
                 _vca := _vca a; hasContext := hasContext a;
                 canCreate := canCreate a |} in
    if negb (hasContext a) then a1
    else
      let g := Rmax 0 (Rmin 1 gain) in
      match _vco a with
      | None =>
          if canCreate a then
            {| _frequency := frequency; _mute := _mute a;
               _vco := Some frequency; _vca := Some g;
               hasContext := hasContext a; canCreate := canCreate a |}
          else
            {| _frequency := frequency; _mute := _mute a;
               _vco := None; _vca := None;
               hasContext := hasContext a; canCreate := canCreate a |}
      | Some _ =>
          {| _frequency := frequency; _mute := _mute a;
             _vco := Some frequency; _vca := Some g;
             hasContext := hasContext a; canCreate := canCreate a |}
      end.

(** A tone is sounding: the gain node exists and its gain is not zero. *)
Definition sounding (a : t) : Prop :=
  exists g, _vca a = Some g /\ g <> 0%R.

(** The calls that the module exports, as inputs, and a run of them. *)
Inductive call : Type :=
  | Stop
  | Mute (m : bool)
  | Tone (frequency : jsnum) (gain : R).

Definition perform (c : call) (a : t) : t :=
  match c with
  | Stop => stop a
  | Mute m => mute m a
  | Tone fr g => tone fr g a
  end.

Fixpoint performAll (l : list call) (a : t) : t :=
  match l with
  | [] => a
  | c :: r => performAll r (perform c a)
  end.

(** No call of the run switches the sound back on. *)
Definition staysMuted (l : list call) : bool :=
  forallb (fun c => match c with Mute false => false | _ => true end) l.

(** What holds of the service from its first state on: the two nodes exist
    together, the gain is between 0 and 1, there is no gain node without an
    audio context, and a gain that is not zero goes with a service that is
    not muted and an oscillator at the reported frequency. *)
Definition nodesInv (a : t) : Prop :=
  (is_Some (_vco a) <-> is_Some (_vca a))
  /\ (forall g, _vca a = Some g -> (0 <= g <= 1)%R)
  /\ (hasContext a = false -> _vca a = None)
  /\ (forall g, _vca a = Some g -> g <> 0%R ->
        _mute a = false /\ _vco a = Some (_frequency a)).

End AudioContextManager.

(** ** The note picker: [Blockly.FieldNote] *)

Module FieldNote.

Import JS.

(** [pianoSize]: the three sizes of the piano. *)
Inductive pianoSize : Type := small | medium | large.

Definition pianoSize_value (p : pianoSize) : nat :=
  match p with small => 12 | medium => 36 | large => 60 end%nat.

(** The source block, as far as the field reads it. *)
Record Block : Type := { RTL : bool }.

(** A [Blockly.Events.Change] for a field. *)
Record Change : Type := {
  element : string;
  fieldName : string;
  oldValue : string;
  newValue : string
}.

Record t : Type := {
  note_ : string;
  text_ : string;
  name : string;
  sourceBlock_ : option Block;
  nKeys_ : nat;
  eps_ : jsnum;
  noteFreq_ : list jsnum;
  noteName_ : list string;
  keyWidth_ : Z;
  keyHeight_ : Z;
  selectedKeyColor_ : string;
  soundingKeys_ : nat;
  pianoWidth_ : Z;
  pianoHeight_ : Z;
  labelHeight_ : Z;
  prevNextHeight_ : Z
}.

Definition with_note_ (v : string) (f : t) : t :=
  {| note_ := v; text_ := text_ f; name := name f;
     sourceBlock_ := sourceBlock_ f; nKeys_ := nKeys_ f; eps_ := eps_ f;
     noteFreq_ := noteFreq_ f; noteName_ := noteName_ f;
     keyWidth_ := keyWidth_ f; keyHeight_ := keyHeight_ f;
     selectedKeyColor_ := selectedKeyColor_ f;
     soundingKeys_ := soundingKeys_ f; pianoWidth_ := pianoWidth_ f;
     pianoHeight_ := pianoHeight_ f; labelHeight_ := labelHeight_ f;
     prevNextHeight_ := prevNextHeight_ f |}.

Definition with_text_ (v : string) (f : t) : t :=
  {| note_ := note_ f; text_ := v; name := name f;
     sourceBlock_ := sourceBlock_ f; nKeys_ := nKeys_ f; eps_ := eps_ f;
     noteFreq_ := noteFreq_ f; noteName_ := noteName_ f;
     keyWidth_ := keyWidth_ f; keyHeight_ := keyHeight_ f;
     selectedKeyColor_ := selectedKeyColor_ f;
     soundingKeys_ := soundingKeys_ f; pianoWidth_ := pianoWidth_ f;
     pianoHeight_ := pianoHeight_ f; labelHeight_ := labelHeight_ f;
     prevNextHeight_ := prevNextHeight_ f |}.


Definition with_notes (freqs : list jsnum) (names : list string) (f : t) : t :=
  {| note_ := note_ f; text_ := text_ f; name := name f;
     sourceBlock_ := sourceBlock_ f; nKeys_ := nKeys_ f; eps_ := eps_ f;
     noteFreq_ := freqs; noteName_ := names;
     keyWidth_ := keyWidth_ f; keyHeight_ := keyHeight_ f;
     selectedKeyColor_ := selectedKeyColor_ f;
     soundingKeys_ := soundingKeys_ f; pianoWidth_ := pianoWidth_ f;
     pianoHeight_ := pianoHeight_ f; labelHeight_ := labelHeight_ f;
     prevNextHeight_ := prevNextHeight_ f |}.

Definition with_soundingKeys_ (v : nat) (f : t) : t :=
  {| note_ := note_ f; text_ := text_ f; name := name f;
     sourceBlock_ := sourceBlock_ f; nKeys_ := nKeys_ f; eps_ := eps_ f;
     noteFreq_ := noteFreq_ f; noteName_ := noteName_ f;
     keyWidth_ := keyWidth_ f; keyHeight_ := keyHeight_ f;
     selectedKeyColor_ := selectedKeyColor_ f;
     soundingKeys_ := v; pianoWidth_ := pianoWidth_ f;
     pianoHeight_ := pianoHeight_ f; labelHeight_ := labelHeight_ f;
     prevNextHeight_ := prevNextHeight_ f |}.

Definition with_piano (kw kh pw ph lh pnh : Z) (f : t) : t :=
  {| note_ := note_ f; text_ := text_ f; name := name f;
     sourceBlock_ := sourceBlock_ f; nKeys_ := nKeys_ f; eps_ := eps_ f;
     noteFreq_ := noteFreq_ f; noteName_ := noteName_ f;
     keyWidth_ := kw; keyHeight_ := kh;
     selectedKeyColor_ := selectedKeyColor_ f;
     soundingKeys_ := soundingKeys_ f; pianoWidth_ := pw;
     pianoHeight_ := ph; labelHeight_ := lh;
     prevNextHeight_ := pnh |}.

(** The field as the constructor leaves it, for a value [note] already in
    string format and a field that shows [text]: 36 keys, a tolerance of
    1 Hz, empty note arrays, keys of 22 by 90 pixels. *)
Definition fresh (note text fname : string) (blk : option Block) : t :=
  {| note_ := note; text_ := text; name := fname; sourceBlock_ := blk;
     nKeys_ := pianoSize_value medium; eps_ := Fin 1;
     noteFreq_ := []; noteName_ := [];
     keyWidth_ := 22; keyHeight_ := 90;
     selectedKeyColor_ := "yellowgreen";
     soundingKeys_ := 0; pianoWidth_ := 0; pianoHeight_ := 0;
     labelHeight_ := 0; prevNextHeight_ := 0 |}.

Section WithBuiltins.

Variable rt : Builtins.

(** [classValidator(text)]: [None] is [null]. *)
Definition classValidator (text : option string) : option string :=
  match text with
  | None => None
  | Some text =>
      let n := parseFloat rt (strOr (Some text) "0") in
      if isNaN n || lt n (Fin 0) then None
      else Some (ToString rt n)
  end.

Definition getValue (f : t) : string := note_ f.

(** [getText()]: the value with two decimals. *)
Definition getText (f : t) : string := toFixed2 rt (ToNumber rt (note_ f)).

(** [Math.abs(this.noteFreq_[i] - Number(note)) < this.eps_]; an index
    outside the array reads [undefined], which makes the difference NaN. *)
Definition nearKey (f : t) (v : jsnum) (i : nat) : bool :=
  match noteFreq_ f !! i with
  | Some fr => lt (abs (sub fr v)) (eps_ f)
  | None => false
  end.

(** The loop of [getNoteName_], from index [i] with [n] indices to go. *)
Fixpoint findNoteName (f : t) (v : jsnum) (i n : nat) : option string :=
  match n with
  | O => None
  | S n' =>
      if nearKey f v i then Some (default "undefined" (noteName_ f !! i))
      else findNoteName f v (S i) n'
  end.

Definition getNoteName_ (f : t) : string :=
  let note := getValue f in
  match findNoteName f (ToNumber rt note) 0 (nKeys_ f) with
  | Some nm => nm
  | None =>
      if negb (isNaN (ToNumber rt note)) then (note ++ " Hz")%string
      else note
  end.

(** [setText(newText)]; [Blockly.Field.prototype.setText] stores the text. *)
Definition setText (newText : option string) (f : t) : t :=
  match newText with
  | None => f
  | Some newText =>
      let newText :=
        if negb (isNaN (ToNumber rt newText)) then getNoteName_ f
        else newText in
      if String.eqb newText (text_ f) then f
      else with_text_ newText f
  end.

(** The number that [setValue] tests for a candidate: the candidate parsed,
    printed and read again. *)
Definition tested (candidate : option string) : jsnum :=
  ToNumber rt (ToString rt (parseFloat rt (strOr candidate "0"))).

(** [setValue(note)], with the events it fires.  [eventsEnabled] is
    [Blockly.Events.isEnabled()]. *)
Definition setValue (eventsEnabled : bool) (note : option string) (f : t)
  : t * list Change :=
  let note := ToString rt (parseFloat rt (strOr note "0")) in
  if isNaN (ToNumber rt note) || lt (ToNumber rt note) (Fin 0) then (f, [])
  else
    let evs :=
      match sourceBlock_ f with
      | Some _ =>
          if eventsEnabled && negb (String.eqb (note_ f) note) then
            [ {| element := "field"; fieldName := name f;
                 oldValue := note_ f; newValue := note |} ]
          else []
      | None => []
      end in
    let f1 := with_note_ note f in
    (setText (Some (getNoteName_ f1)) f1, evs).

End WithBuiltins.


(** [isWhite_(idx)] *)
Definition isWhite_ (idx : nat) : bool :=
  let octavePosition := (idx mod 12)%nat in
  if ((octavePosition =? 1) || (octavePosition =? 3) || (octavePosition =? 6)
      || (octavePosition =? 8) || (octavePosition =? 10))%nat
  then false else true.

Definition getBgColor_ (idx : nat) : string :=
  if isWhite_ idx then "white" else "black".

(** [nextNote_(note)] *)
Definition nextNote_ (note : string) : string :=
  if String.eqb note "A#" then "B"
  else if String.eqb note "B" then "C"
  else if String.eqb note "C#" then "D"
  else if String.eqb note "D#" then "E"
  else if String.eqb note "E" then "F"
  else if String.eqb note "F#" then "G"
  else if String.eqb note "G#" then "A"
  else (note ++ "#")%string.

(** [nextNotePrefix_(prefix)]; [None] is [undefined]. *)
Definition nextNotePrefix_ (nKeys : nat) (prefix : option string) : option string :=
  match prefix with
  | Some p =>
      if String.eqb p "Deep" then Some "Low"
      else if String.eqb p "Low" then Some "Middle"
      else if String.eqb p "Middle" then
        if (nKeys =? pianoSize_value medium)%nat then Some "High" else Some "Tenor"
      else if String.eqb p "Tenor" then Some "High"
      else None
  | None => None
  end.

(** The start key number and the prefix that the [switch] of
    [createNotesArray_] sets; both stay [undefined] for another size. *)
Definition startKey (nKeys : nat) : option Z * option string :=
  if (nKeys =? pianoSize_value small)%nat then (Some 40, Some ""%string)
  else if (nKeys =? pianoSize_value medium)%nat then (Some 28, Some "Low"%string)
  else if (nKeys =? pianoSize_value large)%nat then (Some 16, Some "Deep"%string)
  else (None, None).

(** [Math.pow(2, (keyNumber - 49) / 12) * 440]; an [undefined] key number
    gives NaN. *)
Definition keyFrequency (keyNumber : option Z) : jsnum :=
  match keyNumber with
  | Some k => mul (Math_pow (Fin 2) (div (Fin (IZR k - 49)) (Fin 12))) (Fin 440)
  | None => NaN
  end.

(** The name pushed for a prefix and a note: an [undefined] prefix prints
    as such. *)
Definition keyName (prefix : option string) (curNote : string) : string :=
  (default "undefined" prefix ++ " " ++ curNote)%string.

(** The [for] loop of [createNotesArray_], at index [i] with [n] rounds to
    go. *)
Fixpoint notesLoop (nKeys : nat) (n i : nat) (prefix : option string)
  (curNote : string) (keyNumber : option Z)
  (names : list string) (freqs : list jsnum) : list string * list jsnum :=
  match n with
  | O => (names, freqs)
  | S n' =>
      let names' := names ++ [keyName prefix curNote] in
      let freqs' := freqs ++ [keyFrequency keyNumber] in
      let curNote' := nextNote_ curNote in
      let prefix' :=
        if ((i + 1) mod 12 =? 0)%nat then nextNotePrefix_ nKeys prefix
        else prefix in
      notesLoop nKeys n' (S i) prefix' curNote' (Z.succ <$> keyNumber)
        names' freqs'
  end.

(** [createNotesArray_()]: pushes onto the two arrays of the field. *)
Definition createNotesArray_ (f : t) : t :=
  let '(keyNumber, prefix) := startKey (nKeys_ f) in
  let '(names, freqs) :=
    notesLoop (nKeys_ f) (nKeys_ f) 0 prefix "C" keyNumber
      (noteName_ f) (noteFreq_ f) in
  with_notes freqs names f.

(** [init()]: empties the arrays, fills them and sets the value again. *)
Definition init (rt : Builtins) (eventsEnabled : bool) (f : t) : t * list Change :=
  let f1 := createNotesArray_ (with_notes [] [] f) in
  setValue rt eventsEnabled (Some (getValue f1)) f1.

(** The frequencies of the field are those of the keys from some start key
    on, no lower than key 16: what [createNotesArray_] leaves for each of
    the three sizes. *)
Definition generated (f : t) : Prop :=
  exists k0 : Z,
    16 <= k0
    /\ noteFreq_ f
       = map (fun j => keyFrequency (Some (k0 + Z.of_nat j))) (seq 0 (nKeys_ f)).

(** The note entries, name by frequency. *)
Definition noteEntries (f : t) : list (string * jsnum) :=
  zip (noteName_ f) (noteFreq_ f).

(** *** [showEditor_]: sizes, placement, pagination, keys *)

(** The size of the piano and whether it is paginated or docked (mobile):
    the start of [showEditor_].  [editorWidth] is [getEditorWidth_()],
    [uaMobile] is [goog.userAgent.MOBILE || goog.userAgent.ANDROID].  The
    quotients are exact for the three sizes of the piano; on a mobile the
    new key height is [ceil(keyWidth_ / r)] with [r] the old ratio of width
    to height. *)
Definition ceilDiv (a b : Z) : Z := - ((- a) / b).

Definition showEditor_sizes (windowSize : Goog.Size) (editorWidth : Z)
  (opt_quietInput uaMobile : bool) (f : t) : bool * bool * t :=
  let n := Z.of_nat (nKeys_ f) in
  let pianoWidth := keyWidth_ f * (n - n / 12 * 5) in
  let pianoHeight := keyHeight_ f in
  let pagination := editorWidth <? pianoWidth in
  let pianoWidth := if pagination then 7 * keyWidth_ f else pianoWidth in
  if negb opt_quietInput && uaMobile then
    let kw := ceilDiv (Goog.width windowSize) 7 in
    let kh := ceilDiv (kw * keyHeight_ f) (keyWidth_ f) in
    (true, true, with_piano kw kh (7 * kw) kh 90 90 (with_soundingKeys_ 0 f))
  else
    (pagination, false,
     with_piano (keyWidth_ f) (keyHeight_ f) pianoWidth pianoHeight
       (labelHeight_ f) (prevNextHeight_ f) (with_soundingKeys_ 0 f)).

(** The offsets [topPosition] and [leftPosition] of the piano inside the
    widget div.  [xy] is [getAbsoluteXY_()], [borderBBox] is
    [getScaledBBox_()], [divScrollHeight] is [div.scrollHeight],
    [widgetOffset] holds [offsetLeft] and [offsetTop] of the widget div. *)
Definition showEditor_position (f : t) (mobile rtl : bool)
  (xy : Goog.Coordinate) (borderBBox windowSize : Goog.Size)
  (scrollOffset : Goog.Coordinate) (divScrollHeight : Z)
  (widgetOffset : Goog.Coordinate) : Z * Z :=
  let pianoHeight := keyHeight_ f + divScrollHeight + 5 in
  if negb mobile then
    let topPosition :=
      if Goog.y xy + pianoHeight + Goog.height borderBBox
         >=? Goog.height windowSize + Goog.y scrollOffset
      then - (pianoHeight + Goog.height borderBBox)
      else 0 in
    let leftPosition :=
      if rtl then
        let xyx := Goog.x xy + Goog.width borderBBox - pianoWidth_ f in
        let leftPosition := 0 + Goog.width borderBBox - pianoWidth_ f in
        if xyx <? Goog.x scrollOffset then Goog.x scrollOffset - xyx
        else leftPosition
      else
        if Goog.x xy >? Goog.width windowSize + Goog.x scrollOffset - pianoWidth_ f
        then 0 - (Goog.x xy
                  - (Goog.width windowSize + Goog.x scrollOffset - pianoWidth_ f)
                  + 30)
        else 0 in
    (topPosition, leftPosition)
  else
    (Goog.height windowSize
       - (keyHeight_ f + labelHeight_ f + prevNextHeight_ f)
       - Goog.y widgetOffset - Goog.height borderBBox,
     - Goog.x widgetOffset).

(** The state that the two pagination listeners close over: the page, the
    number of pages, the visibility of the keys of [piano] and the text of
    the note label. *)
Record Pager : Type := {
  currentPage : nat;
  Npages : nat;
  visible : list bool;
  labelText : string
}.

Definition octaveLabel (page : nat) : string :=
  ("Octave #" ++ natToString (Z.of_nat (page + 1)))%string.

(** What [showEditor_] leaves when pagination is on: the keys above the
    eleventh hidden, the label on the first octave, page 0 of
    [nKeys_ / 12]. *)
Definition showEditor_pager (f : t) : Pager :=
  {| currentPage := 0;
     Npages := (nKeys_ f / 12)%nat;
     visible := map (fun i => negb (11 <? i)%nat) (seq 0 (nKeys_ f));
     labelText := octaveLabel 0 |}.

(** [for (i = 0; i < 12; i++) piano[i + first].setVisible(b)], with [n]
    rounds to go; a key that does not exist raises. *)
Fixpoint setOctaveVisible (b : bool) (first i n : nat) (piano : list bool)
  : option (list bool) :=
  match n with
  | O => Some piano
  | S n' =>
      match piano !! (i + first)%nat with
      | Some _ => setOctaveVisible b first (S i) n' (<[(i + first)%nat := b]> piano)
      | None => None
      end
  end.

(** The MOUSEDOWN listener of the previous button. *)
Definition prevButton_MOUSEDOWN (p : Pager) : option Pager :=
  if (currentPage p =? 0)%nat then
    Some {| currentPage := currentPage p; Npages := Npages p;
            visible := visible p; labelText := octaveLabel (currentPage p) |}
  else
    let curFirstKey := (currentPage p * 12)%nat in
    let newFirstKey := (currentPage p * 12 - 12)%nat in
    match setOctaveVisible false curFirstKey 0 12 (visible p) with
    | Some v1 =>
        match setOctaveVisible true newFirstKey 0 12 v1 with
        | Some v2 =>
            Some {| currentPage := (currentPage p - 1)%nat; Npages := Npages p;
                    visible := v2;
                    labelText := octaveLabel (currentPage p - 1) |}
        | None => None
        end
    | None => None
    end.

(** The MOUSEDOWN listener of the next button. *)
Definition nextButton_MOUSEDOWN (p : Pager) : option Pager :=
  if Z.of_nat (currentPage p) =? Z.of_nat (Npages p) - 1 then
    Some {| currentPage := currentPage p; Npages := Npages p;
            visible := visible p; labelText := octaveLabel (currentPage p) |}
  else
    let curFirstKey := (currentPage p * 12)%nat in
    let newFirstKey := (currentPage p * 12 + 12)%nat in
    match setOctaveVisible false curFirstKey 0 12 (visible p) with
    | Some v1 =>
        match setOctaveVisible true newFirstKey 0 12 v1 with
        | Some v2 =>
            Some {| currentPage := (currentPage p + 1)%nat; Npages := Npages p;
                    visible := v2;
                    labelText := octaveLabel (currentPage p + 1) |}
        | None => None
        end
    | None => None
    end.

(** The MOUSEOVER listener of key [i] writes the name of the key on the
    label. *)
Definition key_MOUSEOVER (f : t) (i : nat) (p : Pager) : Pager :=
  {| currentPage := currentPage p; Npages := Npages p; visible := visible p;
     labelText := default "undefined" (noteName_ f !! i) |}.

(** The buttons and keys of a paginated piano, as inputs. *)
Inductive pagerAction : Type :=
  | PreviousPage
  | NextPage
  | HoverKey (i : nat).

Definition pagerStep (f : t) (a : pagerAction) (p : Pager) : option Pager :=
  match a with
  | PreviousPage => prevButton_MOUSEDOWN p
  | NextPage => nextButton_MOUSEDOWN p
  | HoverKey i => Some (key_MOUSEOVER f i p)
  end.

Fixpoint pagerRun (f : t) (l : list pagerAction) (p : Pager) : option Pager :=
  match l with
  | [] => Some p
  | a :: r =>
      match pagerStep f a p with
      | Some p' => pagerRun f r p'
      | None => None
      end
  end.

(** The keys of octave [page] visible, the others hidden. *)
Definition octaveMask (nKeys page : nat) : list bool :=
  map (fun i => (i / 12 =? page)%nat) (seq 0 nKeys).

(** What holds of the pager throughout: [N] pages, a page below [N], the
    keys of the current octave visible and no others. *)
Definition pagerInv (N : nat) (p : Pager) : Prop :=
  Npages p = N
  /\ (currentPage p < N)%nat
  /\ visible p = octaveMask (12 * N) (currentPage p).

(** *** The keys of the piano and their listeners *)

(** The note picker while it is in use: the field, the tone service, the
    captured counters of the time-outs that have not fired yet, the change
    events fired so far, the text of the HTML input, and per key its "tag"
    attribute and background colour, with the two variables
    [currentSelectedKey] and [previousColor] that the key listeners close
    over. *)
Record Editor : Type := {
  field : t;
  audio : AudioContextManager.t;
  timeouts : list nat;
  fired : list Change;
  htmlInput_value : string;
  tags : list string;
  backgroundColor : list string;
  currentSelectedKey : option nat;
  previousColor : option string
}.

(** What [showEditor_] reads of the page when it opens: the size of the
    window, the width of the editor, and whether the input is quiet and the
    device a mobile. *)
Record Opening : Type := {
  windowSize : Goog.Size;
  editorWidth : Z;
  opt_quietInput : bool;
  uaMobile : bool
}.

Section Listeners.

Variable rt : Builtins.
Variable eventsEnabled : bool.

(** The key loop of [showEditor_], at index [i] with [n] keys to go: the tag
    is the frequency of the key, the key of the current value is
    highlighted.  A missing frequency raises (it has no [toString]). *)
Fixpoint renderKeys (f : t) (i n : nat) (tags colors : list string)
  (selected : option nat) (previous : option string)
  : option (list string * list string * option nat * option string) :=
  match n with
  | O => Some (tags, colors, selected, previous)
  | S n' =>
      match noteFreq_ f !! i with
      | Some fr =>
          let bgColor := getBgColor_ i in
          if nearKey f (ToNumber rt (getValue f)) i then
            renderKeys f (S i) n' (tags ++ [ToString rt fr])
              (colors ++ [selectedKeyColor_ f]) (Some i) (Some bgColor)
          else
            renderKeys f (S i) n' (tags ++ [ToString rt fr])
              (colors ++ [bgColor]) selected previous
      | None => None
      end
  end.

(** [showEditor_], as far as the keys and their listeners depend on it:
    the text of the field and of the HTML input becomes the number, the
    counter of sounding keys is set to 0 with the sizes of the piano, and
    the keys are built anew.  Time-outs that are pending and the tone
    service are not touched; where the piano is placed and which keys are
    visible is [showEditor_position] and [showEditor_pager].  Off a mobile
    the piano is placed by the direction of the source block
    ([this.sourceBlock_.RTL]): on a field without a block this raises,
    before any key is built. *)
Definition showEditor_ (o : Opening) (e : Editor) : option Editor :=
  let f0 := with_text_ (getText rt (field e)) (field e) in
  let '(_, mobile, f1) :=
    showEditor_sizes (windowSize o) (editorWidth o) (opt_quietInput o)
      (uaMobile o) f0 in
  if negb mobile && bool_decide (sourceBlock_ f1 = None) then None
  else
    match renderKeys f1 0 (nKeys_ f1) [] [] None None with
    | Some (tg, cols, sel, prev) =>
        Some {| field := f1; audio := audio e; timeouts := timeouts e;
                fired := fired e;
                htmlInput_value := getText rt (field e);
                tags := tg; backgroundColor := cols;
                currentSelectedKey := sel; previousColor := prev |}
    | None => None
    end.

(** The MOUSEDOWN listener of key [i]; [None] when there is no such key.
    The call [superClass_.dispose.call(this)] is made on the key, which is
    not the owner of the widget and holds none of the fields that [dispose]
    clears: it changes nothing of the state kept here.  The time-out is
    recorded in [timeouts] with the counter it captures. *)
Definition key_MOUSEDOWN (i : nat) (e : Editor) : option Editor :=
  match tags e !! i, backgroundColor e !! i with
  | Some freq, Some _ =>
      let a1 := AudioContextManager.stop (audio e) in
      let cnt := S (soundingKeys_ (field e)) in
      let f1 := with_soundingKeys_ cnt (field e) in
      let cols1 :=
        match currentSelectedKey e with
        | Some k => <[k := default "undefined" (previousColor e)]> (backgroundColor e)
        | None => backgroundColor e
        end in
      let prev :=
        if bool_decide (currentSelectedKey e = Some i) then previousColor e
        else cols1 !! i in
      let cols2 := <[i := selectedKeyColor_ f1]> cols1 in
      let '(f2, evs) := setValue rt eventsEnabled (Some freq) f1 in
      let f3 := setText rt (Some freq) f2 in
      let a2 := AudioContextManager.tone (ToNumber rt freq) 1 a1 in
      Some {| field := f3; audio := a2;
              timeouts := timeouts e ++ [cnt];
              fired := fired e ++ evs;
              htmlInput_value := getText rt f3;
              tags := tags e; backgroundColor := cols2;
              currentSelectedKey := Some i; previousColor := prev |}
  | _, _ => None
  end.

Fixpoint removeFirst (c : nat) (l : list nat) : list nat :=
  match l with
  | [] => []
  | x :: r => if (x =? c)%nat then r else x :: removeFirst c r
  end.

(** The time-out callback that captured [cnt] fires, 500 ms after its
    MOUSEDOWN; [None] when no such time-out is pending. *)
Definition key_timeout (cnt : nat) (e : Editor) : option Editor :=
  if bool_decide (cnt ∈ timeouts e) then
    Some {| field := field e;
            audio := if (soundingKeys_ (field e) =? cnt)%nat
                     then AudioContextManager.stop (audio e)
                     else audio e;
            timeouts := removeFirst cnt (timeouts e);
            fired := fired e;
            htmlInput_value := htmlInput_value e;
            tags := tags e; backgroundColor := backgroundColor e;
            currentSelectedKey := currentSelectedKey e;
            previousColor := previousColor e |}
  else None.

(** What happens to an open note picker. *)
Inductive action : Type :=
  | ShowEditor (o : Opening)
  | KeyDown (i : nat)
  | TimeoutFires (cnt : nat).

Definition step (a : action) (e : Editor) : option Editor :=
  match a with
  | ShowEditor o => showEditor_ o e
  | KeyDown i => key_MOUSEDOWN i e
  | TimeoutFires cnt => key_timeout cnt e
  end.

Fixpoint run (l : list action) (e : Editor) : option Editor :=
  match l with
  | [] => Some e
  | a :: r =>
      match step a e with
      | Some e' => run r e'
      | None => None
      end
  end.

End Listeners.

(** How many keys go down in a list of actions, and whether the editor
    stays open throughout (no action opens it anew). *)
Fixpoint keysDown (l : list action) : nat :=
  match l with
  | [] => 0
  | KeyDown _ :: r => S (keysDown r)
  | _ :: r => keysDown r
  end.

Definition staysOpen (l : list action) : bool :=
  forallb (fun a => match a with ShowEditor _ => false | _ => true end) l.

(** A desktop window of 1280 by 800 with an editor 1000 wide. *)
Definition desktop : Opening :=
  {| windowSize := {| Goog.width := 1280; Goog.height := 800 |};
     editorWidth := 1000; opt_quietInput := false; uaMobile := false |}.

(** The medium piano of a field that holds [note]: the field as
    constructed, its note arrays filled. *)
Definition mediumField (note : string) : t :=
  createNotesArray_ (fresh note "" "note" None).

(** The same piano for a field that sits on a block. *)
Definition mediumFieldOn (block : Block) (note : string) : t :=
  createNotesArray_ (fresh note "" "note" (Some block)).

(** A block of a workspace that reads from left to right. *)
Definition ltrBlock : Block := {| RTL := false |}.

(** The picker before its first opening. *)
Definition closedEditor (f : t) (a : AudioContextManager.t) : Editor :=
  {| field := f; audio := a; timeouts := []; fired := [];
     htmlInput_value := ""; tags := []; backgroundColor := [];
     currentSelectedKey := None; previousColor := None |}.

(** The key that [currentSelectedKey] holds, and no other, shows the
    selection colour; every other key shows the colour of its kind. *)
Definition highlighted (e : Editor) : Prop :=
  forall k : nat,
    (k < nKeys_ (field e))%nat ->
    backgroundColor e !! k
    = Some (if bool_decide (currentSelectedKey e = Some k)
            then selectedKeyColor_ (field e) else getBgColor_ k).

(** Two states of the field with the same table of notes, the same tolerance
    and the same selection colour. *)
Definition sameTable (f g : t) : Prop :=
  nKeys_ g = nKeys_ f /\ noteFreq_ g = noteFreq_ f /\ eps_ g = eps_ f
  /\ selectedKeyColor_ g = selectedKeyColor_ f.

(** What holds of an open picker: one tag and one colour per key, the
    highlight as in [highlighted], and the colour kept in [previousColor]
    for the selected key is the colour of its kind. *)
Definition keysInv (e : Editor) : Prop :=
  length (tags e) = nKeys_ (field e)
  /\ length (backgroundColor e) = nKeys_ (field e)
  /\ highlighted e
  /\ (forall k : nat,
        currentSelectedKey e = Some k ->
        (k < nKeys_ (field e))%nat /\ previousColor e = Some (getBgColor_ k)).

(** *** The geometry of the keys, of the label and of the page buttons

    A black key is half as wide and half as high as a white one and sits a
    quarter of a key width to the left of the next white key: these
    quantities are rationals.  The colour [colour_] of the field, which the
    constructor gets from [Blockly.hueToRgb], is an argument. *)

(** [getKeyWidth_(idx)] *)
Definition getKeyWidth_ (f : t) (idx : nat) : Q :=
  if isWhite_ idx then inject_Z (keyWidth_ f)
  else (inject_Z (keyWidth_ f) / 2)%Q.

(** [getKeyHeight_(idx)] *)
Definition getKeyHeight_ (f : t) (idx : nat) : Q :=
  if isWhite_ idx then inject_Z (keyHeight_ f)
  else (inject_Z (keyHeight_ f) / 2)%Q.

(** [getPosition_(idx)]; [whiteKeyCounter_] counts the white keys rendered
    so far. *)
Definition getPosition_ (f : t) (whiteKeyCounter_ : Z) (idx : nat) : Q :=
  let pos := inject_Z (whiteKeyCounter_ * keyWidth_ f) in
  if isWhite_ idx then pos
  else (pos - inject_Z (keyWidth_ f) / 4)%Q.

(** The declarations of the style that [getKeyStyle_] gives the [div] of a
    key; lengths are in pixels. *)
Record KeyStyle : Type := {
  key_background_color : string;
  key_width : Q;
  key_height : Q;
  key_left : Q;
  key_top : Z;
  key_z_index : Z;
  key_border_color : string
}.

(** [getKeyStyle_(bgColor, width, height, leftPosition, topPosition,
    z_index, keyBorderColour, isMobile)]; the last argument is not used. *)
Definition getKeyStyle_ (bgColor : string) (width height leftPosition : Q)
  (topPosition z_index : Z) (keyBorderColour : string) (isMobile : bool)
  : KeyStyle :=
  {| key_background_color := bgColor; key_width := width;
     key_height := height; key_left := leftPosition; key_top := topPosition;
     key_z_index := z_index; key_border_color := keyBorderColour |}.

(** The key loop of [showEditor_], as far as it places the keys: at key [i]
    with [n] keys to go, the style of each key and whether it is left
    visible.  [whiteKeyCounter_] and [octaveCounter] are the two counters
    of the loop. *)
Fixpoint renderKeyStyles (f : t) (colour_ : string) (pagination mobile : bool)
  (leftPosition topPosition : Z) (i n : nat)
  (whiteKeyCounter_ octaveCounter : Z) : list (KeyStyle * bool) :=
  match n with
  | O => []
  | S n' =>
      let octaveCounter :=
        if ((0 <? i) && (i mod 12 =? 0))%nat then octaveCounter + 1
        else octaveCounter in
      let bgColor := getBgColor_ i in
      let width := getKeyWidth_ f i in
      let height := getKeyHeight_ f i in
      let position := getPosition_ f whiteKeyCounter_ i in
      let position :=
        if pagination && (12 <=? i)%nat
        then (position - inject_Z (7 * octaveCounter * keyWidth_ f))%Q
        else position in
      let style :=
        getKeyStyle_ bgColor width height (position + inject_Z leftPosition)%Q
          topPosition (if isWhite_ i then 1000 else 1001)
          (if isWhite_ i then colour_ else "black") mobile in
      let whiteKeyCounter_ :=
        if isWhite_ i then whiteKeyCounter_ + 1 else whiteKeyCounter_ in
      (style, negb (pagination && (11 <? i)%nat))
      :: renderKeyStyles f colour_ pagination mobile leftPosition topPosition
           (S i) n' whiteKeyCounter_ octaveCounter
  end.

(** The declarations of the style of the note label. *)
Record LabelStyle : Type := {
  label_top : Z;
  label_left : Z;
  label_background_color : string;
  label_width : Z;
  label_border_color : string;
  label_font_size : option Z;
  label_height : option Z
}.

(** [getShowNoteStyle_(topPosition, leftPosition, isMobile)] *)
Definition getShowNoteStyle_ (f : t) (colour_ : string)
  (topPosition leftPosition : Z) (isMobile : bool) : LabelStyle :=
  let topPosition := topPosition + keyHeight_ f in
  let topPosition :=
    if isMobile then topPosition + prevNextHeight_ f else topPosition in
  {| label_top := topPosition; label_left := leftPosition;
     label_background_color := colour_; label_width := pianoWidth_ f;
     label_border_color := colour_;
     label_font_size := if isMobile then Some 70 else None;
     label_height := if isMobile then Some 90 else None |}.

(** The declarations of the style of a page button. *)
Record PrevNextStyle : Type := {
  button_top : Z;
  button_left : Q;
  button_height : option Z;
  button_font_size : option Z;
  button_width : Z;
  button_background_color : string;
  button_border_left_color : option string;
  button_border_right_color : option string;
  button_border_bottom_color : option string
}.

(** [getNextPrevStyle_(topPosition, leftPosition, isPrev, isMobile)] *)
Definition getNextPrevStyle_ (f : t) (colour_ : string)
  (topPosition leftPosition : Z) (isPrev isMobile : bool) : PrevNextStyle :=
  let xPosition :=
    ((if isPrev then 0 else inject_Z (pianoWidth_ f) / 2)
     + inject_Z leftPosition)%Q in
  let yPosition := keyHeight_ f + labelHeight_ f + topPosition in
  let yPosition := if isMobile then keyHeight_ f + topPosition else yPosition in
  {| button_top := yPosition; button_left := xPosition;
     button_height := if isMobile then Some 90 else None;
     button_font_size := if isMobile then Some 50 else None;
     button_width := ceilDiv (pianoWidth_ f) 2;
     button_background_color := colour_;
     button_border_left_color := if isPrev then Some colour_ else None;
     button_border_right_color := if isPrev then None else Some colour_;
     button_border_bottom_color := if negb isMobile then Some colour_ else None |}.

(** How many of the keys below [i] are white. *)
Definition whiteKeysBelow (i : nat) : Z :=
  Z.of_nat (length (List.filter isWhite_ (seq 0 i))).

(** The style and the visibility of key [k] in closed form: what the key
    loop makes of it when its counters are the number of white keys below
    [k] and the number of the octave of [k]. *)
Definition keyAt (f : t) (colour_ : string) (pagination mobile : bool)
  (leftPosition topPosition : Z) (k : nat) : KeyStyle * bool :=
  (getKeyStyle_ (getBgColor_ k) (getKeyWidth_ f k) (getKeyHeight_ f k)
     ((if pagination && (12 <=? k)%nat
       then getPosition_ f (whiteKeysBelow k) k
            - inject_Z (7 * Z.of_nat (k / 12) * keyWidth_ f)
       else getPosition_ f (whiteKeysBelow k) k) + inject_Z leftPosition)%Q
     topPosition (if isWhite_ k then 1000 else 1001)
     (if isWhite_ k then colour_ else "black") mobile,
   negb (pagination && (11 <? k)%nat)).

End FieldNote.

(** ** The grid picker: [pxtblocky.FieldGridPicker] *)

Module FieldGridPicker.

Import JS.

(** A configuration value as the host passes it. *)
Inductive jsval : Type :=
  | JUndefined
  | JNull
  | JBool (b : bool)
  | JNum (n : jsnum)
  | JStr (s : string).

(** The [params] object of the constructor. *)
Record Params : Type := {
  columns : jsval;
  maxRows : jsval;
  width : jsval;
  itemColour : jsval;
  tooltips : jsval;
  tooltipsXOffset : jsval;
  tooltipsYOffset : jsval
}.

(** The first component of an option: a text, or an image. *)
Inductive content : Type :=
  | Text (s : string)
  | Image (src : string) (w h : Z) (alt : option string).

(** An option [[content, value]] of the menu. *)
Record MenuOption : Type := { optContent : content; optValue : string }.

(** A [goog.ui.MenuItem] of a row. *)
Record MenuItem : Type := {
  itemContent : content;
  itemValue : string;
  itemChecked : bool
}.

(** A [goog.ui.Tooltip] on the menu item with index [elem]. *)
Record Tooltip : Type := {
  elem : nat;
  tipContent : content;
  showDelayMs : Z;
  className : string
}.

Record TooltipConfig : Type := {
  enabled : bool;
  xOffset : Z;
  yOffset : Z
}.

(** Truthiness of a value. *)
Definition toBoolean (v : jsval) : bool :=
  match v with
  | JUndefined | JNull => false
  | JBool b => b
  | JNum NaN => false
  | JNum (Fin r) => if Req_dec_T r 0 then false else true
  | JNum _ => true
  | JStr s => negb (String.eqb s "")
  end.

(** [a || b] on values and on booleans. *)
Definition valOr (a b : jsval) : jsval := if toBoolean a then a else b.
Definition boolOr (a b : bool) : bool := if a then a else b.

(** [n == m] on numbers. *)
Definition numEq (n m : jsnum) : bool :=
  match n, m with
  | Fin x, Fin y => if Req_dec_T x y then true else false
  | PosInf, PosInf | NegInf, NegInf => true
  | _, _ => false
  end.

Section WithHost.

(** The runtime conversions; [parseInt], with [None] for NaN;
    [Blockly.hueToRgb] and [Blockly.FieldDropdown.CHECKMARK_OVERHANG], which
    the files of the grid picker use and do not define; the part of the
    field that [Blockly.FieldDropdown] owns, with its constructor and its
    [dispose]. *)
Variable rt : Builtins.
Variable parseInt : jsval -> option Z.
Variable hueToRgb : jsnum -> string.
Variable CHECKMARK_OVERHANG : Z.
Variable Base : Type.
Variable super_new : list MenuOption -> Base.
Variable super_dispose : Base -> Base.

(** [Number(v)] *)
Definition valToNumber (v : jsval) : jsnum :=
  match v with
  | JUndefined => NaN
  | JNull => Fin 0
  | JBool b => if b then Fin 1 else Fin 0
  | JNum n => n
  | JStr s => ToNumber rt s
  end.

(** [v == s] for a string [s]. *)
Definition looseEqString (v : jsval) (s : string) : bool :=
  match v with
  | JUndefined | JNull => false
  | JBool _ | JNum _ => numEq (valToNumber v) (ToNumber rt s)
  | JStr s' => String.eqb s' s
  end.

(** [parseInt(v) || d] *)
Definition parseIntOr (v : jsval) (d : Z) : Z :=
  match parseInt v with
  | Some 0 | None => d
  | Some z => z
  end.

Definition isHexDigit (c : ascii) : bool :=
  let n := nat_of_ascii c in
  (((48 <=? n) && (n <=? 57)) || ((65 <=? n) && (n <=? 70))
   || ((97 <=? n) && (n <=? 102)))%nat.

(** [s.match(/^#[0-9a-fA-F]{6}$/)] *)
Definition isHexColour (s : string) : bool :=
  match s with
  | String "#"%char r =>
      (String.length r =? 6)%nat && forallb isHexDigit (list_ascii_of_string r)
  | _ => false
  end.

Record t : Type := {
  base : Base;
  menuGenerator_ : list MenuOption;
  value_ : string;
  tooltips_ : list Tooltip;
  columns_ : Z;
  maxRows_ : Z;
  width_ : Z;
  backgroundColour_ : string;
  itemColour_ : jsval;
  tooltipConfig_ : TooltipConfig
}.

(** The constructor.  An absent [backgroundColour] is ['#000'].  [value] is
    the value that the constructor of the dropdown field leaves in
    [value_]. *)
Definition new (menuGenerator : list MenuOption) (value : string)
  (backgroundColour : jsval) (params : Params) : t :=
  let backgroundColour :=
    match backgroundColour with JUndefined => JStr "#000" | v => v end in
  let hue := valToNumber backgroundColour in
  {| base := super_new menuGenerator;
     menuGenerator_ := menuGenerator;
     value_ := value;
     tooltips_ := [];
     columns_ := parseIntOr (columns params) 4;
     maxRows_ := parseIntOr (maxRows params) 0;
     width_ := parseIntOr (width params) 400;
     backgroundColour_ :=
       if negb (isNaN hue) then hueToRgb hue
       else match backgroundColour with
            | JStr s => if isHexColour s then s else "#000"
            | _ => "#000"
            end;
     itemColour_ := valOr (itemColour params) (JStr "#fff");
     tooltipConfig_ :=
       {| enabled := boolOr (looseEqString (tooltips params) "true") true;
          xOffset := parseIntOr (tooltipsXOffset params) 15;
          yOffset := parseIntOr (tooltipsYOffset params) (-10) |} |}.

Definition with_tooltips (ts : list Tooltip) (f : t) : t :=
  {| base := base f; menuGenerator_ := menuGenerator_ f; value_ := value_ f;
     tooltips_ := ts; columns_ := columns_ f; maxRows_ := maxRows_ f;
     width_ := width_ f; backgroundColour_ := backgroundColour_ f;
     itemColour_ := itemColour_ f; tooltipConfig_ := tooltipConfig_ f |}.

Definition with_base (b : Base) (f : t) : t :=
  {| base := b; menuGenerator_ := menuGenerator_ f; value_ := value_ f;
     tooltips_ := tooltips_ f; columns_ := columns_ f; maxRows_ := maxRows_ f;
     width_ := width_ f; backgroundColour_ := backgroundColour_ f;
     itemColour_ := itemColour_ f; tooltipConfig_ := tooltipConfig_ f |}.

Definition with_width (w : Z) (f : t) : t :=
  {| base := base f; menuGenerator_ := menuGenerator_ f; value_ := value_ f;
     tooltips_ := tooltips_ f; columns_ := columns_ f; maxRows_ := maxRows_ f;
     width_ := w; backgroundColour_ := backgroundColour_ f;
     itemColour_ := itemColour_ f; tooltipConfig_ := tooltipConfig_ f |}.

(** The picker together with the tooltips that have been disposed, in the
    order of the [dispose()] calls on them. *)
Record World : Type := {
  picker : t;
  disposed : list Tooltip
}.

(** [disposeTooltips()] *)
Definition disposeTooltips (w : World) : World :=
  if negb (length (tooltips_ (picker w)) =? 0)%nat then
    {| picker := with_tooltips [] (picker w);
       disposed := disposed w ++ tooltips_ (picker w) |}
  else w.

(** [dispose()] *)
Definition dispose (w : World) : World :=
  disposeTooltips
    {| picker := with_base (super_dispose (base (picker w))) (picker w);
       disposed := disposed w |}.

(** The menu item that [createRow] makes of an option. *)
Definition menuItemOf (f : t) (o : MenuOption) : MenuItem :=
  {| itemContent := optContent o; itemValue := optValue o;
     itemChecked := String.eqb (optValue o) (value_ f) |}.

(** [createRow(row, options)]: the items of the row, the options from
    [columns * row] up to [min(columns * row + columns, options.length)]. *)
Definition createRow (f : t) (row : nat) (options : list MenuOption)
  : list MenuItem :=
  let first := columns_ f * Z.of_nat row in
  let last := Z.min (first + columns_ f) (Z.of_nat (length options)) in
  map (menuItemOf f)
      (take (Z.to_nat (last - first)) (drop (Z.to_nat first) options)).

(** [i < len / columns] for the quotient of numbers, [columns] not zero. *)
Definition ltQuot (i len columns : Z) : bool :=
  if 0 <? columns then i * columns <? len else len <? i * columns.

(** [for (i = 0; i < options.length / this.columns_; i++)], at [i] with at
    most [n] rounds to go; the loop ends within [options.length] rounds. *)
Fixpoint rowsLoop (f : t) (options : list MenuOption) (i n : nat)
  : list (list MenuItem) :=
  match n with
  | O => []
  | S n' =>
      if ltQuot (Z.of_nat i) (Z.of_nat (length options)) (columns_ f)
      then createRow f i options :: rowsLoop f options (S i) n'
      else []
  end.

(** [options[i][0].alt || options[i][0]] *)
Definition tooltipContent (c : content) : content :=
  match c with
  | Image _ _ _ alt => if truthy alt then Text (default ""%string alt) else c
  | Text _ => c
  end.

(** The tooltip made for option [o] on the menu item of index [i]. *)
Definition tooltipOf (i : nat) (o : MenuOption) : Tooltip :=
  {| elem := i; tipContent := tooltipContent (optContent o);
     showDelayMs := 0;
     className := "goog-tooltip blocklyGridPickerTooltip" |}.

(** The tooltip loop over the menu items, at item [i]: an option that does
    not exist raises. *)
Fixpoint tooltipsLoop (f : t) (options : list MenuOption) (i : nat)
  (items : list MenuItem) (acc : list Tooltip) : option (list Tooltip) :=
  match items with
  | [] => Some acc
  | _ :: rest =>
      if enabled (tooltipConfig_ f) then
        match options !! i with
        | Some o =>
            tooltipsLoop f options (S i) rest (acc ++ [tooltipOf i o])
        | None => None
        end
      else tooltipsLoop f options (S i) rest acc
  end.

(** The coordinates that [showEditor_] hands to [Blockly.WidgetDiv.position]. *)
Definition showEditor_xy (rtl : bool) (xy : Goog.Coordinate)
  (paddingContainerSize borderBBox windowSize : Goog.Size)
  (scrollOffset : Goog.Coordinate) : Goog.Coordinate :=
  let y1 :=
    if Goog.y xy + Goog.height paddingContainerSize + Goog.height borderBBox
       >=? Goog.height windowSize + Goog.y scrollOffset
    then Goog.y xy - (Goog.height paddingContainerSize + 2)
    else Goog.y xy + Goog.height borderBBox in
  let x1 :=
    if rtl then
      let x := Goog.x xy + Goog.width borderBBox + CHECKMARK_OVERHANG in
      if x <? Goog.x scrollOffset + Goog.width paddingContainerSize
      then Goog.x scrollOffset + Goog.width paddingContainerSize
      else x
    else
      let x := Goog.x xy - CHECKMARK_OVERHANG in
      if x >? Goog.width windowSize + Goog.x scrollOffset
               - Goog.width paddingContainerSize
      then Goog.width windowSize + Goog.x scrollOffset
           - Goog.width paddingContainerSize
      else x in
  {| Goog.x := x1; Goog.y := y1 |}.

(** [showEditor_()]: the old tooltips are disposed, the rows are built, the
    width is cut to the window, one tooltip per menu item is made when
    tooltips are enabled, and the menu is placed.  The result holds the
    rows and the coordinates; [paddingContainerSize] is the size measured
    after the menu was added (and after the row limit was applied). *)
Definition showEditor_ (rtl : bool) (xy : Goog.Coordinate)
  (paddingContainerSize borderBBox windowSize : Goog.Size)
  (scrollOffset : Goog.Coordinate) (w : World)
  : option (World * list (list MenuItem) * Goog.Coordinate) :=
  let w1 := disposeTooltips w in
  let f := picker w1 in
  let options := menuGenerator_ f in
  let rows := rowsLoop f options 0 (length options) in
  let f1 :=
    if width_ f >? Goog.width windowSize
    then with_width (Goog.width windowSize) f else f in
  match tooltipsLoop f1 options 0 (concat rows) (tooltips_ f1) with
  | Some ts =>
      Some ({| picker := with_tooltips ts f1; disposed := disposed w1 |},
            rows,
            showEditor_xy rtl xy paddingContainerSize borderBBox windowSize
              scrollOffset)
  | None => None
  end.

(** The search for the selected item, which runs when the rows are limited:
    the inner loop over the columns [col], [col + 1], ... of one row, with
    [n] columns to go.  An item that is not there ([getChildAt] gives
    [null]) makes [getValue] raise. *)
Fixpoint findInRow (f : t) (row : list MenuItem) (col n : nat)
  : option (option nat) :=
  match n with
  | O => Some None
  | S n' =>
      match row !! col with
      | Some item =>
          if String.eqb (value_ f) (itemValue item) then Some (Some col)
          else findInRow f row (S col) n'
      | None => None
      end
  end.

(** The outer loop, at row [row]: the row and the column of the first item
    whose value is that of the field, [Some None] when no item has it. *)
Fixpoint findSelected (f : t) (rows : list (list MenuItem)) (row : nat)
  : option (option (nat * nat)) :=
  match rows with
  | [] => Some None
  | r :: rest =>
      match findInRow f r 0 (Z.to_nat (columns_ f)) with
      | None => None
      | Some (Some col) => Some (Some (row, col))
      | Some None => findSelected f rest (S row)
      end
  end.

(** [rowSize.height * (this.maxRows_ + 0.3)], as JavaScript computes it:
    in binary64, where the sum and the product are rounded. *)
Definition maxHeight (f : t) (rowHeight : Z) : Float64.float64 :=
  Float64.mul (Float64.ofZ rowHeight)
    (Float64.add (Float64.ofZ (maxRows_ f)) Float64.three_tenths).

(** [scrollContainerSize.height > maxHeight] *)
Definition tooHigh (f : t) (scrollHeight rowHeight : Z) : bool :=
  Float64.ltb (maxHeight f rowHeight) (Float64.ofZ scrollHeight).

(** The row limit of [showEditor_]: whether the height of the scroll
    container is limited, and the item that is scrolled into view.
    [scrollHeight] is the height of the content of the scroll container,
    [rowHeight] the height of the first row, both in whole pixels;
    measuring a first row that is not there raises. *)
Definition showEditor_rowLimit (f : t) (rows : list (list MenuItem))
  (scrollHeight rowHeight : Z) : option (bool * option (nat * nat)) :=
  if 0 <? maxRows_ f then
    match rows with
    | [] => None
    | _ :: _ =>
        if tooHigh f scrollHeight rowHeight then
          match findSelected f rows 0 with
          | Some sel => Some (true, sel)
          | None => None
          end
        else Some (false, None)
    end
  else Some (false, None).

End WithHost.

End FieldGridPicker.

(** ** The flyout button: [Blockly.FlyoutButton] *)

Module FlyoutButton.

Import JS.

(** The XML element of the button: its attributes. *)
Definition Element : Type := gmap string string.

Definition getAttribute (xml : Element) (k : string) : option string := xml !! k.

Section WithWorkspace.

(** The host's callbacks are opaque; the target workspace is known by the
    callbacks registered on it ([getButtonCallback], which gets [null] when
    no key is configured) and by whether a gesture is in progress for a
    mouse event ([getGesture]). *)
Variable Callback : Type.
Variable MouseEvent : Type.

Record Workspace : Type := {
  getButtonCallback : option string -> option Callback;
  getGesture : MouseEvent -> bool;
  RTL : bool
}.

Record t : Type := {
  workspace_ : option Workspace;
  targetWorkspace_ : option Workspace;
  text_ : option string;
  isLabel_ : bool;
  callback_ : option Callback;
  cssClass_ : option string;
  icon_ : option string;
  iconClass_ : option string;
  iconColor_ : option string;
  line_ : option string;
  lineWidth_ : option string
}.

(** [s || null] *)
Definition orNull (o : option string) : option string :=
  if truthy o then o else None.

(** A string concatenated with a possibly null text. *)
Definition warnText (prefix : string) (text : option string) : string :=
  (prefix ++ default "null" text)%string.

(** The constructor, with the lines it writes with [console.warn]. *)
Definition new (workspace targetWorkspace : Workspace) (xml : Element)
  (isLabel : bool) : t * list string :=
  let text := getAttribute xml "text" in
  let callbackKey := getAttribute xml "callbackkey" in
  let '(callback, warnings) :=
    if isLabel && truthy callbackKey then
      (None, [warnText "Labels should not have callbacks. Label text: " text])
    else if negb isLabel
            && negb (truthy callbackKey
                     && bool_decide (is_Some (getButtonCallback targetWorkspace callbackKey)))
    then
      (None, [warnText "Buttons should have callbacks. Button text: " text])
    else (getButtonCallback targetWorkspace callbackKey, []) in
  ({| workspace_ := Some workspace;
      targetWorkspace_ := Some targetWorkspace;
      text_ := text;
      isLabel_ := isLabel;
      callback_ := callback;
      cssClass_ := orNull (getAttribute xml "web-class");
      icon_ := orNull (getAttribute xml "web-icon");
      iconClass_ := orNull (getAttribute xml "web-icon-class");
      iconColor_ := orNull (getAttribute xml "web-icon-color");
      line_ := orNull (getAttribute xml "web-line");
      lineWidth_ := orNull (getAttribute xml "web-line-width") |},
   warnings).

(** What a mouse-up does to the outside. *)
Inductive effect : Type :=
  | GestureCancelled
  | CallbackCalled (c : Callback) (button : t).

(** [onMouseUp_(e)]; without a target workspace (after [dispose]) reading
    the gesture raises. *)
Definition onMouseUp_ (e : MouseEvent) (b : t) : option (list effect) :=
  match targetWorkspace_ b with
  | Some ws =>
      Some ((if getGesture ws e then [GestureCancelled] else [])
            ++ match callback_ b with
               | Some c => [CallbackCalled c b]
               | None => []
               end)
  | None => None
  end.

End WithWorkspace.

(** *** The SVG elements of the button

    [Blockly.Field.getCachedWidth], which measures a text element, and the
    two constants of the text offset on Edge and Internet Explorer are not
    of this file: they are parameters.  An event binding is known by a
    number; the page holds the bindings in force and the nodes removed from
    the document. *)

Section WithDom.

Variable Callback : Type.
Variable MouseEvent : Type.

(** The width of a text element of a given class and content. *)
Variable getCachedWidth : string -> option string -> Z.
Variable EDGE_OR_IE : bool.
Variable IE_TEXT_OFFSET : string.

(** [Blockly.FlyoutButton.MARGIN] *)
Definition MARGIN : Z := 40.

(** The icon of a label: its class, text, style and attributes. *)
Record Icon : Type := {
  icon_class : string;
  icon_textContent : option string;
  icon_style : option string;
  icon_text_anchor : string;
  icon_dominant_baseline : string;
  icon_dy : string;
  icon_x : Z;
  icon_y : Q
}.

(** The line under a button; [x2] is the attribute [web-line-width] as it
    is written, or the width of the button. *)
Record Line : Type := {
  line_stroke_dasharray : string;
  line_x1 : Z;
  line_x2 : string + Z;
  line_y1 : Z;
  line_y2 : Z
}.

(** The group that [createDom] builds, with the attributes that [show] and
    [moveTo] set on it. *)
Record SvgGroup : Type := {
  svg_class : string;
  svg_shadow : option Goog.Size;
  svg_rect_class : string;
  svg_rect : Goog.Size;
  svg_text_class : string;
  svg_textContent : option string;
  svg_text_dy : string;
  svg_text_x : Q;
  svg_text_y : Q;
  svg_icon : option Icon;
  svg_line : option Line;
  svg_transform : option Goog.Coordinate;
  svg_display : option string
}.

(** The button with the fields that the prototype and [createDom] give it:
    [width] is 0 and [height] 40 on the prototype, [onMouseUpWrapper_] is
    [null] there; [mouseUpWrapper_] is the field that [createDom] sets. *)
Record Dom : Type := {
  button : t Callback MouseEvent;
  position_ : Goog.Coordinate;
  width : Z;
  height : Z;
  svgGroup_ : option SvgGroup;
  onMouseUpWrapper_ : option nat;
  mouseUpWrapper_ : option nat
}.

(** The button and, of the page, the event bindings in force, the number
    of the next binding and the groups removed from the document. *)
Record Page : Type := {
  dom : Dom;
  bound : list nat;
  nextBinding : nat;
  removed : list SvgGroup
}.

(** A button as the constructor and the prototype leave it. *)
Definition newDom (b : t Callback MouseEvent) : Dom :=
  {| button := b; position_ := {| Goog.x := 0; Goog.y := 0 |};
     width := 0; height := 40; svgGroup_ := None;
     onMouseUpWrapper_ := None; mouseUpWrapper_ := None |}.

Definition with_svgGroup_ (g : option SvgGroup) (d : Dom) : Dom :=
  {| button := button d; position_ := position_ d; width := width d;
     height := height d; svgGroup_ := g;
     onMouseUpWrapper_ := onMouseUpWrapper_ d;
     mouseUpWrapper_ := mouseUpWrapper_ d |}.

(** [createDom()]; without a workspace (after [dispose]) reading its canvas
    raises, and so does reading the direction of the target workspace for
    the icon. *)
Definition createDom (p : Page) : option Page :=
  let d := dom p in
  let b := button d in
  match workspace_ _ _ b with
  | None => None
  | Some _ =>
      let cssClass :=
        if isLabel_ _ _ b then "blocklyFlyoutLabel" else "blocklyFlyoutButton" in
      let cssClass :=
        if truthy (cssClass_ _ _ b)
        then (cssClass ++ " " ++ default "" (cssClass_ _ _ b))%string
        else cssClass in
      let textClass :=
        if isLabel_ _ _ b then "blocklyFlyoutLabelText" else "blocklyText" in
      let width0 := getCachedWidth textClass (text_ _ _ b) in
      let dy := if EDGE_OR_IE then IE_TEXT_OFFSET else "0" in
      let iconPart : option (option Icon * Z) :=
        if truthy (icon_ _ _ b) || truthy (iconClass_ _ _ b) then
          let iconClass :=
            if truthy (iconClass_ _ _ b)
            then ("blocklyFlyoutLabelIcon " ++ default "" (iconClass_ _ _ b))%string
            else "blocklyFlyoutLabelIcon" in
          let content :=
            if truthy (icon_ _ _ b) then icon_ _ _ b else None in
          let style :=
            if truthy (iconColor_ _ _ b)
            then Some ("fill: " ++ default "" (iconColor_ _ _ b))%string
            else None in
          let width1 := width0 + (getCachedWidth iconClass content + 2 * MARGIN) in
          match targetWorkspace_ _ _ b with
          | None => None
          | Some ws =>
              Some (Some {| icon_class := iconClass;
                            icon_textContent := content;
                            icon_style := style;
                            icon_text_anchor := "end";
                            icon_dominant_baseline := "central";
                            icon_dy := dy;
                            icon_x := if RTL _ _ ws then width1 else MARGIN;
                            icon_y := (inject_Z (height d) / 2)%Q |},
                    width1)
          end
        else Some (None, width0) in
      match iconPart with
      | None => None
      | Some (icon, width1) =>
          let line :=
            if truthy (line_ _ _ b) then
              Some {| line_stroke_dasharray := default "" (line_ _ _ b);
                      line_x1 := 0;
                      line_x2 := match lineWidth_ _ _ b with
                                 | Some lw => inl lw
                                 | None => inr width1
                                 end;
                      line_y1 := height d;
                      line_y2 := height d |}
            else None in
          let width2 :=
            if negb (isLabel_ _ _ b) then width1 + 2 * MARGIN else width1 in
          let size := {| Goog.width := width2; Goog.height := height d |} in
          let group :=
            {| svg_class := cssClass;
               svg_shadow := if negb (isLabel_ _ _ b) then Some size else None;
               svg_rect_class :=
                 if isLabel_ _ _ b then "blocklyFlyoutLabelBackground"
                 else "blocklyFlyoutButtonBackground";
               svg_rect := size;
               svg_text_class := textClass;
               svg_textContent := text_ _ _ b;
               svg_text_dy := dy;
               svg_text_x := (inject_Z width2 / 2)%Q;
               svg_text_y := (inject_Z (height d) / 2)%Q;
               svg_icon := icon;
               svg_line := line;
               svg_transform := None;
               svg_display := None |} in
          Some {| dom := {| button := b; position_ := position_ d;
                            width := width2; height := height d;
                            svgGroup_ := Some group;
                            onMouseUpWrapper_ := onMouseUpWrapper_ d;
                            mouseUpWrapper_ := Some (nextBinding p) |};
                  bound := bound p ++ [nextBinding p];
                  nextBinding := S (nextBinding p);
                  removed := removed p |}
      end
  end.

(** [updateTransform_()]; without a group it raises. *)
Definition updateTransform_ (d : Dom) : option Dom :=
  match svgGroup_ d with
  | Some g =>
      Some (with_svgGroup_
              (Some {| svg_class := svg_class g; svg_shadow := svg_shadow g;
                       svg_rect_class := svg_rect_class g;
                       svg_rect := svg_rect g;
                       svg_text_class := svg_text_class g;
                       svg_textContent := svg_textContent g;
                       svg_text_dy := svg_text_dy g;
                       svg_text_x := svg_text_x g;
                       svg_text_y := svg_text_y g;
                       svg_icon := svg_icon g; svg_line := svg_line g;
                       svg_transform := Some (position_ d);
                       svg_display := svg_display g |}) d)
  | None => None
  end.

(** [show()] *)
Definition show (d : Dom) : option Dom :=
  match updateTransform_ d with
  | Some d1 =>
      match svgGroup_ d1 with
      | Some g =>
          Some (with_svgGroup_
                  (Some {| svg_class := svg_class g; svg_shadow := svg_shadow g;
                           svg_rect_class := svg_rect_class g;
                           svg_rect := svg_rect g;
                           svg_text_class := svg_text_class g;
                           svg_textContent := svg_textContent g;
                           svg_text_dy := svg_text_dy g;
                           svg_text_x := svg_text_x g;
                           svg_text_y := svg_text_y g;
                           svg_icon := svg_icon g; svg_line := svg_line g;
                           svg_transform := svg_transform g;
                           svg_display := Some "block"%string |}) d1)
      | None => None
      end
  | None => None
  end.

(** [moveTo(x, y)]: the position is set, then the transform. *)
Definition moveTo (x y : Z) (d : Dom) : option Dom :=
  updateTransform_
    {| button := button d; position_ := {| Goog.x := x; Goog.y := y |};
       width := width d; height := height d; svgGroup_ := svgGroup_ d;
       onMouseUpWrapper_ := onMouseUpWrapper_ d;
       mouseUpWrapper_ := mouseUpWrapper_ d |}.

(** [getPosition()] *)
Definition getPosition (d : Dom) : Goog.Coordinate := position_ d.

(** [getTargetWorkspace()] and [getText()] *)
Definition getTargetWorkspace (d : Dom)
  : option (Workspace Callback MouseEvent) :=
  targetWorkspace_ _ _ (button d).

Definition getText (d : Dom) : option string := text_ _ _ (button d).

(** [dispose()]: the binding held in [onMouseUpWrapper_] is undone, the
    group is removed from the document, the two workspaces are let go. *)
Definition dispose (p : Page) : Page :=
  let d := dom p in
  let b := button d in
  {| dom :=
       {| button :=
            {| workspace_ := None; targetWorkspace_ := None;
               text_ := text_ _ _ b; isLabel_ := isLabel_ _ _ b;
               callback_ := callback_ _ _ b; cssClass_ := cssClass_ _ _ b;
               icon_ := icon_ _ _ b; iconClass_ := iconClass_ _ _ b;
               iconColor_ := iconColor_ _ _ b; line_ := line_ _ _ b;
               lineWidth_ := lineWidth_ _ _ b |};
          position_ := position_ d; width := width d; height := height d;
          svgGroup_ := None;
          onMouseUpWrapper_ := onMouseUpWrapper_ d;
          mouseUpWrapper_ := mouseUpWrapper_ d |};
     bound :=
       match onMouseUpWrapper_ d with
       | Some wr => List.filter (fun k => negb (k =? wr)%nat) (bound p)
       | None => bound p
       end;
     nextBinding := nextBinding p;
     removed :=
       match svgGroup_ d with
       | Some g => removed p ++ [g]
       | None => removed p
       end |}.

(** What is done to a button between its construction and its disposal. *)
Inductive domAction : Type :=
  | CreateDom
  | Show
  | MoveTo (x y : Z).

Definition domStep (a : domAction) (p : Page) : option Page :=
  match a with
  | CreateDom => createDom p
  | Show =>
      match show (dom p) with
      | Some d => Some {| dom := d; bound := bound p;
                          nextBinding := nextBinding p; removed := removed p |}
      | None => None
      end
  | MoveTo x y =>
      match moveTo x y (dom p) with
      | Some d => Some {| dom := d; bound := bound p;
                          nextBinding := nextBinding p; removed := removed p |}
      | None => None
      end
  end.

Fixpoint domRun (l : list domAction) (p : Page) : option Page :=
  match l with
  | [] => Some p
  | a :: r =>
      match domStep a p with
      | Some p' => domRun r p'
      | None => None
      end
  end.

(** The page of a button that was just constructed. *)
Definition newPage (b : t Callback MouseEvent) : Page :=
  {| dom := newDom b; bound := []; nextBinding := 0; removed := [] |}.

End WithDom.

End FlyoutButton.

(** ** The toolbox of categories ([pxtblocky.PXTToolbox]) *)

Module PXTToolbox.

Import JS.

Section WithUtils.

(** [Blockly.PXTUtils.fadeColour] is not of this file: it is a parameter,
    and so are the kinds of the two option values that the file only hands
    on, the multiplier of the fading and the opacity of a disabled
    category. *)
Context {Multiplier : Type} {Opacity : Type}.
Variable fadeColour : string -> Multiplier -> bool -> string.

(** [workspace.options], as far as [addColour_] reads them. *)
Record Options : Type := {
  invertedToolbox : bool;
  invertedMultiplier : Multiplier;
  colouredToolbox : bool;
  disabledOpacity : Opacity
}.

(** The inline style of a row, as far as the file writes it: for each
    property the value that was assigned last, if any was. *)
Record Style : Type := {
  color : option string;
  background : option string;
  borderLeft : option string;
  borderRight : option string;
  opacity : option Opacity
}.

(** The two closures that [addColour_] binds on a row; the one for the
    mouse that enters holds the multiplier it was made with. *)
Inductive Listener : Type :=
  | OnMouseEnter (invertedMultiplier : Multiplier)
  | OnMouseLeave.

(** The row element of a category, with the listeners bound on it in the
    order of their binding. *)
Record RowElement : Type := {
  style : Style;
  listeners : list Listener
}.

(** A node of the tree of categories: its row element (none while it is
    not rendered), its colour, whether it is disabled or selected, and its
    children. *)
#[warnings="-register-all"]
Inductive TreeNode : Type :=
  | mkTreeNode (rowElement : option RowElement) (hexColour : option string)
               (disabled isSelected : bool) (children : list TreeNode).

Definition getRowElement (n : TreeNode) : option RowElement :=
  match n with mkTreeNode el _ _ _ _ => el end.

Definition hexColour (n : TreeNode) : option string :=
  match n with mkTreeNode _ h _ _ _ => h end.

Definition disabled (n : TreeNode) : bool :=
  match n with mkTreeNode _ _ d _ _ => d end.

Definition isSelected (n : TreeNode) : bool :=
  match n with mkTreeNode _ _ _ s _ => s end.

Definition getChildren (n : TreeNode) : list TreeNode :=
  match n with mkTreeNode _ _ _ _ c => c end.

(** The toolbox, as far as [addColour_] reads it. *)
Record t : Type := {
  options : Options;
  RTL : bool;
  hasColours_ : bool;
  tree_ : TreeNode
}.

Definition with_background (v : string) (el : RowElement) : RowElement :=
  {| style := {| color := color (style el); background := Some v;
                 borderLeft := borderLeft (style el);
                 borderRight := borderRight (style el);
                 opacity := opacity (style el) |};
     listeners := listeners el |}.

Definition with_color (v : string) (el : RowElement) : RowElement :=
  {| style := {| color := Some v; background := background (style el);
                 borderLeft := borderLeft (style el);
                 borderRight := borderRight (style el);
                 opacity := opacity (style el) |};
     listeners := listeners el |}.

Definition with_borderLeft (v : string) (el : RowElement) : RowElement :=
  {| style := {| color := color (style el); background := background (style el);
                 borderLeft := Some v;
                 borderRight := borderRight (style el);
                 opacity := opacity (style el) |};
     listeners := listeners el |}.

Definition with_borderRight (v : string) (el : RowElement) : RowElement :=
  {| style := {| color := color (style el); background := background (style el);
                 borderLeft := borderLeft (style el);
                 borderRight := Some v;
                 opacity := opacity (style el) |};
     listeners := listeners el |}.

Definition with_opacity (v : Opacity) (el : RowElement) : RowElement :=
  {| style := {| color := color (style el); background := background (style el);
                 borderLeft := borderLeft (style el);
                 borderRight := borderRight (style el);
                 opacity := Some v |};
     listeners := listeners el |}.

Definition bindEvent_ (l : Listener) (el : RowElement) : RowElement :=
  {| style := style el; listeners := listeners el ++ [l] |}.

(** The body of the loop of [addColour_] on the row element of a child,
    before the call on the child itself. *)
Definition styleRow (tb : t) (child : TreeNode) (element : RowElement)
  : RowElement :=
  let pxtOptions := options tb in
  let element :=
    if invertedToolbox pxtOptions then
      if hasColours_ tb then
        let element := with_color "#fff" element in
        let element := with_background (strOr (hexColour child) "#ddd") element in
        if negb (disabled child) then
          bindEvent_ OnMouseLeave
            (bindEvent_ (OnMouseEnter (invertedMultiplier pxtOptions)) element)
        else element
      else element
    else
      let border :=
        if hasColours_ tb
        then ("8px solid " ++ strOr (hexColour child) "#ddd")%string
        else "none"%string in
      let element :=
        if RTL tb then with_borderRight border element
        else with_borderLeft border element in
      if colouredToolbox pxtOptions && hasColours_ tb
      then with_color (strOr (hexColour child) "#000") element
      else element in
  if disabled child then with_opacity (disabledOpacity pxtOptions) element
  else element.

Definition withRowElement (el : option RowElement) (n : TreeNode) : TreeNode :=
  match n with
  | mkTreeNode _ h d s children => mkTreeNode el h d s children
  end.

(** [addColour_(tree)]: every child of [tree] has its row styled and is
    gone through in its turn.  The call on the child writes on the rows
    below the child and not on the child's own, so that the two steps of
    the loop are independent; the row is styled here on the outcome of the
    call. *)
Fixpoint addColour_ (tb : t) (tree : TreeNode) : TreeNode :=
  match tree with
  | mkTreeNode el h d s children =>
      mkTreeNode el h d s
        (map (fun child =>
                let child' := addColour_ tb child in
                withRowElement
                  (option_map (styleRow tb child) (getRowElement child'))
                  child')
             children)
  end.

(** [addColour_()] without an argument starts at the root of the toolbox. *)
Definition addColour_root (tb : t) : t :=
  {| options := options tb; RTL := RTL tb; hasColours_ := hasColours_ tb;
     tree_ := addColour_ tb (tree_ tb) |}.

(** The mouse enters or leaves a row: the listeners bound on the row run in
    the order of their binding, with the category as [this]. *)
Inductive EventType : Type :=
  | mouseenter
  | mouseleave.

Definition listener (ev : EventType) (this : TreeNode) (l : Listener)
  (row : RowElement) : RowElement :=
  match ev, l with
  | mouseenter, OnMouseEnter invertedMultiplier =>
      if negb (isSelected this)
      then with_background
             (fadeColour (strOr (hexColour this) "#ddd") invertedMultiplier false)
             row
      else row
  | mouseleave, OnMouseLeave =>
      if negb (isSelected this)
      then with_background (strOr (hexColour this) "#ddd") row
      else row
  | _, _ => row
  end.

Definition dispatch (ev : EventType) (this : TreeNode) : TreeNode :=
  match this with
  | mkTreeNode (Some row) h d s children =>
      mkTreeNode
        (Some (fold_left (fun r l => listener ev this l r) (listeners row) row))
        h d s children
  | mkTreeNode None _ _ _ _ => this
  end.

(** The node that a path of child indices leads to. *)
Fixpoint subtree (path : list nat) (tree : TreeNode) : option TreeNode :=
  match path with
  | [] => Some tree
  | i :: path' =>
      match getChildren tree !! i with
      | Some child => subtree path' child
      | None => None
      end
  end.

End WithUtils.

End PXTToolbox.

(** * Properties *)

Import JS.

(** ** Placement of the overlays *)

Section Placement.

Variable CHECKMARK_OVERHANG : Z.

(** C1, counterexample.  An anchor at y = 500 of height 20 and a menu of
    height 200 in a window of height 600 do not fit below; the grid picker
    hands y = 298 to the widget div, two pixels above 500 - 200. *)
Lemma grid_flip_leaves_gap :
  ~ (500 + 20 + 200 < 600 + 0)
  /\ Goog.y (FieldGridPicker.showEditor_xy 25 false
               {| Goog.x := 100; Goog.y := 500 |}
               {| Goog.width := 300; Goog.height := 200 |}
               {| Goog.width := 80; Goog.height := 20 |}
               {| Goog.width := 1000; Goog.height := 600 |}
               {| Goog.x := 0; Goog.y := 0 |}) = 298
  /\ 298 <> 500 - 200.
Proof. split; [lia | split; [reflexivity | lia]]. Qed.

(** C1, as amended.  With anchor [A] (position [xy], size [borderBBox]),
    overlay height [S] and the viewport: when
    [A.y + A.height + S < viewport.height + scrollY] the grid picker opens
    below at [A.y + A.height], otherwise it is flipped to
    [A.y - S - 2]; the note picker, when not docked for a mobile, puts its
    keys at offset [0] in the first case and at [-(S + A.height)] otherwise,
    [S] being [keyHeight_ + div.scrollHeight + 5].  Either way one test
    decides, and the result is not examined again. *)
Theorem vertical_flip_rule :
  forall (rtl : bool) (xy scrollOffset widgetOffset : Goog.Coordinate)
         (overlay borderBBox windowSize : Goog.Size)
         (f : FieldNote.t) (divScrollHeight : Z),
    let fitsBelow S :=
      Goog.y xy + Goog.height borderBBox + S
      < Goog.height windowSize + Goog.y scrollOffset in
    let gridY :=
      Goog.y (FieldGridPicker.showEditor_xy CHECKMARK_OVERHANG rtl xy overlay
                borderBBox windowSize scrollOffset) in
    let pianoS := FieldNote.keyHeight_ f + divScrollHeight + 5 in
    let pianoTop :=
      fst (FieldNote.showEditor_position f false rtl xy borderBBox windowSize
             scrollOffset divScrollHeight widgetOffset) in
    (fitsBelow (Goog.height overlay) ->
       gridY = Goog.y xy + Goog.height borderBBox)
    /\ (~ fitsBelow (Goog.height overlay) ->
       gridY = Goog.y xy - Goog.height overlay - 2)
    /\ (fitsBelow pianoS -> pianoTop = 0)
    /\ (~ fitsBelow pianoS -> pianoTop = - (pianoS + Goog.height borderBBox)).
Proof.
  intros rtl xy so wo ov bb ws f dsh fitsBelow gridY pianoS pianoTop.
  subst fitsBelow gridY pianoS pianoTop.
  unfold FieldGridPicker.showEditor_xy, FieldNote.showEditor_position.
  cbn [Goog.y fst negb].
  repeat split; intros H.
  - destruct (Z.geb_spec (Goog.y xy + Goog.height ov + Goog.height bb)
                (Goog.height ws + Goog.y so)); lia.
  - destruct (Z.geb_spec (Goog.y xy + Goog.height ov + Goog.height bb)
                (Goog.height ws + Goog.y so)); lia.
  - destruct (Z.geb_spec
                (Goog.y xy + (FieldNote.keyHeight_ f + dsh + 5) + Goog.height bb)
                (Goog.height ws + Goog.y so)); lia.
  - destruct (Z.geb_spec
                (Goog.y xy + (FieldNote.keyHeight_ f + dsh + 5) + Goog.height bb)
                (Goog.height ws + Goog.y so)); lia.
Qed.

(** On a mobile the note picker is docked: the offsets do not depend on the
    position of the anchor. *)
Lemma mobile_position_is_docked :
  forall f rtl rtl' xy xy' borderBBox windowSize scrollOffset scrollOffset'
         divScrollHeight divScrollHeight' widgetOffset,
    FieldNote.showEditor_position f true rtl xy borderBBox windowSize
      scrollOffset divScrollHeight widgetOffset
    = FieldNote.showEditor_position f true rtl' xy' borderBBox windowSize
        scrollOffset' divScrollHeight' widgetOffset.
Proof. reflexivity. Qed.

(** C7, counterexample.  Left to right, an anchor at x = 900 and a piano of
    width 462 in a window of width 1000 overflow by 362; the left offset of
    the note picker becomes -392, thirty pixels more than the overflow. *)
Lemma note_clamp_adds_margin :
  (900 + 462) - (1000 + 0) = 362
  /\ snd (FieldNote.showEditor_position
            (FieldNote.with_piano 22 90 462 90 0 0
               (FieldNote.fresh "440" "A" "note" None))
            false false
            {| Goog.x := 900; Goog.y := 100 |}
            {| Goog.width := 60; Goog.height := 20 |}
            {| Goog.width := 1000; Goog.height := 800 |}
            {| Goog.x := 0; Goog.y := 0 |} 20
            {| Goog.x := 0; Goog.y := 0 |}) = - 392
  /\ - 392 <> - 362.
Proof. split; [lia | split; [reflexivity | lia]]. Qed.

(** C7, as amended.  The grid picker: left to right, [x] is the anchor's x
    less the overhang of the check mark, and when [x + width] exceeds
    [viewport.width + scrollX] it is moved left by exactly the overflow;
    right to left, [x] is the right edge (anchor's x plus its width plus the
    overhang), and when the mirrored left edge [x - width] falls left of
    [scrollX] it is moved right by the deficit.  The note picker: left to
    right, when [x + pianoWidth] exceeds [viewport.width + scrollX] the left
    offset is minus the overflow minus 30; right to left, when the mirrored
    [x' = x + anchor.width - pianoWidth] falls left of [scrollX] the left
    offset is the deficit [scrollX - x'], and [anchor.width - pianoWidth]
    otherwise.  In both pickers the horizontal result is the same whatever
    the vertical inputs are. *)
Theorem horizontal_clamp_rule :
  forall (xy scrollOffset widgetOffset : Goog.Coordinate)
         (overlay borderBBox windowSize : Goog.Size)
         (f : FieldNote.t) (divScrollHeight : Z),
    let right := Goog.width windowSize + Goog.x scrollOffset in
    let grid rtl :=
      Goog.x (FieldGridPicker.showEditor_xy CHECKMARK_OVERHANG rtl xy overlay
                borderBBox windowSize scrollOffset) in
    let piano rtl :=
      snd (FieldNote.showEditor_position f false rtl xy borderBBox windowSize
             scrollOffset divScrollHeight widgetOffset) in
    let x := Goog.x xy - CHECKMARK_OVERHANG in
    let xr := Goog.x xy + Goog.width borderBBox + CHECKMARK_OVERHANG in
    let w := Goog.width overlay in
    let pw := FieldNote.pianoWidth_ f in
    let xm := Goog.x xy + Goog.width borderBBox - pw in
    (* grid picker, left to right *)
    (x + w > right -> grid false = x - (x + w - right))
    /\ (x + w <= right -> grid false = x)
    (* grid picker, right to left *)
    /\ (xr - w < Goog.x scrollOffset ->
        grid true = xr + (Goog.x scrollOffset - (xr - w)))
    /\ (Goog.x scrollOffset <= xr - w -> grid true = xr)
    (* note picker, left to right *)
    /\ (Goog.x xy + pw > right ->
        piano false = - (Goog.x xy + pw - right) - 30)
    /\ (Goog.x xy + pw <= right -> piano false = 0)
    (* note picker, right to left *)
    /\ (xm < Goog.x scrollOffset -> piano true = Goog.x scrollOffset - xm)
    /\ (Goog.x scrollOffset <= xm -> piano true = Goog.width borderBBox - pw)
    (* the vertical inputs play no part *)
    /\ (forall rtl y' h' bh' wh' sy' dsh',
          Goog.x (FieldGridPicker.showEditor_xy CHECKMARK_OVERHANG rtl
                    {| Goog.x := Goog.x xy; Goog.y := y' |}
                    {| Goog.width := w; Goog.height := h' |}
                    {| Goog.width := Goog.width borderBBox; Goog.height := bh' |}
                    {| Goog.width := Goog.width windowSize; Goog.height := wh' |}
                    {| Goog.x := Goog.x scrollOffset; Goog.y := sy' |})
          = grid rtl
          /\ snd (FieldNote.showEditor_position f false rtl
                    {| Goog.x := Goog.x xy; Goog.y := y' |}
                    {| Goog.width := Goog.width borderBBox; Goog.height := bh' |}
                    {| Goog.width := Goog.width windowSize; Goog.height := wh' |}
                    {| Goog.x := Goog.x scrollOffset; Goog.y := sy' |}
                    dsh' widgetOffset)
             = piano rtl).
Proof.
  intros xy so wo ov bb ws f dsh right grid piano x xr w pw xm.
  subst right grid piano x xr w pw xm.
  unfold FieldGridPicker.showEditor_xy, FieldNote.showEditor_position.
  cbn [Goog.x Goog.y Goog.width Goog.height snd negb].
  repeat match goal with |- _ /\ _ => split end.
  - intros H.
    destruct (Z.gtb_spec (Goog.x xy - CHECKMARK_OVERHANG)
                (Goog.width ws + Goog.x so - Goog.width ov)); lia.
  - intros H.
    destruct (Z.gtb_spec (Goog.x xy - CHECKMARK_OVERHANG)
                (Goog.width ws + Goog.x so - Goog.width ov)); lia.
  - intros H.
    destruct (Z.ltb_spec (Goog.x xy + Goog.width bb + CHECKMARK_OVERHANG)
                (Goog.x so + Goog.width ov)); lia.
  - intros H.
    destruct (Z.ltb_spec (Goog.x xy + Goog.width bb + CHECKMARK_OVERHANG)
                (Goog.x so + Goog.width ov)); lia.
  - intros H.
    destruct (Z.gtb_spec (Goog.x xy)
                (Goog.width ws + Goog.x so - FieldNote.pianoWidth_ f)); lia.
  - intros H.
    destruct (Z.gtb_spec (Goog.x xy)
                (Goog.width ws + Goog.x so - FieldNote.pianoWidth_ f)); lia.
  - intros H.
    destruct (Z.ltb_spec (Goog.x xy + Goog.width bb - FieldNote.pianoWidth_ f)
                (Goog.x so)); lia.
  - intros H.
    destruct (Z.ltb_spec (Goog.x xy + Goog.width bb - FieldNote.pianoWidth_ f)
                (Goog.x so)); lia.
  - intros rtl y' h' bh' wh' sy' dsh'. split; reflexivity.
Qed.

End Placement.

(** C1, witness: in a window 600 high, an anchor of height 20 at y = 100
    has a menu of height 200 below it, one at y = 500 has it above. *)
Lemma vertical_flip_rule_witness :
  Goog.y (FieldGridPicker.showEditor_xy 25 false
            {| Goog.x := 100; Goog.y := 100 |}
            {| Goog.width := 300; Goog.height := 200 |}
            {| Goog.width := 80; Goog.height := 20 |}
            {| Goog.width := 1000; Goog.height := 600 |}
            {| Goog.x := 0; Goog.y := 0 |}) = 100 + 20
  /\ Goog.y (FieldGridPicker.showEditor_xy 25 false
               {| Goog.x := 100; Goog.y := 500 |}
               {| Goog.width := 300; Goog.height := 200 |}
               {| Goog.width := 80; Goog.height := 20 |}
               {| Goog.width := 1000; Goog.height := 600 |}
               {| Goog.x := 0; Goog.y := 0 |}) = 500 - 200 - 2.
Proof.
  split.
  - refine (proj1 (vertical_flip_rule 25 false
                     {| Goog.x := 100; Goog.y := 100 |}
                     {| Goog.x := 0; Goog.y := 0 |}
                     {| Goog.x := 0; Goog.y := 0 |}
                     {| Goog.width := 300; Goog.height := 200 |}
                     {| Goog.width := 80; Goog.height := 20 |}
                     {| Goog.width := 1000; Goog.height := 600 |}
                     (FieldNote.fresh "440" "A" "note" None) 20) _).
    cbn. lia.
  - refine (proj1 (proj2 (vertical_flip_rule 25 false
                     {| Goog.x := 100; Goog.y := 500 |}
                     {| Goog.x := 0; Goog.y := 0 |}
                     {| Goog.x := 0; Goog.y := 0 |}
                     {| Goog.width := 300; Goog.height := 200 |}
                     {| Goog.width := 80; Goog.height := 20 |}
                     {| Goog.width := 1000; Goog.height := 600 |}
                     (FieldNote.fresh "440" "A" "note" None) 20)) _).
    cbn. lia.
Defined.

(** C7, witness: in a window 1000 wide, a grid menu of width 300 anchored at
    x = 900 overflows by 175 and is moved left by as much; the piano of
    width 462 anchored there gets the offset -(362 + 30). *)
Lemma horizontal_clamp_rule_witness :
  Goog.x (FieldGridPicker.showEditor_xy 25 false
            {| Goog.x := 900; Goog.y := 100 |}
            {| Goog.width := 300; Goog.height := 200 |}
            {| Goog.width := 80; Goog.height := 20 |}
            {| Goog.width := 1000; Goog.height := 600 |}
            {| Goog.x := 0; Goog.y := 0 |})
  = (900 - 25) - ((900 - 25) + 300 - (1000 + 0))
  /\ snd (FieldNote.showEditor_position
            (FieldNote.with_piano 22 90 462 90 0 0
               (FieldNote.fresh "440" "A" "note" None))
            false false
            {| Goog.x := 900; Goog.y := 100 |}
            {| Goog.width := 80; Goog.height := 20 |}
            {| Goog.width := 1000; Goog.height := 600 |}
            {| Goog.x := 0; Goog.y := 0 |} 20
            {| Goog.x := 0; Goog.y := 0 |})
     = - (900 + 462 - (1000 + 0)) - 30.
Proof.
  pose proof (horizontal_clamp_rule 25
                {| Goog.x := 900; Goog.y := 100 |}
                {| Goog.x := 0; Goog.y := 0 |}
                {| Goog.x := 0; Goog.y := 0 |}
                {| Goog.width := 300; Goog.height := 200 |}
                {| Goog.width := 80; Goog.height := 20 |}
                {| Goog.width := 1000; Goog.height := 600 |}
                (FieldNote.with_piano 22 90 462 90 0 0
                   (FieldNote.fresh "440" "A" "note" None)) 20) as H.
  cbv zeta in H. destruct H as (Hg & _ & _ & _ & Hp & _).
  split.
  - apply Hg. cbn. lia.
  - apply Hp. cbn. lia.
Defined.

(** ** Pagination of the note picker *)

Section Pagination.

Local Open Scope nat_scope.

Import FieldNote.

Lemma setOctaveVisible_Some (b : bool) (first n : nat) :
  forall (i : nat) (piano : list bool),
    i + first + n <= length piano ->
    exists piano',
      setOctaveVisible b first i n piano = Some piano'
      /\ length piano' = length piano
      /\ forall j, piano' !! j
                   = if bool_decide (i + first <= j < i + first + n)
                     then Some b else piano !! j.
Proof.
  induction n as [|n IH]; intros i piano Hlen.
  - exists piano. repeat split. intros j.
    rewrite bool_decide_eq_false_2 by lia. reflexivity.
  - cbn [setOctaveVisible].
    destruct (lookup_lt_is_Some_2 piano (i + first)) as [x Hx]; [lia|].
    rewrite Hx.
    destruct (IH (S i) (<[i + first := b]> piano)) as (piano' & Hrun & Hl & Hlook).
    { rewrite length_insert. lia. }
    exists piano'. split; [exact Hrun|]. split.
    { rewrite Hl. apply length_insert. }
    intros j. rewrite Hlook.
    destruct (decide (j = i + first)) as [->|Hne].
    + rewrite bool_decide_eq_false_2 by lia.
      rewrite list_lookup_insert_eq by lia.
      rewrite bool_decide_eq_true_2 by lia. reflexivity.
    + rewrite list_lookup_insert_ne by lia.
      destruct (decide (S i + first <= j < S i + first + n)).
      * rewrite !bool_decide_eq_true_2 by lia. reflexivity.
      * rewrite !bool_decide_eq_false_2 by lia. reflexivity.
Qed.

Lemma octaveMask_lookup (nKeys page j : nat) :
  octaveMask nKeys page !! j
  = if bool_decide (j < nKeys) then Some (j / 12 =? page) else None.
Proof.
  unfold octaveMask. rewrite list_lookup_fmap.
  destruct (decide (j < nKeys)).
  - rewrite bool_decide_eq_true_2 by assumption.
    rewrite lookup_seq_lt by assumption. reflexivity.
  - rewrite bool_decide_eq_false_2 by assumption.
    rewrite lookup_seq_ge by lia. reflexivity.
Qed.

Lemma octaveMask_length (nKeys page : nat) :
  length (octaveMask nKeys page) = nKeys.
Proof. unfold octaveMask. rewrite length_map, length_seq. reflexivity. Qed.

(** Moving from octave [c] to octave [c'] of a piano of [12 * N] keys: hide
    the twelve keys of [c], show those of [c']. *)
Lemma turn_page (N c c' : nat) :
  c < N -> c' < N ->
  exists v1,
    setOctaveVisible false (c * 12) 0 12 (octaveMask (12 * N) c) = Some v1
    /\ setOctaveVisible true (c' * 12) 0 12 v1 = Some (octaveMask (12 * N) c').
Proof.
  intros Hc Hc'.
  destruct (setOctaveVisible_Some false (c * 12) 12 0 (octaveMask (12 * N) c))
    as (v1 & H1 & Hl1 & Hk1).
  { rewrite octaveMask_length. lia. }
  destruct (setOctaveVisible_Some true (c' * 12) 12 0 v1)
    as (v2 & H2 & Hl2 & Hk2).
  { rewrite Hl1, octaveMask_length. lia. }
  exists v1. split; [exact H1|]. rewrite H2. f_equal.
  apply list_eq. intros j.
  rewrite Hk2, Hk1, !octaveMask_lookup.
  destruct (decide (0 + c' * 12 <= j < 0 + c' * 12 + 12)) as [Hin'|Hout'].
  - rewrite bool_decide_eq_true_2 by assumption.
    rewrite bool_decide_eq_true_2 by lia.
    f_equal. symmetry. apply Nat.eqb_eq.
    symmetry. apply (Nat.div_unique j 12 c' (j - c' * 12)); lia.
  - rewrite bool_decide_eq_false_2 by assumption.
    destruct (decide (0 + c * 12 <= j < 0 + c * 12 + 12)) as [Hin|Hout].
    + rewrite bool_decide_eq_true_2 by assumption.
      rewrite bool_decide_eq_true_2 by lia.
      f_equal. symmetry. apply Nat.eqb_neq.
      intros E. pose proof (Nat.div_mod_eq j 12) as D.
      pose proof (Nat.mod_upper_bound j 12). lia.
    + rewrite bool_decide_eq_false_2 by assumption.
      destruct (decide (j < 12 * N)).
      * rewrite bool_decide_eq_true_2 by assumption. f_equal.
        pose proof (Nat.div_mod_eq j 12) as D.
        pose proof (Nat.mod_upper_bound j 12).
        destruct (Nat.eqb_spec (j / 12) c); [lia|].
        destruct (Nat.eqb_spec (j / 12) c'); [lia|]. reflexivity.
      * rewrite bool_decide_eq_false_2 by assumption. reflexivity.
Qed.

Lemma showEditor_pager_inv (f : FieldNote.t) (N : nat) :
  0 < N -> nKeys_ f = 12 * N -> pagerInv N (showEditor_pager f).
Proof.
  intros HN Hn. unfold pagerInv, showEditor_pager.
  cbn [Npages currentPage visible]. rewrite Hn. split; [|split].
  - replace (12 * N) with (N * 12) by lia. apply Nat.div_mul. lia.
  - exact HN.
  - unfold octaveMask. apply map_ext. intros i.
    pose proof (Nat.div_mod_eq i 12) as D.
    pose proof (Nat.mod_upper_bound i 12) as U.
    destruct (Nat.ltb_spec 11 i); destruct (Nat.eqb_spec (i / 12) 0);
      cbn [negb]; try reflexivity; exfalso; lia.
Qed.

Lemma prevButton_spec (N : nat) (p : Pager) :
  pagerInv N p ->
  prevButton_MOUSEDOWN p
  = Some {| currentPage := currentPage p - 1; Npages := N;
            visible := octaveMask (12 * N) (currentPage p - 1);
            labelText := octaveLabel (currentPage p - 1) |}.
Proof.
  intros (HN & Hc & Hv). unfold prevButton_MOUSEDOWN.
  destruct (Nat.eqb_spec (currentPage p) 0) as [E|E].
  - rewrite HN, Hv, E. reflexivity.
  - destruct (turn_page N (currentPage p) (currentPage p - 1)) as (v1 & H1 & H2);
      [lia | lia |].
    rewrite Hv, H1.
    replace (currentPage p * 12 - 12) with ((currentPage p - 1) * 12) by lia.
    rewrite H2, HN. reflexivity.
Qed.

Lemma nextButton_spec (N : nat) (p : Pager) :
  pagerInv N p ->
  let c' := if bool_decide (currentPage p = N - 1) then currentPage p
            else currentPage p + 1 in
  nextButton_MOUSEDOWN p
  = Some {| currentPage := c'; Npages := N;
            visible := octaveMask (12 * N) c';
            labelText := octaveLabel c' |}.
Proof.
  intros (HN & Hc & Hv) c'. subst c'. unfold nextButton_MOUSEDOWN.
  rewrite HN.
  destruct (Z.eqb_spec (Z.of_nat (currentPage p)) (Z.of_nat N - 1)) as [E|E].
  - rewrite bool_decide_eq_true_2 by lia. rewrite Hv. reflexivity.
  - rewrite bool_decide_eq_false_2 by lia.
    destruct (turn_page N (currentPage p) (currentPage p + 1)) as (v1 & H1 & H2);
      [lia | lia |].
    rewrite Hv, H1.
    replace (currentPage p * 12 + 12) with ((currentPage p + 1) * 12) by lia.
    rewrite H2. reflexivity.
Qed.

Lemma pagerStep_inv (f : FieldNote.t) (N : nat) (a : pagerAction) (p : Pager) :
  pagerInv N p -> exists p', pagerStep f a p = Some p' /\ pagerInv N p'.
Proof.
  intros Hinv. destruct a as [| |i]; cbn [pagerStep].
  - rewrite (prevButton_spec N p Hinv). eexists. split; [reflexivity|].
    destruct Hinv as (HN & Hc & Hv). repeat split; cbn; lia.
  - rewrite (nextButton_spec N p Hinv). eexists. split; [reflexivity|].
    destruct Hinv as (HN & Hc & Hv). repeat split; cbn; try lia.
    case_bool_decide; lia.
  - eexists. split; [reflexivity|]. exact Hinv.
Qed.

Lemma pagerRun_inv (f : FieldNote.t) (N : nat) (l : list pagerAction) :
  forall p, pagerInv N p -> exists p', pagerRun f l p = Some p' /\ pagerInv N p'.
Proof.
  induction l as [|a l IH]; intros p Hinv; cbn [pagerRun].
  - exists p. split; [reflexivity | exact Hinv].
  - destruct (pagerStep_inv f N a p Hinv) as (p1 & H1 & Hinv1).
    rewrite H1. apply IH. exact Hinv1.
Qed.

(** [k] presses of the next button from page [c] lead to page
    [min (c + k) (N - 1)]. *)
Lemma next_repeated (f : FieldNote.t) (N k : nat) :
  forall p, pagerInv N p ->
    exists p', pagerRun f (repeat NextPage k) p = Some p'
               /\ pagerInv N p'
               /\ currentPage p' = Nat.min (currentPage p + k) (N - 1).
Proof.
  induction k as [|k IH]; intros p Hinv; cbn [repeat pagerRun pagerStep].
  - exists p. repeat split; try apply Hinv.
    destruct Hinv as (_ & Hc & _). lia.
  - pose proof (nextButton_spec N p Hinv) as Hn. cbv zeta in Hn. rewrite Hn.
    match goal with |- context [pagerRun f _ ?q] => destruct (IH q) as (p' & Hr & Hi & Hc') end.
    { destruct Hinv as (HN & Hc & Hv). repeat split; cbn; try lia.
      case_bool_decide; lia. }
    exists p'. split; [exact Hr|]. split; [exact Hi|].
    rewrite Hc'. cbn [currentPage]. destruct Hinv as (HN & Hc & Hv).
    case_bool_decide; lia.
Qed.

(** C3.  For a note picker of 12, 36 or 60 keys with pagination on: there
    are [nKeys_ / 12] pages; whatever is pressed (previous, next, or a key
    hovered), no listener raises, the page stays within
    [0 <= currentPage < totalPages] and exactly the keys of the current
    octave are visible; previous on page 0 and next on the last page keep
    the page and the visibility of the keys, and write the label of the
    page again; next pressed [totalPages] times from page 0 ends on the
    last page. *)
Theorem pagination_page_bounds :
  forall (f : FieldNote.t),
    nKeys_ f = 12 \/ nKeys_ f = 36 \/ nKeys_ f = 60 ->
    let p0 := showEditor_pager f in
    let totalPages := nKeys_ f / 12 in
    Npages p0 = totalPages
    /\ currentPage p0 = 0
    /\ (forall l : list pagerAction,
          exists p,
            pagerRun f l p0 = Some p
            /\ Npages p = totalPages
            /\ 0 <= currentPage p < totalPages
            /\ visible p = octaveMask (nKeys_ f) (currentPage p)
            /\ (currentPage p = 0 ->
                prevButton_MOUSEDOWN p
                = Some {| currentPage := currentPage p; Npages := Npages p;
                          visible := visible p;
                          labelText := "Octave #1" |})
            /\ (currentPage p = totalPages - 1 ->
                nextButton_MOUSEDOWN p
                = Some {| currentPage := currentPage p; Npages := Npages p;
                          visible := visible p;
                          labelText := octaveLabel (totalPages - 1) |}))
    /\ (exists p,
          pagerRun f (repeat NextPage totalPages) p0 = Some p
          /\ currentPage p = totalPages - 1).
Proof.
  intros f Hn p0 totalPages.
  assert (HN : 0 < totalPages /\ nKeys_ f = 12 * totalPages).
  { subst totalPages. destruct Hn as [-> | [-> | ->]]; cbn; lia. }
  destruct HN as [Hpos Hmul].
  pose proof (showEditor_pager_inv f totalPages Hpos Hmul) as Hinv0.
  fold p0 in Hinv0.
  split; [apply Hinv0|]. split; [reflexivity|]. split.
  - intros l. destruct (pagerRun_inv f totalPages l p0 Hinv0) as (p & Hrun & Hinv).
    exists p. split; [exact Hrun|].
    pose proof Hinv as (HN & Hc & Hv).
    split; [exact HN|]. split; [lia|]. split; [rewrite Hmul; exact Hv|]. split.
    + intros E. rewrite (prevButton_spec totalPages p Hinv).
      rewrite E, HN, Hv, E. reflexivity.
    + intros E. pose proof (nextButton_spec totalPages p Hinv) as Hnx.
      cbv zeta in Hnx. rewrite Hnx.
      rewrite bool_decide_eq_true_2 by exact E.
      rewrite HN, Hv, E. reflexivity.
  - destruct (next_repeated f totalPages totalPages p0 Hinv0) as (p & Hrun & _ & Hc).
    exists p. split; [exact Hrun|]. rewrite Hc. cbn. lia.
Qed.

(** C3, witness: the default piano of 36 keys. *)
Lemma pagination_page_bounds_witness :
  (36 = 12 \/ 36 = 36 \/ 36 = 60)
  /\ exists p,
       pagerRun (fresh "440" "" "note" None) (repeat NextPage 3)
         (showEditor_pager (fresh "440" "" "note" None)) = Some p
       /\ currentPage p = 2.
Proof.
  assert (H : 36 = 12 \/ 36 = 36 \/ 36 = 60) by (right; left; reflexivity).
  split; [exact H|].
  exact (proj2 (proj2 (proj2
           (pagination_page_bounds (fresh "440" "" "note" None) H)))).
Defined.

End Pagination.

(** ** The table of notes *)

Section NoteTable.

Import FieldNote.

Lemma keyFrequency_Some (k : Z) :
  keyFrequency (Some k) = Fin (Rpower 2 ((IZR k - 49) / 12) * 440).
Proof. reflexivity. Qed.

(** The loop pushes one name and one frequency per round, the frequency of
    round [j] being that of key [k + j]. *)
Lemma notesLoop_spec (nKeys : nat) :
  forall (n i : nat) prefix curNote (k : Z) names freqs,
    exists names',
      notesLoop nKeys n i prefix curNote (Some k) names freqs
      = (names ++ names',
         freqs ++ map (fun j => keyFrequency (Some (k + Z.of_nat j))) (seq 0 n))
      /\ length names' = n.
Proof.
  induction n as [|n IH]; intros i prefix curNote k names freqs.
  - exists []. cbn. rewrite !app_nil_r. split; reflexivity.
  - cbn [notesLoop fmap option_fmap option_map].
    destruct (IH (S i)
                (if ((i + 1) mod 12 =? 0)%nat then nextNotePrefix_ nKeys prefix
                 else prefix)
                (nextNote_ curNote) (Z.succ k)
                (names ++ [keyName prefix curNote])
                (freqs ++ [keyFrequency (Some k)]))
      as (names' & Hrun & Hlen).
    exists (keyName prefix curNote :: names').
    rewrite Hrun. split; [|cbn; rewrite Hlen; reflexivity].
    rewrite <- !app_assoc. cbn [app seq map].
    rewrite <- seq_shift, map_map.
    f_equal. f_equal. f_equal.
    + f_equal. f_equal. lia.
    + apply map_ext. intros j. f_equal. f_equal. lia.
Qed.

(** For one of the three sizes and empty arrays, [createNotesArray_] leaves
    as many names and frequencies as there are keys, the frequencies being
    those of the keys from the start key on. *)
Lemma createNotesArray_spec (f : t) (k0 : Z) (p0 : option string) :
  startKey (nKeys_ f) = (Some k0, p0) ->
  noteFreq_ f = [] -> noteName_ f = [] ->
  noteFreq_ (createNotesArray_ f)
  = map (fun j => keyFrequency (Some (k0 + Z.of_nat j))) (seq 0 (nKeys_ f))
  /\ noteName_ (createNotesArray_ f)
     = fst (notesLoop (nKeys_ f) (nKeys_ f) 0 p0 "C" (Some k0) [] [])
  /\ length (noteName_ (createNotesArray_ f)) = nKeys_ f.
Proof.
  intros Hs Hf Hn. unfold createNotesArray_. rewrite Hs, Hf, Hn.
  destruct (notesLoop_spec (nKeys_ f) (nKeys_ f) 0 p0 "C" k0 [] [])
    as (names' & Hrun & Hlen).
  rewrite Hrun. cbn. repeat split. exact Hlen.
Qed.

Lemma noteEntries_length (f : t) (k0 : Z) (p0 : option string) :
  startKey (nKeys_ f) = (Some k0, p0) ->
  noteFreq_ f = [] -> noteName_ f = [] ->
  length (noteEntries (createNotesArray_ f)) = nKeys_ f.
Proof.
  intros Hs Hf Hn.
  destruct (createNotesArray_spec f k0 p0 Hs Hf Hn) as (Hfr & _ & Hl).
  unfold noteEntries. rewrite length_zip_with, Hl, Hfr.
  rewrite length_map, length_seq. lia.
Qed.

(** The names of the medium piano. *)
Lemma medium_names :
  fst (notesLoop 36 36 0 (Some "Low"%string) "C" (Some 28) [] [])
  = [ "Low C"; "Low C#"; "Low D"; "Low D#"; "Low E"; "Low F"; "Low F#";
      "Low G"; "Low G#"; "Low A"; "Low A#"; "Low B";
      "Middle C"; "Middle C#"; "Middle D"; "Middle D#"; "Middle E";
      "Middle F"; "Middle F#"; "Middle G"; "Middle G#"; "Middle A";
      "Middle A#"; "Middle B";
      "High C"; "High C#"; "High D"; "High D#"; "High E"; "High F";
      "High F#"; "High G"; "High G#"; "High A"; "High A#"; "High B" ]%string.
Proof. lazy. reflexivity. Qed.

Lemma Rpower_2_pos (x : R) : (0 < Rpower 2 x)%R.
Proof. unfold Rpower. apply exp_pos. Qed.

(** [2^(q/4)] to the fourth power is [2^q], for a negative integer [q]. *)
Lemma Rpower_2_quarter (n : nat) :
  ((Rpower 2 (- INR n / 4)) ^ 4 = / 2 ^ n)%R.
Proof.
  rewrite <- (Rpower_pow 4) by apply Rpower_2_pos.
  rewrite Rpower_mult.
  replace (- INR n / 4 * INR 4)%R with (- INR n)%R by (simpl INR; lra).
  rewrite Rpower_Ropp, Rpower_pow by lra. reflexivity.
Qed.

(** Key 28, the first of the medium piano: 130.81 Hz. *)
Lemma frequency_of_key_28 :
  (130.81 < Rpower 2 ((IZR 28 - 49) / 12) * 440 < 130.82)%R.
Proof.
  replace ((IZR 28 - 49) / 12)%R with (- INR 7 / 4)%R by (simpl INR; lra).
  pose proof (Rpower_2_quarter 7) as H4.
  pose proof (Rpower_2_pos (- INR 7 / 4)) as Hpos.
  set (y := Rpower 2 (- INR 7 / 4)) in *.
  split.
  - apply Rnot_le_lt. intros Hle.
    assert (Hy : (y <= 13081 / 44000)%R) by lra.
    assert (Hp : (y ^ 4 <= (13081 / 44000) ^ 4)%R)
      by (apply pow_incr; lra).
    rewrite H4 in Hp. simpl pow in Hp. lra.
  - apply Rnot_le_lt. intros Hle.
    assert (Hy : (13082 / 44000 <= y)%R) by lra.
    assert (Hp : ((13082 / 44000) ^ 4 <= y ^ 4)%R)
      by (apply pow_incr; lra).
    rewrite H4 in Hp. simpl pow in Hp. lra.
Qed.

(** Key 40, the thirteenth of the medium piano: 261.63 Hz. *)
Lemma frequency_of_key_40 :
  (261.62 < Rpower 2 ((IZR 40 - 49) / 12) * 440 < 261.63)%R.
Proof.
  replace ((IZR 40 - 49) / 12)%R with (- INR 3 / 4)%R by (simpl INR; lra).
  pose proof (Rpower_2_quarter 3) as H4.
  pose proof (Rpower_2_pos (- INR 3 / 4)) as Hpos.
  set (y := Rpower 2 (- INR 3 / 4)) in *.
  split.
  - apply Rnot_le_lt. intros Hle.
    assert (Hy : (y <= 26162 / 44000)%R) by lra.
    assert (Hp : (y ^ 4 <= (26162 / 44000) ^ 4)%R)
      by (apply pow_incr; lra).
    rewrite H4 in Hp. simpl pow in Hp. lra.
  - apply Rnot_le_lt. intros Hle.
    assert (Hy : (26163 / 44000 <= y)%R) by lra.
    assert (Hp : ((26163 / 44000) ^ 4 <= y ^ 4)%R)
      by (apply pow_incr; lra).
    rewrite H4 in Hp. simpl pow in Hp. lra.
Qed.

(** A higher key has a higher frequency. *)
Lemma key_frequency_increasing (k k' : Z) :
  k < k' ->
  (Rpower 2 ((IZR k - 49) / 12) * 440 < Rpower 2 ((IZR k' - 49) / 12) * 440)%R.
Proof.
  intros Hk. apply Rmult_lt_compat_r; [lra|].
  apply Rpower_lt; [lra|].
  apply IZR_lt in Hk. lra.
Qed.

(** The twelfth root of two is above 1.059. *)
Lemma twelfth_root_of_two : (1.059 <= Rpower 2 (/ 12))%R.
Proof.
  pose proof (Rpower_2_pos (/ 12)) as Hpos.
  assert (H12 : (Rpower 2 (/ 12) ^ 12 = 2)%R).
  { rewrite <- (Rpower_pow 12) by exact Hpos.
    rewrite Rpower_mult.
    replace (/ 12 * INR 12)%R with 1%R by (simpl INR; lra).
    apply Rpower_1. lra. }
  set (y := Rpower 2 (/ 12)) in *.
  apply Rnot_lt_le. intros Hlt.
  assert (Hp : (y ^ 12 <= (1059 / 1000) ^ 12)%R) by (apply pow_incr; lra).
  rewrite H12 in Hp. simpl pow in Hp. lra.
Qed.

(** From key 16 on, two keys are more than 2 Hz apart. *)
Lemma keys_are_apart (k k' : Z) :
  16 <= k -> k < k' ->
  (Rpower 2 ((IZR k - 49) / 12) * 440 + 2
   < Rpower 2 ((IZR k' - 49) / 12) * 440)%R.
Proof.
  intros Hk Hlt.
  assert (Hnext : (Rpower 2 ((IZR k - 49) / 12) * Rpower 2 (/ 12)
                   <= Rpower 2 ((IZR k' - 49) / 12))%R).
  { rewrite <- Rpower_plus. apply Rle_Rpower; [lra|].
    assert (IZR k + 1 <= IZR k')%R.
    { rewrite <- plus_IZR. apply IZR_le. lia. }
    lra. }
  assert (Hlow : (/ 8 <= Rpower 2 ((IZR k - 49) / 12))%R).
  { replace (/ 8)%R with (Rpower 2 (- INR 3)).
    - apply Rle_Rpower; [lra|]. apply IZR_le in Hk. simpl INR. lra.
    - rewrite Rpower_Ropp, Rpower_pow by lra. simpl pow. lra. }
  pose proof twelfth_root_of_two as Hroot.
  set (a := Rpower 2 ((IZR k - 49) / 12)) in *.
  set (y := Rpower 2 (/ 12)) in *.
  assert (Hprod : (a * 1.059 <= a * y)%R)
    by (apply Rmult_le_compat_l; lra).
  lra.
Qed.

Lemma generated_frequency (f : t) (k0 : Z) (i : nat) (fr : jsnum) :
  noteFreq_ f
  = map (fun j => keyFrequency (Some (k0 + Z.of_nat j))) (seq 0 (nKeys_ f)) ->
  noteFreq_ f !! i = Some fr ->
  fr = Fin (Rpower 2 ((IZR (k0 + Z.of_nat i) - 49) / 12) * 440).
Proof.
  intros Hgen Hi. rewrite Hgen, list_lookup_fmap in Hi.
  destruct (decide (i < nKeys_ f)%nat).
  - rewrite lookup_seq_lt in Hi by assumption. cbn in Hi. congruence.
  - rewrite lookup_seq_ge in Hi by lia. discriminate.
Qed.

(** In a generated table with the tolerance of 1 Hz, at most one key is
    within the tolerance of a value. *)
Lemma generated_near_unique (f : t) (v : jsnum) (i j : nat) :
  generated f -> eps_ f = Fin 1 ->
  nearKey f v i = true -> nearKey f v j = true -> i = j.
Proof.
  intros (k0 & Hk0 & Hgen) Heps Hi Hj.
  unfold nearKey in Hi, Hj. rewrite Heps in Hi, Hj.
  destruct (noteFreq_ f !! i) as [fi|] eqn:Ei; [|discriminate].
  destruct (noteFreq_ f !! j) as [fj|] eqn:Ej; [|discriminate].
  apply (generated_frequency f k0 i fi Hgen) in Ei.
  apply (generated_frequency f k0 j fj Hgen) in Ej.
  subst fi fj.
  destruct v as [| |x|]; try discriminate.
  cbn [sub abs lt] in Hi, Hj. unfold Rltb in Hi, Hj.
  destruct (Rlt_dec _ 1) as [Hi'|]; [|discriminate].
  destruct (Rlt_dec _ 1) as [Hj'|]; [|discriminate].
  apply Rabs_def2 in Hi'. apply Rabs_def2 in Hj'.
  destruct (Nat.lt_trichotomy i j) as [Hlt | [Heq | Hgt]]; [|exact Heq|].
  - pose proof (keys_are_apart (k0 + Z.of_nat i) (k0 + Z.of_nat j)
                  ltac:(lia) ltac:(lia)). lra.
  - pose proof (keys_are_apart (k0 + Z.of_nat j) (k0 + Z.of_nat i)
                  ltac:(lia) ltac:(lia)). lra.
Qed.

(** [createNotesArray_] generates such a table for each of the three
    sizes. *)
Lemma createNotesArray_generated (f : t) :
  nKeys_ f = 12%nat \/ nKeys_ f = 36%nat \/ nKeys_ f = 60%nat ->
  noteFreq_ f = [] -> noteName_ f = [] ->
  generated (createNotesArray_ f).
Proof.
  intros Hn Hf Hnm.
  assert (Hk : nKeys_ (createNotesArray_ f) = nKeys_ f).
  { unfold createNotesArray_. destruct (startKey (nKeys_ f)) as [k p].
    destruct (notesLoop _ _ _ _ _ _ _ _). reflexivity. }
  unfold generated. rewrite Hk.
  destruct Hn as [Hn | [Hn | Hn]].
  - exists 40. split; [lia|].
    apply (createNotesArray_spec f 40 (Some ""%string));
      [rewrite Hn; reflexivity | assumption | assumption].
  - exists 28. split; [lia|].
    apply (createNotesArray_spec f 28 (Some "Low"%string));
      [rewrite Hn; reflexivity | assumption | assumption].
  - exists 16. split; [lia|].
    apply (createNotesArray_spec f 16 (Some "Deep"%string));
      [rewrite Hn; reflexivity | assumption | assumption].
Qed.

Lemma medium_entries (f : t) :
  nKeys_ f = 36%nat -> noteFreq_ f = [] -> noteName_ f = [] ->
  noteEntries (createNotesArray_ f)
  = zip (fst (notesLoop 36 36 0 (Some "Low"%string) "C" (Some 28) [] []))
        (map (fun j => Fin (Rpower 2 ((IZR (28 + Z.of_nat j) - 49) / 12) * 440))
             (seq 0 36)).
Proof.
  intros Hk Hf Hn.
  destruct (createNotesArray_spec f 28 (Some "Low"%string)) as (Hfr & Hnm & _);
    [rewrite Hk; reflexivity | assumption | assumption |].
  unfold noteEntries. rewrite Hfr, Hnm, Hk. reflexivity.
Qed.

(** C2, counterexample.  The first entry of the medium piano is "Low C" at
    the frequency of key 28, below 131 Hz; it is not the frequency of key
    40, which is above 261 Hz. *)
Lemma first_note_is_key_28 :
  exists x : R,
    noteEntries (createNotesArray_ (fresh "440" "" "note" None)) !! 0%nat
    = Some ("Low C"%string, Fin x)
    /\ (x < 131)%R
    /\ (261 < Rpower 2 ((IZR 40 - 49) / 12) * 440)%R
    /\ x <> (Rpower 2 ((IZR 40 - 49) / 12) * 440)%R.
Proof.
  exists (Rpower 2 ((IZR 28 - 49) / 12) * 440)%R.
  pose proof frequency_of_key_28. pose proof frequency_of_key_40.
  split; [|split; [lra | split; [lra | lra]]].
  rewrite medium_entries by reflexivity. reflexivity.
Qed.

(** C2, as amended.  For 36 keys, [createNotesArray_] on empty arrays
    leaves 36 entries; entry [i] holds the frequency
    [2^((k - 49) / 12) * 440] of key [k = 28 + i], so the entries ascend
    with the key; the first entry is "Low C" at the frequency of key 28,
    between 130.81 and 130.82 Hz; the frequency of key 40, between 261.62
    and 261.63 Hz, is that of entry 12, "Middle C".  For each of the three
    sizes the number of entries is the number of keys. *)
Theorem note_table_generation :
  forall f : FieldNote.t,
    nKeys_ f = 36%nat -> noteFreq_ f = [] -> noteName_ f = [] ->
    let entries := noteEntries (createNotesArray_ f) in
    let frequency (k : Z) := (Rpower 2 ((IZR k - 49) / 12) * 440)%R in
    length entries = 36%nat
    /\ (forall i : nat, (i < 36)%nat ->
          exists nm, entries !! i = Some (nm, Fin (frequency (28 + Z.of_nat i))))
    /\ (forall (i j : nat) nm nm' x y,
          (i < j)%nat ->
          entries !! i = Some (nm, Fin x) -> entries !! j = Some (nm', Fin y) ->
          (x < y)%R)
    /\ entries !! 0%nat = Some ("Low C"%string, Fin (frequency 28))
    /\ (130.81 < frequency 28%Z < 130.82)%R
    /\ entries !! 12%nat = Some ("Middle C"%string, Fin (frequency 40))
    /\ (261.62 < frequency 40%Z < 261.63)%R
    /\ (forall g : FieldNote.t,
          nKeys_ g = 12%nat \/ nKeys_ g = 36%nat \/ nKeys_ g = 60%nat ->
          noteFreq_ g = [] -> noteName_ g = [] ->
          length (noteEntries (createNotesArray_ g)) = nKeys_ g).
Proof.
  intros f Hk Hf Hn entries frequency.
  assert (He : entries
               = zip (fst (notesLoop 36 36 0 (Some "Low"%string) "C" (Some 28) [] []))
                   (map (fun j => Fin (frequency (28 + Z.of_nat j))) (seq 0 36)))
    by (apply medium_entries; assumption).
  assert (Hlook : forall i nm x, entries !! i = Some (nm, Fin x) ->
                                 (i < 36)%nat /\ x = frequency (28 + Z.of_nat i)).
  { intros i nm x Hi. rewrite He in Hi.
    apply lookup_zip_with_Some in Hi as (a & b & Hab & _ & Hb).
    rewrite list_lookup_fmap in Hb.
    destruct (decide (i < 36)%nat) as [Hlt|Hge].
    - rewrite lookup_seq_lt in Hb by assumption. cbn in Hb.
      split; [assumption|]. congruence.
    - rewrite lookup_seq_ge in Hb by lia. discriminate. }
  split; [|split; [|split; [|split; [|split; [|split; [|split]]]]]].
  - subst entries. rewrite <- Hk.
    apply (noteEntries_length f 28 (Some "Low"%string));
      [rewrite Hk; reflexivity | assumption | assumption].
  - intros i Hi. rewrite He, medium_names.
    rewrite lookup_zip_with, list_lookup_fmap, lookup_seq_lt by assumption.
    destruct (lookup_lt_is_Some_2
                [ "Low C"; "Low C#"; "Low D"; "Low D#"; "Low E"; "Low F"; "Low F#";
                  "Low G"; "Low G#"; "Low A"; "Low A#"; "Low B";
                  "Middle C"; "Middle C#"; "Middle D"; "Middle D#"; "Middle E";
                  "Middle F"; "Middle F#"; "Middle G"; "Middle G#"; "Middle A";
                  "Middle A#"; "Middle B";
                  "High C"; "High C#"; "High D"; "High D#"; "High E"; "High F";
                  "High F#"; "High G"; "High G#"; "High A"; "High A#"; "High B" ]%string
                i) as [nm Hnm]; [exact Hi|].
    exists nm. rewrite Hnm. reflexivity.
  - intros i j nm nm' x y Hij Hi Hj.
    apply Hlook in Hi as [_ ->]. apply Hlook in Hj as [_ ->].
    apply key_frequency_increasing. lia.
  - rewrite He. reflexivity.
  - exact frequency_of_key_28.
  - rewrite He, medium_names. reflexivity.
  - exact frequency_of_key_40.
  - intros g Hg Hgf Hgn.
    destruct Hg as [Hg | [Hg | Hg]].
    + apply (noteEntries_length g 40 (Some ""%string));
        [rewrite Hg; reflexivity | assumption | assumption].
    + apply (noteEntries_length g 28 (Some "Low"%string));
        [rewrite Hg; reflexivity | assumption | assumption].
    + apply (noteEntries_length g 16 (Some "Deep"%string));
        [rewrite Hg; reflexivity | assumption | assumption].
Qed.

(** C2, witness: the field as constructed, with its 36 keys. *)
Lemma note_table_generation_witness :
  length (noteEntries (createNotesArray_ (fresh "440" "" "note" None))) = 36%nat
  /\ noteEntries (createNotesArray_ (fresh "440" "" "note" None)) !! 12%nat
     = Some ("Middle C"%string, Fin (Rpower 2 ((IZR 40 - 49) / 12) * 440)).
Proof.
  pose proof (note_table_generation (fresh "440" "" "note" None)
                eq_refl eq_refl eq_refl) as H.
  cbv zeta in H.
  exact (conj (proj1 H)
              (proj1 (proj2 (proj2 (proj2 (proj2 (proj2 H))))))).
Defined.

End NoteTable.

(** ** The value of the note field and its text *)

Section NoteValue.

Import FieldNote.

Variable rt : Builtins.

Lemma getNoteName_with_text_ (s : string) (f : t) :
  getNoteName_ rt (with_text_ s f) = getNoteName_ rt f.
Proof.
  unfold getNoteName_, getValue. cbn [note_ nKeys_ with_text_].
  assert (H : forall v i n,
             findNoteName (with_text_ s f) v i n = findNoteName f v i n).
  { intros v i n. revert i. induction n as [|n IH]; intros i; [reflexivity|].
    cbn [findNoteName]. rewrite IH. reflexivity. }
  rewrite H. reflexivity.
Qed.

(** [setText] touches the text only, and when it is handed the name of the
    note it leaves that name as the text. *)
Lemma setText_note_ (o : option string) (f : t) :
  note_ (setText rt o f) = note_ f.
Proof.
  destruct o as [s|]; [|reflexivity]. unfold setText.
  destruct (String.eqb _ (text_ f)); reflexivity.
Qed.

Lemma setText_noteName (f : t) :
  text_ (setText rt (Some (getNoteName_ rt f)) f) = getNoteName_ rt f.
Proof.
  unfold setText.
  assert (E : (if negb (isNaN (ToNumber rt (getNoteName_ rt f)))
               then getNoteName_ rt f else getNoteName_ rt f)
              = getNoteName_ rt f) by (destruct (negb _); reflexivity).
  rewrite E.
  destruct (String.eqb_spec (getNoteName_ rt f) (text_ f)) as [Heq|Hne].
  - symmetry. exact Heq.
  - reflexivity.
Qed.

Lemma setValue_rejects (en : bool) (candidate : option string) (f : t) :
  isNaN (tested rt candidate) = true \/ lt (tested rt candidate) (Fin 0) = true ->
  setValue rt en candidate f = (f, []).
Proof.
  intros H. unfold setValue. fold (tested rt candidate).
  destruct H as [-> | ->]; [reflexivity|].
  rewrite orb_true_r. reflexivity.
Qed.

Lemma setValue_accepts (en : bool) (candidate : option string) (f : t) :
  isNaN (tested rt candidate) = false -> lt (tested rt candidate) (Fin 0) = false ->
  let note := ToString rt (parseFloat rt (strOr candidate "0")) in
  note_ (fst (setValue rt en candidate f)) = note
  /\ text_ (fst (setValue rt en candidate f))
     = getNoteName_ rt (fst (setValue rt en candidate f))
  /\ snd (setValue rt en candidate f)
     = if bool_decide (sourceBlock_ f <> None) && en
          && negb (String.eqb (note_ f) note)
       then [ {| element := "field"; fieldName := name f;
                 oldValue := note_ f; newValue := note |} ]
       else [].
Proof.
  intros Hnan Hneg note. unfold setValue. fold (tested rt candidate).
  rewrite Hnan, Hneg. cbn [orb fst snd]. fold note.
  split; [|split].
  - rewrite setText_note_. reflexivity.
  - rewrite setText_noteName.
    unfold setText.
    destruct (negb (isNaN (ToNumber rt (getNoteName_ rt (with_note_ note f)))));
      destruct (String.eqb _ (text_ (with_note_ note f)));
      rewrite ?getNoteName_with_text_; reflexivity.
  - destruct (sourceBlock_ f) as [b|]; cbn [andb]; [|reflexivity].
    rewrite bool_decide_eq_true_2 by discriminate. reflexivity.
Qed.

(** C5.  A candidate that the field reads as NaN or as a negative number
    changes nothing and fires nothing: [setValue] returns the field as it
    was, with no event.  This holds for the number [setValue] tests (the
    candidate parsed, printed and read again), hence for the parsed number
    itself wherever printing and reading give it back; [classValidator]
    rejects the same candidates.  An event, when one is fired, is the
    single change from the prior value to the new one, and the two
    differ. *)
Theorem setValue_rejects_silently_and_reports_changes_only :
  forall (eventsEnabled : bool) (candidate : option string) (f : FieldNote.t),
    let parsed := parseFloat rt (strOr candidate "0") in
    let result := setValue rt eventsEnabled candidate f in
    (isNaN (tested rt candidate) = true \/ lt (tested rt candidate) (Fin 0) = true ->
       result = (f, []))
    /\ (tested rt candidate = parsed ->
        isNaN parsed = true \/ lt parsed (Fin 0) = true ->
        result = (f, []))
    /\ (forall text : string,
          let n := parseFloat rt (strOr (Some text) "0") in
          isNaN n = true \/ lt n (Fin 0) = true ->
          classValidator rt (Some text) = None)
    /\ (forall e : Change,
          e ∈ snd result ->
          snd result = [e]
          /\ oldValue e = note_ f
          /\ newValue e = note_ (fst result)
          /\ note_ f <> note_ (fst result))
    /\ (note_ (fst result) = note_ f -> snd result = []).
Proof.
  intros en candidate f parsed result.
  split; [|split; [|split; [|split]]].
  - intros H. apply setValue_rejects. exact H.
  - intros Hrt H. apply setValue_rejects. rewrite Hrt. exact H.
  - intros text n H. unfold classValidator. fold n.
    destruct H as [-> | ->]; [reflexivity|]. rewrite orb_true_r. reflexivity.
  - intros e He.
    destruct (isNaN (tested rt candidate)) eqn:Hnan.
    { subst result. rewrite setValue_rejects in He by (left; exact Hnan).
      cbn in He. apply elem_of_nil in He. contradiction. }
    destruct (lt (tested rt candidate) (Fin 0)) eqn:Hneg.
    { subst result. rewrite setValue_rejects in He by (right; exact Hneg).
      cbn in He. apply elem_of_nil in He. contradiction. }
    destruct (setValue_accepts en candidate f Hnan Hneg) as (Hnote & _ & Hev).
    fold result in Hnote, Hev. rewrite Hev in He |- *. rewrite Hnote.
    destruct (bool_decide (sourceBlock_ f <> None) && en
              && negb (String.eqb (note_ f)
                         (ToString rt (parseFloat rt (strOr candidate "0")))))
      eqn:Hc.
    + apply list_elem_of_singleton in He. subst e. cbn.
      repeat split.
      apply andb_true_iff in Hc as [_ Hc]. apply negb_true_iff in Hc.
      apply String.eqb_neq. exact Hc.
    + apply elem_of_nil in He. contradiction.
  - intros Hsame.
    destruct (isNaN (tested rt candidate)) eqn:Hnan.
    { subst result. rewrite setValue_rejects by (left; exact Hnan). reflexivity. }
    destruct (lt (tested rt candidate) (Fin 0)) eqn:Hneg.
    { subst result. rewrite setValue_rejects by (right; exact Hneg). reflexivity. }
    destruct (setValue_accepts en candidate f Hnan Hneg) as (Hnote & _ & Hev).
    fold result in Hnote, Hev. rewrite Hev. rewrite Hnote in Hsame.
    rewrite Hsame, String.eqb_refl, andb_false_r. reflexivity.
Qed.

(** The real-number reading of [nearKey]: the distance between the
    frequency of key [i] and the value is below the tolerance. *)
Lemma nearKey_iff (f : t) (i : nat) (fr x e : R) :
  noteFreq_ f !! i = Some (Fin fr) -> eps_ f = Fin e ->
  nearKey f (Fin x) i = true <-> (Rabs (fr - x) < e)%R.
Proof.
  intros Hfr He. unfold nearKey. rewrite Hfr, He. cbn. unfold Rltb.
  destruct (Rlt_dec (Rabs (fr - x)) e); split; intros; try reflexivity;
    try assumption; try discriminate; contradiction.
Qed.

Lemma findNoteName_first (f : t) (v : jsnum) (n : nat) :
  forall i0 i,
    (i0 <= i < i0 + n)%nat ->
    nearKey f v i = true ->
    (forall j, (i0 <= j < i)%nat -> nearKey f v j = false) ->
    findNoteName f v i0 n = Some (default "undefined"%string (noteName_ f !! i)).
Proof.
  induction n as [|n IH]; intros i0 i Hi Hnear Hfirst; [lia|].
  cbn [findNoteName].
  destruct (decide (i = i0)) as [->|Hne].
  - rewrite Hnear. reflexivity.
  - rewrite (Hfirst i0) by lia. apply IH; [lia | exact Hnear |].
    intros j Hj. apply Hfirst. lia.
Qed.

Lemma findNoteName_none (f : t) (v : jsnum) (n : nat) :
  forall i0,
    (forall j, (i0 <= j < i0 + n)%nat -> nearKey f v j = false) ->
    findNoteName f v i0 n = None.
Proof.
  induction n as [|n IH]; intros i0 Hnone; [reflexivity|].
  cbn [findNoteName]. rewrite (Hnone i0) by lia.
  apply IH. intros j Hj. apply Hnone. lia.
Qed.

(** C6, as amended.  When the value is within the tolerance of the
    frequency of some key, the name shown is that of the first such key
    (the only one, in a table that [createNotesArray_] generated, for the
    tolerance of 1 Hz); otherwise it is the stored value as it stands, not
    rounded, followed by " Hz" (by nothing when the value is not a
    number).  The value with two decimals and no unit is what [getText]
    gives.  After an accepted [setValue] the text of the field is the name
    so derived. *)
Theorem display_text_derivation :
  forall f : FieldNote.t,
    let v := ToNumber rt (note_ f) in
    (forall i : nat,
        (i < nKeys_ f)%nat -> nearKey f v i = true ->
        (forall j, (j < i)%nat -> nearKey f v j = false) ->
        getNoteName_ rt f = default "undefined"%string (noteName_ f !! i))
    /\ (forall (i : nat) (fr x e : R),
          noteFreq_ f !! i = Some (Fin fr) -> v = Fin x -> eps_ f = Fin e ->
          (nearKey f v i = true <-> (Rabs (fr - x) < e)%R))
    /\ ((forall i, (i < nKeys_ f)%nat -> nearKey f v i = false) ->
        getNoteName_ rt f
        = if isNaN v then note_ f else (note_ f ++ " Hz")%string)
    /\ getText rt f = toFixed2 rt v
    /\ (forall en candidate,
          isNaN (tested rt candidate) = false ->
          lt (tested rt candidate) (Fin 0) = false ->
          text_ (fst (setValue rt en candidate f))
          = getNoteName_ rt (fst (setValue rt en candidate f)))
    /\ (generated f -> eps_ f = Fin 1 ->
        forall i j : nat,
          nearKey f v i = true -> nearKey f v j = true -> i = j).
Proof.
  intros f v. split; [|split; [|split; [|split; [|split]]]].
  - intros i Hi Hnear Hfirst. unfold getNoteName_, getValue. fold v.
    rewrite (findNoteName_first f v (nKeys_ f) 0%nat i); try reflexivity;
      [lia | exact Hnear |].
    intros j Hj. apply Hfirst. lia.
  - intros i fr x e Hfr Hv He. rewrite Hv. apply nearKey_iff; assumption.
  - intros Hnone. unfold getNoteName_, getValue. fold v.
    rewrite findNoteName_none by (intros j Hj; apply Hnone; lia).
    destruct (isNaN v); reflexivity.
  - reflexivity.
  - intros en candidate Hnan Hneg.
    apply (setValue_accepts en candidate f Hnan Hneg).
  - intros Hgen Heps i j. apply generated_near_unique; assumption.
Qed.

End NoteValue.

(** ** The reference conversions at work *)

Section ReferenceRuntime.

Import Ref FieldNote.

Lemma Int_part_IZR (z : Z) : Int_part (IZR z) = z.
Proof. symmetry. apply Int_part_spec. lra. Qed.

Lemma Rltb_IZR (z : Z) : Rltb (IZR z) 0 = (z <? 0).
Proof.
  unfold Rltb. destruct (Rlt_dec (IZR z) 0) as [H|H]; destruct (Z.ltb_spec z 0) as [L|L];
    try reflexivity; exfalso.
  - apply lt_IZR in H. lia.
  - apply H. apply IZR_lt. exact L.
Qed.

Lemma append_empty_r (s : string) : (s ++ "")%string = s.
Proof.
  induction s as [|c s IH]; [reflexivity|].
  change (String c s ++ "")%string with (String c (s ++ ""))%string.
  rewrite IH. reflexivity.
Qed.

(** An integer prints as its digits, after its sign. *)
Lemma ref_ToString_integer (z : Z) :
  ref_ToString (Fin (IZR z))
  = ((if (z <? 0)%Z then "-" else "") ++ natToString (Z.abs z))%string.
Proof.
  unfold ref_ToString.
  rewrite <- abs_IZR, Int_part_IZR, Rltb_IZR.
  replace ((IZR (Z.abs z) - IZR (Z.abs z)) * 1000000000000000)%R with (IZR 0)
    by lra.
  rewrite Int_part_IZR.
  change (string_of_list_ascii
            (dropTrailingZeros (list_ascii_of_string (padLeft 15 (natToString 0)))))
    with ""%string.
  cbn [String.eqb].
  rewrite append_empty_r. reflexivity.
Qed.

Lemma value_minus_5 : value (Some (LDec true 5 0)) = Fin (IZR (-5)).
Proof.
  cbn [value]. unfold scale10.
  change (0 <=? 0) with true. change (5 * 10 ^ 0) with 5.
  reflexivity.
Qed.

(** A candidate that is no number, and a negative one. *)
Lemma tested_abc : tested refBuiltins (Some "abc"%string) = NaN.
Proof. reflexivity. Qed.

Lemma tested_minus_5 : tested refBuiltins (Some "-5"%string) = Fin (IZR (-5)).
Proof.
  unfold tested. cbn [parseFloat ToString ToNumber refBuiltins].
  assert (E : ref_parseFloat (strOr (Some "-5"%string) "0") = Fin (IZR (-5))).
  { unfold ref_parseFloat.
    change (floatLiteral (strOr (Some "-5"%string) "0"))
      with (Some (LDec true 5 0)).
    apply value_minus_5. }
  rewrite E, ref_ToString_integer.
  change ((if (-5 <? 0)%Z then "-" else "") ++ natToString (Z.abs (-5)))%string
    with "-5"%string.
  unfold ref_ToNumber.
  change (numberLiteral "-5") with (Some (LDec true 5 0)).
  apply value_minus_5.
Qed.

(** C5, witness: "abc" and "-5" offered to a field that holds 440. *)
Lemma setValue_rejects_witness :
  setValue refBuiltins true (Some "abc"%string)
    (fresh "440" "A" "note" (Some {| RTL := false |}))
  = (fresh "440" "A" "note" (Some {| RTL := false |}), [])
  /\ setValue refBuiltins true (Some "-5"%string)
       (fresh "440" "A" "note" (Some {| RTL := false |}))
     = (fresh "440" "A" "note" (Some {| RTL := false |}), []).
Proof.
  split.
  - refine (proj1 (setValue_rejects_silently_and_reports_changes_only
                     refBuiltins true (Some "abc"%string) _) _).
    left. rewrite tested_abc. reflexivity.
  - refine (proj1 (setValue_rejects_silently_and_reports_changes_only
                     refBuiltins true (Some "-5"%string) _) _).
    right. rewrite tested_minus_5. cbn [lt]. apply Rltb_IZR.
Defined.

(** No key up to key 73 sounds above 1760 Hz. *)
Lemma key_frequency_below (k : Z) :
  k <= 73 -> (Rpower 2 ((IZR k - 49) / 12) * 440 <= 1760)%R.
Proof.
  intros Hk. apply IZR_le in Hk.
  assert (H4 : (Rpower 2 ((IZR k - 49) / 12) <= Rpower 2 (INR 2))%R).
  { apply Rle_Rpower; [lra|]. simpl INR. lra. }
  rewrite Rpower_pow in H4 by lra. simpl pow in H4. lra.
Qed.

Lemma mediumField_frequency (note : string) (i : nat) :
  noteFreq_ (mediumField note) !! i
  = if bool_decide (i < 36)%nat
    then Some (Fin (Rpower 2 ((IZR (28 + Z.of_nat i) - 49) / 12) * 440))
    else None.
Proof.
  unfold mediumField.
  destruct (createNotesArray_spec (fresh note "" "note" None) 28
              (Some "Low"%string)) as (Hfr & _ & _); try reflexivity.
  rewrite Hfr. cbn [nKeys_ fresh pianoSize_value].
  rewrite list_lookup_fmap.
  destruct (decide (i < 36)%nat).
  - rewrite bool_decide_eq_true_2 by assumption.
    rewrite lookup_seq_lt by assumption. reflexivity.
  - rewrite bool_decide_eq_false_2 by assumption.
    rewrite lookup_seq_ge by lia. reflexivity.
Qed.

Lemma number_5000_125 :
  ref_ToNumber "5000.125" = Fin (IZR 5000125 / IZR 1000).
Proof.
  unfold ref_ToNumber.
  change (numberLiteral "5000.125") with (Some (LDec false 5000125 (-3))).
  reflexivity.
Qed.

Lemma far_from_every_key (i : nat) :
  nearKey (mediumField "5000.125") (Fin (IZR 5000125 / IZR 1000)) i = false.
Proof.
  unfold nearKey. rewrite mediumField_frequency.
  destruct (decide (i < 36)%nat) as [Hi|Hi].
  - rewrite bool_decide_eq_true_2 by assumption.
    cbn [sub abs lt eps_ mediumField]. change (eps_ (mediumField "5000.125")) with (Fin 1).
    cbn [lt]. unfold Rltb.
    destruct (Rlt_dec _ 1) as [H|H]; [exfalso|reflexivity].
    pose proof (key_frequency_below (28 + Z.of_nat i) ltac:(lia)) as Hb.
    apply Rabs_def2 in H. lra.
  - rewrite bool_decide_eq_false_2 by assumption. reflexivity.
Qed.

Lemma toFixed2_5000_125 :
  ref_toFixed2 (Fin (IZR 5000125 / IZR 1000)) = "5000.13"%string.
Proof.
  unfold ref_toFixed2.
  assert (Hpos : (0 <= IZR 5000125 / IZR 1000)%R) by lra.
  rewrite (Rabs_pos_eq _ Hpos).
  replace (IZR 5000125 / IZR 1000 * 100 + / 2)%R with (IZR 500013) by lra.
  rewrite Int_part_IZR.
  unfold Rltb. destruct (Rlt_dec (IZR 5000125 / IZR 1000) 0) as [H|H]; [exfalso; lra|].
  reflexivity.
Qed.

Lemma note_mediumField (s : string) : note_ (mediumField s) = s.
Proof. reflexivity. Qed.

Lemma nKeys_mediumField (s : string) : nKeys_ (mediumField s) = 36%nat.
Proof. reflexivity. Qed.

Lemma number_of_mediumField_5000_125 :
  ToNumber refBuiltins (note_ (mediumField "5000.125"))
  = Fin (IZR 5000125 / IZR 1000).
Proof. rewrite note_mediumField. exact number_5000_125. Qed.

(** C6, counterexample.  A field that holds 5000.125, far from every key
    of the medium piano, shows "5000.125 Hz": the three decimals are kept.
    The value with two decimals is "5000.13", which only [getText] gives,
    without a unit. *)
Lemma display_keeps_all_decimals :
  getNoteName_ refBuiltins (mediumField "5000.125") = "5000.125 Hz"%string
  /\ getText refBuiltins (mediumField "5000.125") = "5000.13"%string
  /\ getNoteName_ refBuiltins (mediumField "5000.125")
     <> (getText refBuiltins (mediumField "5000.125") ++ " Hz")%string.
Proof.
  assert (Hname : getNoteName_ refBuiltins (mediumField "5000.125")
                  = "5000.125 Hz"%string).
  { unfold getNoteName_, getValue.
    rewrite number_of_mediumField_5000_125.
    rewrite findNoteName_none by (intros j _; apply far_from_every_key).
    rewrite note_mediumField. reflexivity. }
  assert (Htext : getText refBuiltins (mediumField "5000.125")
                  = "5000.13"%string).
  { unfold getText. rewrite number_of_mediumField_5000_125.
    apply toFixed2_5000_125. }
  split; [exact Hname|]. split; [exact Htext|].
  rewrite Hname, Htext. discriminate.
Qed.

Lemma number_of_mediumField_131 :
  ToNumber refBuiltins (note_ (mediumField "131")) = Fin (IZR 131).
Proof.
  rewrite note_mediumField. cbn [ToNumber refBuiltins]. unfold ref_ToNumber.
  change (numberLiteral "131") with (Some (LDec false 131 0)).
  reflexivity.
Qed.

Lemma near_low_C :
  nearKey (mediumField "131") (Fin (IZR 131)) 0 = true.
Proof.
  apply (nearKey_iff (mediumField "131") 0
           (Rpower 2 ((IZR 28 - 49) / 12) * 440) (IZR 131) 1).
  - rewrite mediumField_frequency. reflexivity.
  - reflexivity.
  - pose proof frequency_of_key_28 as H. apply Rabs_def1; lra.
Qed.

(** C6, witness: a field that holds 131, within 1 Hz of the first key of
    the medium piano, shows "Low C"; one that holds 5000.125 shows it with
    " Hz". *)
Lemma display_text_derivation_witness :
  getNoteName_ refBuiltins (mediumField "131")
  = default "undefined"%string (noteName_ (mediumField "131") !! 0%nat)
  /\ getNoteName_ refBuiltins (mediumField "5000.125")
     = if isNaN (ToNumber refBuiltins (note_ (mediumField "5000.125")))
       then note_ (mediumField "5000.125")
       else (note_ (mediumField "5000.125") ++ " Hz")%string.
Proof.
  split.
  - refine (proj1 (display_text_derivation refBuiltins (mediumField "131"))
                  0%nat _ _ _).
    + rewrite nKeys_mediumField. lia.
    + rewrite number_of_mediumField_131. exact near_low_C.
    + intros j Hj. lia.
  - refine (proj1 (proj2 (proj2
              (display_text_derivation refBuiltins (mediumField "5000.125")))) _).
    intros i _. rewrite number_of_mediumField_5000_125.
    apply far_from_every_key.
Defined.

Lemma low_C_is_shown :
  default "undefined"%string (noteName_ (mediumField "131") !! 0%nat)
  = "Low C"%string.
Proof.
  unfold mediumField.
  destruct (createNotesArray_spec (fresh "131" "" "note" None) 28
              (Some "Low"%string)) as (_ & Hnm & _);
    [reflexivity | reflexivity | reflexivity |].
  rewrite Hnm. cbn [nKeys_ fresh pianoSize_value]. rewrite medium_names.
  reflexivity.
Qed.

End ReferenceRuntime.

(** ** Labels and buttons of the flyout *)

Section FlyoutCallbacks.

Import FlyoutButton.

Variable Callback : Type.
Variable MouseEvent : Type.

(** A mouse-up on a button without callback only cancels the gesture that
    may be in progress. *)
Lemma onMouseUp_without_callback
  (ws : FlyoutButton.Workspace Callback MouseEvent) (e : MouseEvent)
  (b : FlyoutButton.t Callback MouseEvent) :
  targetWorkspace_ _ _ b = Some ws -> callback_ _ _ b = None ->
  onMouseUp_ _ _ e b
  = Some (if getGesture _ _ ws e then [GestureCancelled _ _] else []).
Proof.
  intros Hws Hcb. unfold onMouseUp_. rewrite Hws, Hcb.
  rewrite app_nil_r. reflexivity.
Qed.

(** C8.  A label whose XML configures a callback key is constructed with
    the warning for labels and without callback; a button whose key is
    missing, empty or not registered on the target workspace is constructed
    with the warning for buttons and without callback.  In both cases the
    constructor returns, and a mouse-up on the control returns too, calls no
    callback and does no more than cancel the gesture in progress.  (A
    button whose key is registered gets that callback, without warning, and
    a mouse-up calls it.) *)
Theorem flyout_callback_configuration :
  forall (workspace targetWorkspace : FlyoutButton.Workspace Callback MouseEvent)
         (xml : Element) (e : MouseEvent),
    let key := getAttribute xml "callbackkey" in
    let text := getAttribute xml "text" in
    let label := FlyoutButton.new _ _ workspace targetWorkspace xml true in
    let button := FlyoutButton.new _ _ workspace targetWorkspace xml false in
    let quiet :=
      Some (if getGesture _ _ targetWorkspace e
            then [GestureCancelled Callback MouseEvent] else []) in
    (truthy key = true ->
       snd label
       = [warnText "Labels should not have callbacks. Label text: " text]
       /\ callback_ _ _ (fst label) = None
       /\ onMouseUp_ _ _ e (fst label) = quiet)
    /\ (truthy key = false \/ getButtonCallback _ _ targetWorkspace key = None ->
        snd button
        = [warnText "Buttons should have callbacks. Button text: " text]
        /\ callback_ _ _ (fst button) = None
        /\ onMouseUp_ _ _ e (fst button) = quiet)
    /\ (forall c : Callback,
          truthy key = true ->
          getButtonCallback _ _ targetWorkspace key = Some c ->
          snd button = []
          /\ callback_ _ _ (fst button) = Some c
          /\ onMouseUp_ _ _ e (fst button)
             = Some ((if getGesture _ _ targetWorkspace e
                      then [GestureCancelled _ _] else [])
                     ++ [CallbackCalled _ _ c (fst button)])).
Proof.
  intros ws tws xml e key text label button quiet.
  split; [|split].
  - intros Hkey. subst label quiet. unfold FlyoutButton.new. fold key text.
    rewrite Hkey. cbn [andb fst snd].
    split; [reflexivity | split; [reflexivity|]].
    apply onMouseUp_without_callback; reflexivity.
  - intros Hbad. subst button quiet. unfold FlyoutButton.new. fold key text.
    cbn [andb negb].
    assert (Hc : truthy key
                 && bool_decide (is_Some (getButtonCallback _ _ tws key)) = false).
    { destruct Hbad as [-> | ->]; [reflexivity|].
      rewrite bool_decide_eq_false_2 by (intros [c Hc]; discriminate).
      apply andb_false_r. }
    rewrite Hc. cbn [negb fst snd].
    split; [reflexivity | split; [reflexivity|]].
    apply onMouseUp_without_callback; reflexivity.
  - intros c Hkey Hreg. subst button. unfold FlyoutButton.new. fold key text.
    cbn [andb negb]. rewrite Hkey, Hreg.
    rewrite bool_decide_eq_true_2 by (exists c; reflexivity).
    cbn [andb negb fst snd].
    split; [reflexivity | split; [reflexivity|]].
    unfold onMouseUp_. cbn [targetWorkspace_ callback_]. reflexivity.
Qed.

End FlyoutCallbacks.

(** C8, witness: a label and a button "Make a Variable", both with the key
    MISSING that nobody registered; no gesture is in progress. *)
Lemma flyout_callback_configuration_witness :
  let ws : FlyoutButton.Workspace string unit :=
    {| FlyoutButton.getButtonCallback :=
         fun k => match k with
                  | Some "CREATE_VARIABLE"%string => Some "createVariable"%string
                  | _ => None
                  end;
       FlyoutButton.getGesture := fun _ => false;
       FlyoutButton.RTL := false |} in
  let xml : FlyoutButton.Element :=
    <["text" := "Make a Variable"]> (<["callbackkey" := "MISSING"]> ∅) in
  snd (FlyoutButton.new string unit ws ws xml true)
  = ["Labels should not have callbacks. Label text: Make a Variable"%string]
  /\ FlyoutButton.onMouseUp_ string unit tt
       (fst (FlyoutButton.new string unit ws ws xml true)) = Some []
  /\ snd (FlyoutButton.new string unit ws ws xml false)
     = ["Buttons should have callbacks. Button text: Make a Variable"%string]
  /\ FlyoutButton.onMouseUp_ string unit tt
       (fst (FlyoutButton.new string unit ws ws xml false)) = Some [].
Proof.
  intros ws xml.
  pose proof (flyout_callback_configuration string unit ws ws xml tt) as H.
  cbv zeta in H. destruct H as (Hlabel & Hbutton & _).
  destruct (Hlabel eq_refl) as (Hl1 & _ & Hl3).
  destruct (Hbutton (or_intror eq_refl)) as (Hb1 & _ & Hb3).
  split; [exact Hl1|]. split; [exact Hl3|]. split; [exact Hb1 | exact Hb3].
Defined.

(** ** Tooltips of the grid picker *)

Section GridPickerTooltips.

Import FieldGridPicker.

Variable rt : Builtins.
Variable parseInt : jsval -> option Z.
Variable hueToRgb : jsnum -> string.
Variable CHECKMARK_OVERHANG : Z.
Variable Base : Type.
Variable super_new : list MenuOption -> Base.
Variable super_dispose : Base -> Base.

Lemma disposeTooltips_empty (w : World Base) :
  tooltips_ _ (picker _ w) = [] -> disposeTooltips _ w = w.
Proof. intros H. unfold disposeTooltips. rewrite H. reflexivity. Qed.

Lemma disposeTooltips_clears (w : World Base) :
  tooltips_ _ (picker _ (disposeTooltips _ w)) = []
  /\ disposed _ (disposeTooltips _ w) = disposed _ w ++ tooltips_ _ (picker _ w).
Proof.
  unfold disposeTooltips.
  destruct (tooltips_ _ (picker _ w)) as [|t ts] eqn:E; cbn.
  - rewrite E, app_nil_r. split; reflexivity.
  - split; reflexivity.
Qed.

(** C9.  The first [dispose()] of a grid picker empties its list of
    tooltips, each tooltip being disposed once; [disposeTooltips()] on the
    state so reached changes nothing; and a second [dispose()] leaves the
    state of the first, provided the [dispose] of [Blockly.FieldDropdown],
    which runs first, does as much on its part of the field.  Neither call
    can fail. *)
Theorem dispose_is_idempotent :
  forall w : World Base,
    (forall b : Base, super_dispose (super_dispose b) = super_dispose b) ->
    tooltips_ _ (picker _ (dispose _ super_dispose w)) = []
    /\ disposed _ (dispose _ super_dispose w)
       = disposed _ w ++ tooltips_ _ (picker _ w)
    /\ disposeTooltips _ (dispose _ super_dispose w) = dispose _ super_dispose w
    /\ dispose _ super_dispose (dispose _ super_dispose w)
       = dispose _ super_dispose w.
Proof.
  intros w Hsuper.
  pose proof (disposeTooltips_clears
                {| picker := with_base _ (super_dispose (base _ (picker _ w)))
                               (picker _ w);
                   disposed := disposed _ w |}) as [Hclear Hlog].
  fold (dispose _ super_dispose w) in Hclear, Hlog.
  split; [exact Hclear|]. split; [exact Hlog|]. split.
  - apply disposeTooltips_empty. exact Hclear.
  - unfold dispose at 1.
    assert (E : {| picker :=
                     with_base _
                       (super_dispose (base _ (picker _ (dispose _ super_dispose w))))
                       (picker _ (dispose _ super_dispose w));
                   disposed := disposed _ (dispose _ super_dispose w) |}
                = dispose _ super_dispose w).
    { assert (Hb : super_dispose (base _ (picker _ (dispose _ super_dispose w)))
                   = base _ (picker _ (dispose _ super_dispose w))).
      { unfold dispose, disposeTooltips. cbn.
        destruct (negb _); cbn; apply Hsuper. }
      rewrite Hb.
      destruct (dispose _ super_dispose w) as [[b m v ts c mr wd bg ic cfg] d].
      reflexivity. }
    rewrite E. apply disposeTooltips_empty. exact Hclear.
Qed.









End GridPickerTooltips.


(** C9, witness: a picker with two tooltips; the part of the field that
    the dropdown owns is whether the field is still attached. *)
Lemma dispose_is_idempotent_witness :
  let tip i :=
    FieldGridPicker.tooltipOf i
      {| FieldGridPicker.optContent := FieldGridPicker.Text "a";
         FieldGridPicker.optValue := "A" |} in
  let w : FieldGridPicker.World bool :=
    {| FieldGridPicker.picker :=
         {| FieldGridPicker.base := true;
            FieldGridPicker.menuGenerator_ := [];
            FieldGridPicker.value_ := "A";
            FieldGridPicker.tooltips_ := [tip 0%nat; tip 1%nat];
            FieldGridPicker.columns_ := 4;
            FieldGridPicker.maxRows_ := 0;
            FieldGridPicker.width_ := 400;
            FieldGridPicker.backgroundColour_ := "#000";
            FieldGridPicker.itemColour_ := FieldGridPicker.JStr "#fff";
            FieldGridPicker.tooltipConfig_ :=
              {| FieldGridPicker.enabled := true;
                 FieldGridPicker.xOffset := 15;
                 FieldGridPicker.yOffset := -10 |} |};
       FieldGridPicker.disposed := [] |} in
  FieldGridPicker.disposed bool
    (FieldGridPicker.dispose bool (fun _ => false)
       (FieldGridPicker.dispose bool (fun _ => false) w))
  = [tip 0%nat; tip 1%nat]
  /\ FieldGridPicker.dispose bool (fun _ => false)
       (FieldGridPicker.dispose bool (fun _ => false) w)
     = FieldGridPicker.dispose bool (fun _ => false) w.
Proof.
  intros tip w.
  pose proof (dispose_is_idempotent bool (fun _ => false) w
                (fun _ => eq_refl)) as (_ & Hlog & _ & Hidem).
  split; [|exact Hidem]. rewrite Hidem. exact Hlog.
Defined.

(** ** The time-out that stops the tone *)

Section StaleTimer.

Import FieldNote.

Variable rt : Builtins.
Variable eventsEnabled : bool.

(** What [setText] and [setValue] leave alone. *)
Lemma setText_frame (o : option string) (f : t) :
  soundingKeys_ (setText rt o f) = soundingKeys_ f
  /\ nKeys_ (setText rt o f) = nKeys_ f
  /\ noteFreq_ (setText rt o f) = noteFreq_ f.
Proof.
  destruct o as [s|]; [|repeat split]. unfold setText.
  destruct (String.eqb _ (text_ f)); repeat split.
Qed.

Lemma setValue_frame (o : option string) (f : t) :
  soundingKeys_ (fst (setValue rt eventsEnabled o f)) = soundingKeys_ f
  /\ nKeys_ (fst (setValue rt eventsEnabled o f)) = nKeys_ f
  /\ noteFreq_ (fst (setValue rt eventsEnabled o f)) = noteFreq_ f.
Proof.
  unfold setValue.
  destruct (isNaN _ || lt _ (Fin 0)); [repeat split|].
  cbn [fst].
  match goal with
  | |- context [setText rt ?o' ?f'] =>
      pose proof (setText_frame o' f') as (A & B & C)
  end.
  rewrite A, B, C. repeat split.
Qed.

Lemma renderKeys_Some (f : t) (n : nat) :
  forall (i : nat) tags colors sel prev,
    (i + n <= length (noteFreq_ f))%nat ->
    exists tg cols s p,
      renderKeys rt f i n tags colors sel prev = Some (tg, cols, s, p)
      /\ length tg = (length tags + n)%nat
      /\ length cols = (length colors + n)%nat.
Proof.
  induction n as [|n IH]; intros i tags colors sel prev Hlen.
  - exists tags, colors, sel, prev. cbn. repeat split; lia.
  - cbn [renderKeys].
    destruct (lookup_lt_is_Some_2 (noteFreq_ f) i) as [fr Hfr]; [lia|].
    rewrite Hfr.
    destruct (nearKey f (ToNumber rt (getValue f)) i).
    + destruct (IH (S i) (tags ++ [ToString rt fr])
                  (colors ++ [selectedKeyColor_ f]) (Some i)
                  (Some (getBgColor_ i))) as (tg & cols & s & p & Hr & Ht & Hc);
        [lia|].
      exists tg, cols, s, p. rewrite Hr, Ht, Hc, !length_app. cbn.
      repeat split; lia.
    + destruct (IH (S i) (tags ++ [ToString rt fr])
                  (colors ++ [getBgColor_ i]) sel prev)
        as (tg & cols & s & p & Hr & Ht & Hc); [lia|].
      exists tg, cols, s, p. rewrite Hr, Ht, Hc, !length_app. cbn.
      repeat split; lia.
Qed.

(** Opening the editor: the counter of sounding keys is 0 again; the tone
    service and the pending time-outs are as they were. *)
Lemma showEditor_sizes_frame (ws : Goog.Size) (ew : Z) (q m : bool) (f : t) :
  soundingKeys_ (snd (showEditor_sizes ws ew q m f)) = 0%nat
  /\ nKeys_ (snd (showEditor_sizes ws ew q m f)) = nKeys_ f
  /\ noteFreq_ (snd (showEditor_sizes ws ew q m f)) = noteFreq_ f.
Proof.
  unfold showEditor_sizes. destruct (negb q && m); repeat split.
Qed.

(** The tags of the keys are their frequencies, printed. *)
Lemma renderKeys_tags (f : t) (n : nat) :
  forall (i : nat) tgs colors sel prev tg cols s p,
    renderKeys rt f i n tgs colors sel prev = Some (tg, cols, s, p) ->
    tg = tgs ++ map (ToString rt) (take n (drop i (noteFreq_ f))).
Proof.
  induction n as [|n IH]; intros i tgs colors sel prev tg cols s p H.
  - cbn in H. injection H as <- _ _ _. cbn. rewrite app_nil_r. reflexivity.
  - cbn [renderKeys] in H.
    destruct (noteFreq_ f !! i) as [fr|] eqn:Hfr; [|discriminate].
    rewrite (drop_S _ _ _ Hfr). cbn [take map].
    destruct (nearKey f (ToNumber rt (getValue f)) i);
      apply IH in H; rewrite H, <- app_assoc; reflexivity.
Qed.

Lemma setText_block (o : option string) (f : t) :
  sourceBlock_ (setText rt o f) = sourceBlock_ f.
Proof.
  destruct o as [s|]; [|reflexivity]. unfold setText.
  destruct (String.eqb _ (text_ f)); reflexivity.
Qed.

Lemma setValue_block (o : option string) (f : t) :
  sourceBlock_ (fst (setValue rt eventsEnabled o f)) = sourceBlock_ f.
Proof.
  unfold setValue.
  destruct (isNaN _ || lt _ (Fin 0)); [reflexivity|].
  cbn [fst]. rewrite setText_block. reflexivity.
Qed.

Lemma showEditor_sizes_block (ws : Goog.Size) (ew : Z) (q m : bool) (f : t) :
  sourceBlock_ (snd (showEditor_sizes ws ew q m f)) = sourceBlock_ f.
Proof. unfold showEditor_sizes. destruct (negb q && m); reflexivity. Qed.

(** The block of the field is the same after an opening and after a key. *)
Lemma showEditor__block (o : Opening) (e e' : Editor) :
  showEditor_ rt o e = Some e' ->
  sourceBlock_ (field e') = sourceBlock_ (field e).
Proof.
  unfold showEditor_. intros H.
  pose proof (showEditor_sizes_block (windowSize o) (editorWidth o)
                (opt_quietInput o) (uaMobile o)
                (with_text_ (getText rt (field e)) (field e))) as Hb.
  destruct (showEditor_sizes _ _ _ _ _) as [[pg mb] f1]. cbn [snd] in Hb.
  destruct (negb mb && bool_decide (sourceBlock_ f1 = None)); [discriminate|].
  destruct (renderKeys rt f1 0 (nKeys_ f1) [] [] None None)
    as [[[[tg cols] sel] prev] |]; [| discriminate].
  injection H as <-. exact Hb.
Qed.

Lemma showEditor__tag (o : Opening) (e e' : Editor) (j : nat) (fr : jsnum) :
  showEditor_ rt o e = Some e' ->
  (j < nKeys_ (field e))%nat -> noteFreq_ (field e) !! j = Some fr ->
  tags e' !! j = Some (ToString rt fr).
Proof.
  unfold showEditor_. intros H Hj Hfr.
  pose proof (showEditor_sizes_frame (windowSize o) (editorWidth o)
                (opt_quietInput o) (uaMobile o)
                (with_text_ (getText rt (field e)) (field e)))
    as (_ & Hn & Hf).
  destruct (showEditor_sizes _ _ _ _ _) as [[pg mb] f1].
  cbn [snd] in Hn, Hf. cbn [nKeys_ noteFreq_ with_text_] in Hn, Hf.
  destruct (negb mb && bool_decide (sourceBlock_ f1 = None)); [discriminate|].
  destruct (renderKeys rt f1 0 (nKeys_ f1) [] [] None None)
    as [[[[tg cols] sel] prev] |] eqn:Hr; [| discriminate].
  injection H as <-. cbn [tags].
  apply renderKeys_tags in Hr. rewrite Hr, Hn, Hf. cbn [app].
  rewrite drop_0, list_lookup_fmap, lookup_take_lt by exact Hj.
  rewrite Hfr. reflexivity.
Qed.

Lemma key_MOUSEDOWN_block (i : nat) (e e' : Editor) :
  key_MOUSEDOWN rt eventsEnabled i e = Some e' ->
  sourceBlock_ (field e') = sourceBlock_ (field e).
Proof.
  unfold key_MOUSEDOWN. intros H.
  destruct (tags e !! i) as [freq |]; [| discriminate].
  destruct (backgroundColor e !! i); [| discriminate].
  pose proof (setValue_block (Some freq)
                (with_soundingKeys_ (S (soundingKeys_ (field e))) (field e)))
    as Hv.
  destruct (setValue rt eventsEnabled (Some freq) _) as [f2 evs].
  cbn [fst] in Hv.
  assert (Hf : field e' = setText rt (Some freq) f2)
    by (injection H as <-; reflexivity).
  rewrite Hf, setText_block. exact Hv.
Qed.

Lemma showEditor__spec (o : Opening) (e : Editor) :
  (nKeys_ (field e) <= length (noteFreq_ (field e)))%nat ->
  sourceBlock_ (field e) <> None ->
  exists e',
    showEditor_ rt o e = Some e'
    /\ soundingKeys_ (field e') = 0%nat
    /\ nKeys_ (field e') = nKeys_ (field e)
    /\ noteFreq_ (field e') = noteFreq_ (field e)
    /\ audio e' = audio e
    /\ timeouts e' = timeouts e
    /\ length (tags e') = nKeys_ (field e)
    /\ length (backgroundColor e') = nKeys_ (field e).
Proof.
  intros Hlen Hblk. unfold showEditor_.
  pose proof (showEditor_sizes_frame (windowSize o) (editorWidth o)
                (opt_quietInput o) (uaMobile o)
                (with_text_ (getText rt (field e)) (field e)))
    as (Hs & Hn & Hf).
  pose proof (showEditor_sizes_block (windowSize o) (editorWidth o)
                (opt_quietInput o) (uaMobile o)
                (with_text_ (getText rt (field e)) (field e))) as Hb.
  destruct (showEditor_sizes (windowSize o) (editorWidth o) (opt_quietInput o)
              (uaMobile o) (with_text_ (getText rt (field e)) (field e)))
    as [[pagination mobile] f1].
  cbn [snd] in Hs, Hn, Hf, Hb.
  cbn [nKeys_ noteFreq_ sourceBlock_ with_text_] in Hn, Hf, Hb.
  rewrite (bool_decide_eq_false_2 (sourceBlock_ f1 = None))
    by (rewrite Hb; exact Hblk).
  rewrite andb_false_r.
  destruct (renderKeys_Some f1 (nKeys_ f1) 0 [] [] None None)
    as (tg & cols & s & p & Hr & Ht & Hc); [rewrite Hn, Hf; exact Hlen|].
  rewrite Hr. eexists. split; [reflexivity|].
  cbn [field audio timeouts tags backgroundColor].
  rewrite <- Hn. repeat split; assumption.
Qed.

(** A key goes down: the tone service is stopped and started on the
    frequency of the key, the counter goes up by one, and a time-out that
    holds the new count is pending. *)
Lemma key_MOUSEDOWN_spec (i : nat) (e : Editor) :
  (i < length (tags e))%nat -> (i < length (backgroundColor e))%nat ->
  exists e' tag,
    tags e !! i = Some tag
    /\ key_MOUSEDOWN rt eventsEnabled i e = Some e'
    /\ soundingKeys_ (field e') = S (soundingKeys_ (field e))
    /\ nKeys_ (field e') = nKeys_ (field e)
    /\ noteFreq_ (field e') = noteFreq_ (field e)
    /\ audio e'
       = AudioContextManager.tone (ToNumber rt tag) 1
           (AudioContextManager.stop (audio e))
    /\ timeouts e' = timeouts e ++ [S (soundingKeys_ (field e))]
    /\ tags e' = tags e
    /\ length (backgroundColor e') = length (backgroundColor e).
Proof.
  intros Ht Hc. unfold key_MOUSEDOWN.
  destruct (lookup_lt_is_Some_2 (tags e) i Ht) as [tag Htag].
  destruct (lookup_lt_is_Some_2 (backgroundColor e) i Hc) as [col Hcol].
  rewrite Htag, Hcol.
  pose proof (setValue_frame (Some tag)
                (with_soundingKeys_ (S (soundingKeys_ (field e))) (field e)))
    as (Hs & Hn & Hf).
  destruct (setValue rt eventsEnabled (Some tag)
              (with_soundingKeys_ (S (soundingKeys_ (field e))) (field e)))
    as [f2 evs].
  cbn [fst] in Hs, Hn, Hf.
  pose proof (setText_frame (Some tag) f2) as (Hs' & Hn' & Hf').
  eexists _, tag. split; [reflexivity|]. split; [reflexivity|].
  cbn [field audio timeouts tags backgroundColor].
  rewrite Hs', Hn', Hf', Hs, Hn, Hf.
  repeat split.
  rewrite length_insert. destruct (currentSelectedKey e);
    [rewrite length_insert|]; reflexivity.
Qed.

(** The time-out stops the tone exactly when the counter still holds the
    count it captured. *)
Lemma key_timeout_spec (cnt : nat) (e : Editor) :
  cnt ∈ timeouts e ->
  exists e',
    key_timeout cnt e = Some e'
    /\ field e' = field e
    /\ timeouts e' = removeFirst cnt (timeouts e)
    /\ audio e'
       = if (soundingKeys_ (field e) =? cnt)%nat
         then AudioContextManager.stop (audio e) else audio e.
Proof.
  intros Hin. unfold key_timeout. rewrite bool_decide_eq_true_2 by exact Hin.
  eexists. repeat split.
Qed.

(** Key [i] goes down, the editor is opened again, key [j] goes down, and
    the time-out of the first key fires: it finds the counter at 1, the
    count it captured, and stops the tone of the second key, whose own
    time-out is still pending. *)
Lemma reopened_editor_time_out (f : t) (a : AudioContextManager.t)
  (o o' : Opening) (i j : nat) :
  (nKeys_ f <= length (noteFreq_ f))%nat ->
  sourceBlock_ f <> None ->
  (i < nKeys_ f)%nat -> (j < nKeys_ f)%nat ->
  exists e3 e4 e5 tagX tagY,
    run rt eventsEnabled [ShowEditor o; KeyDown i; ShowEditor o']
      (closedEditor f a)
    = Some e3
    /\ audio e3
       = AudioContextManager.tone (ToNumber rt tagX) 1
           (AudioContextManager.stop a)
    /\ tags e3 !! j = Some tagY
    /\ step rt eventsEnabled (KeyDown j) e3 = Some e4
    /\ soundingKeys_ (field e4) = 1%nat
    /\ timeouts e4 = [1%nat; 1%nat]
    /\ audio e4
       = AudioContextManager.tone (ToNumber rt tagY) 1
           (AudioContextManager.stop (audio e3))
    /\ step rt eventsEnabled (TimeoutFires 1) e4 = Some e5
    /\ audio e5 = AudioContextManager.stop (audio e4)
    /\ timeouts e5 = [1%nat]
    /\ (forall fr, noteFreq_ f !! j = Some fr -> tagY = ToString rt fr).
Proof.
  intros Hlen Hblk Hi Hj.
  destruct (showEditor__spec o (closedEditor f a) Hlen Hblk)
    as (e1 & H1 & Hs1 & Hn1 & Hf1 & Ha1 & Ht1 & Hg1 & Hc1).
  cbn [field closedEditor timeouts] in Hn1, Hf1, Ht1, Hg1, Hc1.
  destruct (key_MOUSEDOWN_spec i e1) as
    (e2 & tagX & _ & H2 & Hs2 & Hn2 & Hf2 & Ha2 & Ht2 & Hg2 & Hc2);
    [lia | lia |].
  destruct (showEditor__spec o' e2) as
    (e3 & H3 & Hs3 & Hn3 & Hf3 & Ha3 & Ht3 & Hg3 & Hc3);
    [rewrite Hn2, Hf2, Hn1, Hf1; exact Hlen
    |rewrite (key_MOUSEDOWN_block i e1 e2 H2),
       (showEditor__block o _ e1 H1); exact Hblk|].
  destruct (key_MOUSEDOWN_spec j e3) as
    (e4 & tagY & Htag & H4 & Hs4 & Hn4 & Hf4 & Ha4 & Ht4 & Hg4 & Hc4);
    [rewrite Hg3, Hn2, Hn1; exact Hj | rewrite Hc3, Hn2, Hn1; exact Hj |].
  assert (Ht4' : timeouts e4 = [1%nat; 1%nat]).
  { rewrite Ht4, Ht3, Ht2, Ht1, Hs3, Hs1. reflexivity. }
  destruct (key_timeout_spec 1 e4) as (e5 & H5 & _ & Ht5 & Ha5).
  { rewrite Ht4'. apply list_elem_of_here. }
  exists e3, e4, e5, tagX, tagY.
  split. { cbn [run step]. rewrite H1, H2, H3. reflexivity. }
  split. { rewrite Ha3, Ha2, Ha1. reflexivity. }
  split; [exact Htag|]. split; [exact H4|].
  split. { rewrite Hs4, Hs3. reflexivity. }
  split; [exact Ht4'|]. split; [exact Ha4|]. split; [exact H5|].
  split; [rewrite Ha5, Hs4, Hs3; reflexivity|].
  split; [rewrite Ht5, Ht4'; reflexivity|].
  intros fr Hfr.
  assert (Hy : tags e3 !! j = Some (ToString rt fr)).
  { apply (showEditor__tag o' e2 e3 j fr H3).
    - rewrite Hn2, Hn1. exact Hj.
    - rewrite Hf2, Hf1. exact Hfr. }
  congruence.
Qed.

(** While the editor stays open the counter only grows: after the actions
    [l], none of which opens the editor, it has grown by the number of keys
    that went down. *)
Lemma counter_within_session (l : list action) :
  forall e e',
    staysOpen l = true ->
    run rt eventsEnabled l e = Some e' ->
    soundingKeys_ (field e') = (soundingKeys_ (field e) + keysDown l)%nat.
Proof.
  induction l as [|a l IH]; intros e e' Hno Hrun.
  - cbn in Hrun. injection Hrun as <-. cbn. lia.
  - cbn [run] in Hrun. destruct (step rt eventsEnabled a e) as [e1|] eqn:H1;
      [|discriminate].
    cbn [staysOpen forallb] in Hno. apply andb_true_iff in Hno as [Ha Hno'].
    specialize (IH e1 e' Hno' Hrun). rewrite IH.
    destruct a as [o|i|cnt].
    + discriminate.
    + cbn [step] in H1. unfold key_MOUSEDOWN in H1.
      destruct (tags e !! i) as [tag|]; [|discriminate].
      destruct (backgroundColor e !! i) as [col|]; [|discriminate].
      pose proof (setValue_frame (Some tag)
                    (with_soundingKeys_ (S (soundingKeys_ (field e))) (field e)))
        as (Hs & _ & _).
      destruct (setValue rt eventsEnabled (Some tag)
                  (with_soundingKeys_ (S (soundingKeys_ (field e))) (field e)))
        as [f2 evs].
      cbn [fst] in Hs.
      pose proof (setText_frame (Some tag) f2) as (Hs' & _ & _).
      unfold setText in Hs'.
      injection H1 as <-. cbn [field keysDown]. rewrite Hs', Hs. cbn. lia.
    + cbn [step] in H1. unfold key_timeout in H1.
      destruct (bool_decide (cnt ∈ timeouts e)); [|discriminate].
      injection H1 as <-. cbn [field keysDown]. reflexivity.
Qed.

(** The guard, while the editor stays open: key X goes down, then, with
    further keys and time-outs in any order but at least one more key Y, the
    time-out of X fires and leaves the tone service as it finds it. *)
Lemma time_out_guard_within_session (x : nat) (l : list action) (e eX e1 e2 : Editor) :
  key_MOUSEDOWN rt eventsEnabled x e = Some eX ->
  staysOpen l = true -> (0 < keysDown l)%nat ->
  run rt eventsEnabled l eX = Some e1 ->
  key_timeout (soundingKeys_ (field eX)) e1 = Some e2 ->
  audio e2 = audio e1.
Proof.
  intros HX Hno Hkeys Hrun Hfire.
  pose proof (counter_within_session l eX e1 Hno Hrun) as Hcount.
  unfold key_timeout in Hfire.
  destruct (bool_decide _); [|discriminate].
  injection Hfire as <-. cbn [audio].
  destruct (Nat.eqb_spec (soundingKeys_ (field e1)) (soundingKeys_ (field eX)));
    [lia | reflexivity].
Qed.

(** The editor is opened, key [x] goes down, key [y] goes down: the
    time-out of [x] is pending and can fire. *)
Lemma two_keys_then_time_out (f : t) (a : AudioContextManager.t)
  (o : Opening) (x y : nat) :
  (nKeys_ f <= length (noteFreq_ f))%nat ->
  sourceBlock_ f <> None ->
  (x < nKeys_ f)%nat -> (y < nKeys_ f)%nat ->
  exists e0 eX e1 e2,
    run rt eventsEnabled [ShowEditor o] (closedEditor f a) = Some e0
    /\ key_MOUSEDOWN rt eventsEnabled x e0 = Some eX
    /\ run rt eventsEnabled [KeyDown y] eX = Some e1
    /\ key_timeout (soundingKeys_ (field eX)) e1 = Some e2.
Proof.
  intros Hlen Hblk Hx Hy.
  destruct (showEditor__spec o (closedEditor f a) Hlen Hblk)
    as (e0 & H0 & Hs0 & Hn0 & Hf0 & Ha0 & Ht0 & Hg0 & Hc0).
  cbn [field closedEditor timeouts] in Hn0, Hf0, Ht0, Hg0, Hc0.
  destruct (key_MOUSEDOWN_spec x e0) as
    (eX & tagX & _ & HX & HsX & HnX & HfX & HaX & HtX & HgX & HcX);
    [lia | lia |].
  destruct (key_MOUSEDOWN_spec y eX) as
    (e1 & tagY & _ & H1 & Hs1 & Hn1 & Hf1 & Ha1 & Ht1 & Hg1 & Hc1);
    [rewrite HgX; lia | rewrite HcX; lia |].
  destruct (key_timeout_spec (soundingKeys_ (field eX)) e1) as
    (e2 & H2 & _ & _ & _).
  { rewrite Ht1, HtX. apply elem_of_app. left.
    apply elem_of_app. right. rewrite HsX. apply list_elem_of_here. }
  exists e0, eX, e1, e2.
  split. { cbn [run step]. rewrite H0. reflexivity. }
  split; [exact HX|]. split; [|exact H2].
  cbn [run step]. rewrite H1. reflexivity.
Qed.

(** The guard while the editor stays open.  Key [x] (X) goes down; then,
    in any order, further keys go down and time-outs fire, at least one key
    (Y) among them, and the editor is not opened anew; when the time-out of
    X then fires, it leaves the tone service as it finds it. *)
Theorem time_out_guard_while_open :
  forall (x : nat) (l : list action) (e eX e1 e2 : Editor),
    key_MOUSEDOWN rt eventsEnabled x e = Some eX ->
    staysOpen l = true -> (0 < keysDown l)%nat ->
    run rt eventsEnabled l eX = Some e1 ->
    key_timeout (soundingKeys_ (field eX)) e1 = Some e2 ->
    audio e2 = audio e1 /\ field e2 = field e1.
Proof.
  intros x l e eX e1 e2 HX Hopen Hkeys Hrun Hfire.
  split; [exact (time_out_guard_within_session x l e eX e1 e2 HX Hopen Hkeys Hrun Hfire)|].
  unfold key_timeout in Hfire. destruct (bool_decide _); [|discriminate].
  injection Hfire as <-. reflexivity.
Qed.

End StaleTimer.

(** ** The tone service *)

Section Tones.

Import AudioContextManager.

Lemma stop_is_silent (a : AudioContextManager.t) :
  ~ sounding (stop a) /\ _frequency (stop a) = Fin 0.
Proof.
  split; [|reflexivity]. intros (g & Hg & Hne). unfold stop in Hg. cbn in Hg.
  destruct (_vca a); [|discriminate]. injection Hg as <-. apply Hne. reflexivity.
Qed.

Lemma stop_keeps_switches (a : AudioContextManager.t) :
  _mute (stop a) = _mute a
  /\ hasContext (stop a) = hasContext a
  /\ canCreate (stop a) = canCreate a.
Proof. repeat split. Qed.

Lemma tone_keeps_switches (fr : jsnum) (g : R) (a : AudioContextManager.t) :
  _mute (tone fr g a) = _mute a
  /\ hasContext (tone fr g a) = hasContext a
  /\ canCreate (tone fr g a) = canCreate a.
Proof.
  unfold tone.
  destruct (_mute a) eqn:Hm; [repeat split; cbn; congruence|].
  destruct (le fr (Fin 0)); [repeat split; cbn; congruence|].
  destruct (negb (hasContext a)); [repeat split; cbn; congruence|].
  destruct (_vco a); [|destruct (canCreate a) eqn:Hc];
    repeat split; cbn; congruence.
Qed.

(** A tone of a positive frequency at gain 1 sounds, where the service is
    not muted and the audio nodes can be had. *)
Lemma tone_sounds (fr : jsnum) (a : AudioContextManager.t) :
  _mute a = false -> hasContext a = true -> canCreate a = true ->
  le fr (Fin 0) = false ->
  sounding (tone fr 1 a) /\ _frequency (tone fr 1 a) = fr.
Proof.
  intros Hm Hctx Hc Hfr. unfold tone. rewrite Hm, Hfr, Hctx, Hc. cbn [negb].
  assert (Hg : Rmax 0 (Rmin 1 1) = 1%R).
  { unfold Rmin. destruct (Rle_dec 1 1); unfold Rmax;
      destruct (Rle_dec 0 1); lra. }
  destruct (_vco a); cbn; (split; [|reflexivity]);
    exists (Rmax 0 (Rmin 1 1)); (split; [reflexivity | rewrite Hg; lra]).
Qed.

End Tones.

(** ** The stale time-out after the editor was opened again *)

Section StaleTimerAtWork.

Import Ref FieldNote.

Lemma mediumField_ready (s : string) :
  (nKeys_ (mediumField s) <= length (noteFreq_ (mediumField s)))%nat.
Proof.
  rewrite nKeys_mediumField.
  assert (H : is_Some (noteFreq_ (mediumField s) !! 35%nat)).
  { rewrite mediumField_frequency. eexists. reflexivity. }
  apply lookup_lt_is_Some_1 in H. lia.
Qed.

(** The piano of a field on a block is the piano of a field without. *)
Lemma mediumFieldOn_frequencies (b : Block) (s : string) :
  noteFreq_ (mediumFieldOn b s) = noteFreq_ (mediumField s).
Proof.
  unfold mediumFieldOn, mediumField.
  destruct (createNotesArray_spec (fresh s "" "note" (Some b)) 28
              (Some "Low"%string) eq_refl eq_refl eq_refl) as (-> & _ & _).
  destruct (createNotesArray_spec (fresh s "" "note" None) 28
              (Some "Low"%string) eq_refl eq_refl eq_refl) as (-> & _ & _).
  reflexivity.
Qed.

Lemma nKeys_mediumFieldOn (b : Block) (s : string) :
  nKeys_ (mediumFieldOn b s) = 36%nat.
Proof. reflexivity. Qed.

Lemma mediumFieldOn_block (b : Block) (s : string) :
  sourceBlock_ (mediumFieldOn b s) <> None.
Proof.
  assert (H : sourceBlock_ (mediumFieldOn b s) = Some b) by reflexivity.
  rewrite H. discriminate.
Qed.

Lemma mediumFieldOn_ready (b : Block) (s : string) :
  (nKeys_ (mediumFieldOn b s) <= length (noteFreq_ (mediumFieldOn b s)))%nat.
Proof.
  rewrite nKeys_mediumFieldOn, mediumFieldOn_frequencies.
  pose proof (mediumField_ready s) as H.
  rewrite nKeys_mediumField in H. exact H.
Qed.

(** Key 21 of the medium piano is the A of 440 Hz, and its tag reads
    "440". *)
Lemma key_21_is_440 (b : Block) (s : string) :
  noteFreq_ (mediumFieldOn b s) !! 21%nat = Some (Fin (IZR 440)).
Proof.
  rewrite mediumFieldOn_frequencies, mediumField_frequency.
  rewrite bool_decide_eq_true_2 by lia.
  change (28 + Z.of_nat 21) with 49.
  replace ((IZR 49 - 49) / 12)%R with 0%R by lra.
  rewrite Rpower_O by lra. rewrite Rmult_1_l. reflexivity.
Qed.

Lemma tag_440 :
  ToString refBuiltins (Fin (IZR 440)) = "440"%string
  /\ ToNumber refBuiltins "440" = Fin (IZR 440).
Proof.
  split.
  - cbn [ToString refBuiltins]. rewrite ref_ToString_integer. reflexivity.
  - cbn [ToNumber refBuiltins]. unfold ref_ToNumber.
    change (numberLiteral "440") with (Some (LDec false 440 0)).
    reflexivity.
Qed.

(** Without a block, and off a mobile, the editor does not open: reading
    the direction of the block raises. *)
Lemma showEditor__without_block (rt : Builtins) (o : Opening) (e : Editor) :
  sourceBlock_ (field e) = None -> uaMobile o = false ->
  showEditor_ rt o e = None.
Proof.
  intros Hb Hm. unfold showEditor_.
  pose proof (showEditor_sizes_block (windowSize o) (editorWidth o)
                (opt_quietInput o) (uaMobile o)
                (with_text_ (getText rt (field e)) (field e))) as Hs.
  unfold showEditor_sizes in *. rewrite Hm in *. rewrite andb_false_r in *.
  cbn [snd] in Hs. cbn [negb andb]. rewrite Hs. cbn [sourceBlock_ with_text_].
  rewrite Hb. reflexivity.
Qed.

(** C4, at the failing input.  A note field on a block, with the medium
    piano and the tone service available: the editor is opened, key 0 (X)
    goes down, the editor is opened again, key 21 (Y, the A of 440 Hz)
    goes down, and the time-out of X fires.  The second opening has set
    the counter back to 0, so Y captured the count 1 that X had captured.
    The tone of Y is sounding at 440 Hz when the time-out of X finds its
    count and stops the tone service, while the time-out of Y is still
    pending. *)
Theorem stale_time_out_stops_later_tone :
  exists e3 e4 e5,
    run refBuiltins true [ShowEditor desktop; KeyDown 0; ShowEditor desktop]
      (closedEditor (mediumFieldOn ltrBlock "440")
         (AudioContextManager.initial true true))
    = Some e3
    /\ tags e3 !! 21%nat = Some "440"%string
    /\ step refBuiltins true (KeyDown 21) e3 = Some e4
    /\ soundingKeys_ (field e4) = 1%nat
    /\ timeouts e4 = [1%nat; 1%nat]
    /\ AudioContextManager.sounding (audio e4)
    /\ AudioContextManager.frequency (audio e4) = Fin (IZR 440)
    /\ step refBuiltins true (TimeoutFires 1) e4 = Some e5
    /\ audio e5 = AudioContextManager.stop (audio e4)
    /\ ~ AudioContextManager.sounding (audio e5)
    /\ AudioContextManager.frequency (audio e5) = Fin 0
    /\ timeouts e5 = [1%nat].
Proof.
  destruct (reopened_editor_time_out refBuiltins true
              (mediumFieldOn ltrBlock "440")
              (AudioContextManager.initial true true) desktop desktop 0 21
              (mediumFieldOn_ready ltrBlock "440")
              (mediumFieldOn_block ltrBlock "440"))
    as (e3 & e4 & e5 & tagX & tagY & H3 & Ha3 & Htag & H4 & Hs4 & Ht4 & Ha4
        & H5 & Ha5 & Ht5 & Hy);
    [rewrite nKeys_mediumFieldOn; lia | rewrite nKeys_mediumFieldOn; lia |].
  destruct tag_440 as (Hprint & Hread).
  assert (HY : tagY = "440"%string).
  { rewrite (Hy _ (key_21_is_440 ltrBlock "440")). exact Hprint. }
  subst tagY. rewrite Hread in Ha4.
  assert (Hsound : AudioContextManager.sounding (audio e4)
                   /\ AudioContextManager._frequency (audio e4) = Fin (IZR 440)).
  { rewrite Ha4, Ha3.
    pose proof (stop_keeps_switches
                  (AudioContextManager.tone (ToNumber refBuiltins tagX) 1
                     (AudioContextManager.stop
                        (AudioContextManager.initial true true))))
      as (Hm & Hc & Hn).
    pose proof (tone_keeps_switches (ToNumber refBuiltins tagX) 1
                  (AudioContextManager.stop
                     (AudioContextManager.initial true true)))
      as (Hm' & Hc' & Hn').
    apply tone_sounds.
    - rewrite Hm, Hm'. reflexivity.
    - rewrite Hc, Hc'. reflexivity.
    - rewrite Hn, Hn'. reflexivity.
    - cbn [le]. unfold Rleb. destruct (Rle_dec (IZR 440) 0) as [H|H];
        [exfalso; lra | reflexivity]. }
  exists e3, e4, e5.
  split; [exact H3|]. split; [exact Htag|]. split; [exact H4|].
  split; [exact Hs4|]. split; [exact Ht4|].
  split; [exact (proj1 Hsound)|]. split; [exact (proj2 Hsound)|].
  split; [exact H5|]. split; [exact Ha5|].
  split; [rewrite Ha5; apply stop_is_silent|].
  split; [rewrite Ha5; apply stop_is_silent|exact Ht5].
Qed.

(** The guard at work on the medium piano: the editor is opened, key 0
    goes down, key 12 goes down, and the time-out of key 0 fires; the tone
    of key 12 goes on. *)
Lemma time_out_guard_while_open_witness :
  exists e0 eX e1 e2,
    run refBuiltins true [ShowEditor desktop]
      (closedEditor (mediumFieldOn ltrBlock "440")
         (AudioContextManager.initial true true))
    = Some e0
    /\ key_MOUSEDOWN refBuiltins true 0 e0 = Some eX
    /\ run refBuiltins true [KeyDown 12] eX = Some e1
    /\ key_timeout (soundingKeys_ (field eX)) e1 = Some e2
    /\ audio e2 = audio e1.
Proof.
  destruct (two_keys_then_time_out refBuiltins true
              (mediumFieldOn ltrBlock "440")
              (AudioContextManager.initial true true) desktop 0 12
              (mediumFieldOn_ready ltrBlock "440")
              (mediumFieldOn_block ltrBlock "440"))
    as (e0 & eX & e1 & e2 & H0 & HX & Hrun & H2);
    [rewrite nKeys_mediumFieldOn; lia | rewrite nKeys_mediumFieldOn; lia |].
  exists e0, eX, e1, e2.
  split; [exact H0|]. split; [exact HX|]. split; [exact Hrun|].
  split; [exact H2|].
  exact (proj1 (time_out_guard_while_open refBuiltins true 0 [KeyDown 12]
                  e0 eX e1 e2 HX eq_refl (Nat.lt_0_succ 0) Hrun H2)).
Defined.

End StaleTimerAtWork.

(** * Further properties of the code *)

(** ** The tone service under any run of calls *)

Section ToneService.

Import AudioContextManager.

(** What a muted service keeps: no reported frequency, no gain. *)
Lemma muted_kept (v : option jsnum) (c : call) (a : AudioContextManager.t) :
  (match c with Mute false => false | _ => true end) = true ->
  _mute a = true /\ _frequency a = Fin 0
  /\ (_vca a = None \/ _vca a = Some 0%R) /\ _vco a = v ->
  _mute (perform c a) = true /\ _frequency (perform c a) = Fin 0
  /\ (_vca (perform c a) = None \/ _vca (perform c a) = Some 0%R)
  /\ _vco (perform c a) = v.
Proof.
  intros Hc (Hm & Hf & Hg & Hv).
  destruct c as [| [|] | fr g]; try discriminate Hc; cbn.
  - repeat split; try assumption.
    destruct Hg as [-> | ->]; [left | right]; reflexivity.
  - repeat split; try assumption.
    destruct Hg as [-> | ->]; [left | right]; reflexivity.
  - unfold tone. rewrite Hm. repeat split; assumption.
Qed.

(** X2.  Once [mute(true)] was called, and until [mute(false)] is, no call
    makes a sound: whatever is stopped or played, no tone is sounding,
    [frequency()] is 0 and the frequency of the oscillator is the one it had. *)
Theorem muted_service_stays_silent :
  forall (a : AudioContextManager.t) (l : list call),
    staysMuted l = true ->
    let a' := performAll l (mute true a) in
    ~ sounding a'
    /\ frequency a' = Fin 0
    /\ _mute a' = true
    /\ _vco a' = _vco a.
Proof.
  intros a l Hl a'.
  assert (H : _mute a' = true /\ _frequency a' = Fin 0
              /\ (_vca a' = None \/ _vca a' = Some 0%R) /\ _vco a' = _vco a).
  { subst a'.
    assert (H0 : _mute (mute true a) = true /\ _frequency (mute true a) = Fin 0
                 /\ (_vca (mute true a) = None \/ _vca (mute true a) = Some 0%R)
                 /\ _vco (mute true a) = _vco a).
    { cbn. repeat split. destruct (_vca a); [right | left]; reflexivity. }
    revert H0. generalize (mute true a) as b. revert Hl.
    induction l as [| c r IH]; intros Hl b Hb; [exact Hb |].
    cbn in Hl. apply andb_prop in Hl as [Hc Hr].
    cbn [performAll]. apply IH; [exact Hr |].
    apply muted_kept; assumption. }
  destruct H as (Hm & Hf & Hg & Hv).
  repeat split; try assumption.
  intros (g & Hs & Hne).
  destruct Hg as [Hg | Hg]; rewrite Hg in Hs; [discriminate |].
  injection Hs as <-. apply Hne. reflexivity.
Qed.

Lemma nodes_kept_stop (m : bool) (a : AudioContextManager.t) :
  nodesInv a ->
  nodesInv (stop {| _frequency := _frequency a; _mute := m; _vco := _vco a;
                    _vca := _vca a; hasContext := hasContext a;
                    canCreate := canCreate a |}).
Proof.
  intros (Hp & Hb & Hc & Hs). unfold nodesInv. cbn.
  split; [| split; [| split]].
  - rewrite Hp. destruct (_vca a); [split; eauto |].
    split; intros [? ?]; discriminate.
  - intros g H. destruct (_vca a); [| discriminate]. injection H as <-. lra.
  - intros H. rewrite (Hc H). reflexivity.
  - intros g H Hne. destruct (_vca a); [| discriminate].
    injection H as <-. contradiction.
Qed.

Lemma nodes_kept_tone (fr : jsnum) (g0 : R) (a : AudioContextManager.t) :
  nodesInv a -> nodesInv (tone fr g0 a).
Proof.
  intros Ha. pose proof Ha as (Hp & Hb & Hc & Hs).
  assert (Hg : (0 <= Rmax 0 (Rmin 1 g0) <= 1)%R).
  { split; [apply Rmax_l |]. apply Rmax_lub; [lra | apply Rmin_l]. }
  assert (Hnew : forall v : jsnum,
    nodesInv {| _frequency := v; _mute := false; _vco := Some v;
                _vca := Some (Rmax 0 (Rmin 1 g0));
                hasContext := true; canCreate := canCreate a |}).
  { intros v. unfold nodesInv. cbn. split; [| split; [| split]].
    - split; eauto.
    - intros g H. injection H as <-. exact Hg.
    - intros; discriminate.
    - intros g _ _. split; reflexivity. }
  pose (P := nodesInv). change (P (tone fr g0 a)). change (P a) in Ha.
  unfold tone.
  destruct (_mute a) eqn:Hm; [exact Ha |].
  destruct (le fr (Fin 0)); [exact Ha |].
  destruct (hasContext a) eqn:Hctx; cbn [negb].
  - destruct (_vco a) eqn:Hvco; [apply Hnew |].
    destruct (canCreate a) eqn:Hcc; [apply Hnew |].
    subst P. unfold nodesInv. cbn. split; [| split; [| split]].
    + split; intros [? ?]; discriminate.
    + intros; discriminate.
    + reflexivity.
    + intros; discriminate.
  - subst P. unfold nodesInv. cbn. rewrite (Hc eq_refl).
    split; [| split; [| split]].
    + rewrite Hp. rewrite (Hc eq_refl). reflexivity.
    + intros; discriminate.
    + reflexivity.
    + intros; discriminate.
Qed.

Lemma nodes_kept (c : call) (a : AudioContextManager.t) :
  nodesInv a -> nodesInv (perform c a).
Proof.
  intros Ha. destruct c as [| m | fr g0]; cbn [perform].
  - pose proof (nodes_kept_stop (_mute a) a Ha) as H. exact H.
  - exact (nodes_kept_stop m a Ha).
  - exact (nodes_kept_tone fr g0 a Ha).
Qed.

(** X3.  From the first state of the service, whatever is called: the
    oscillator and the gain node exist together (so [tone] never reads a
    node that is missing), the gain is between 0 and 1, and while a tone is
    sounding the service is not muted and [frequency()] is the frequency of
    the oscillator. *)
Theorem tone_nodes_stay_consistent :
  forall (ctx create : bool) (l : list call),
    let a := performAll l (initial ctx create) in
    (is_Some (_vco a) <-> is_Some (_vca a))
    /\ (forall g, _vca a = Some g -> (0 <= g <= 1)%R)
    /\ (sounding a -> _mute a = false /\ _vco a = Some (frequency a)).
Proof.
  intros ctx create l a.
  assert (H : nodesInv a).
  { subst a.
    assert (H0 : nodesInv (initial ctx create)).
    { unfold nodesInv. cbn. repeat split; try (intros; discriminate);
        try (intros [? ?]; discriminate). }
    revert H0. generalize (initial ctx create) as b.
    induction l as [| c r IH]; intros b Hb; [exact Hb |].
    cbn [performAll]. apply IH. apply nodes_kept. exact Hb. }
  destruct H as (Hp & Hb & _ & Hs).
  split; [exact Hp | split; [exact Hb |]].
  intros (g & Hg & Hne). exact (Hs g Hg Hne).
Qed.

End ToneService.

(** X2, witness: the service is sounding at 440 Hz when it is muted; a tone
    at 880 Hz and a stop follow. *)
Lemma muted_service_stays_silent_witness :
  AudioContextManager.staysMuted
    [AudioContextManager.Tone (Fin 880) 1; AudioContextManager.Stop] = true
  /\ AudioContextManager.frequency
       (AudioContextManager.performAll
          [AudioContextManager.Tone (Fin 880) 1; AudioContextManager.Stop]
          (AudioContextManager.mute true
             (AudioContextManager.tone (Fin 440) 1
                (AudioContextManager.initial true true)))) = Fin 0.
Proof.
  split; [reflexivity |].
  refine (proj1 (proj2 (muted_service_stays_silent _ _ _))).
  reflexivity.
Defined.


(** ** Turning the pages of the piano back and forth *)

Section PagerRoundTrip.

Local Open Scope nat_scope.

Import FieldNote.

Lemma hovers_keep_the_page (f : FieldNote.t) (N : nat) (hovers : list nat) :
  forall p : Pager,
    pagerInv N p ->
    exists p',
      pagerRun f (map HoverKey hovers) p = Some p'
      /\ pagerInv N p'
      /\ currentPage p' = currentPage p.
Proof.
  induction hovers as [| i r IH]; intros p Hp.
  - exists p. split; [reflexivity | split; [exact Hp | reflexivity]].
  - cbn [map pagerRun pagerStep].
    destruct (IH (key_MOUSEOVER f i p)) as (p' & Hrun & Hinv & Hpage).
    { destruct Hp as (H1 & H2 & H3). repeat split; assumption. }
    exists p'. split; [exact Hrun | split; [exact Hinv | exact Hpage]].
Qed.

(** X4.  On a paginated piano that shows the octave label, also when keys
    were hovered in between, which writes their names on the label.  Away
    from the last page, the next button followed by the previous button
    brings back the same page, the same visible keys and the same label;
    away from the first page, so does the previous button followed by the
    next.  At the ends the round trip fails: on the last page the next
    button turns no page, so that what follows is the previous button
    alone and ends one page before; on the first page the previous button
    turns no page, and what follows ends on the second page.  (With a
    single page both buttons leave it.) *)
Theorem next_and_previous_cancel :
  forall (f : FieldNote.t) (N : nat) (p : Pager) (hovers : list nat),
    pagerInv N p ->
    labelText p = octaveLabel (currentPage p) ->
    (currentPage p + 1 < N ->
       pagerRun f (NextPage :: map HoverKey hovers ++ [PreviousPage]) p = Some p)
    /\ (0 < currentPage p ->
       pagerRun f (PreviousPage :: map HoverKey hovers ++ [NextPage]) p = Some p)
    /\ (currentPage p + 1 = N ->
        pagerRun f (NextPage :: map HoverKey hovers ++ [PreviousPage]) p
        = pagerRun f [PreviousPage] p
        /\ exists q,
             pagerRun f [PreviousPage] p = Some q
             /\ currentPage q = currentPage p - 1
             /\ (0 < currentPage p -> q <> p))
    /\ (currentPage p = 0 ->
        pagerRun f (PreviousPage :: map HoverKey hovers ++ [NextPage]) p
        = pagerRun f [NextPage] p
        /\ exists q,
             pagerRun f [NextPage] p = Some q
             /\ currentPage q = (if N =? 1 then 0 else 1)
             /\ (1 < N -> q <> p)).
Proof.
  intros f N p hovers Hp Hl.
  assert (Hrun : forall l1 l2 q,
            pagerRun f (l1 ++ l2) q
            = match pagerRun f l1 q with
              | Some q' => pagerRun f l2 q'
              | None => None
              end).
  { induction l1 as [| a r IH]; intros l2 q; [reflexivity |].
    cbn [app pagerRun]. destruct (pagerStep f a q); [apply IH | reflexivity]. }
  assert (Hp' := Hp). destruct Hp' as (HN & Hlt & Hvis).
  split; [|split; [|split]]; intros Hc.
  - cbn [pagerRun pagerStep].
    pose proof (nextButton_spec N p Hp) as Hn. cbn zeta in Hn.
    rewrite bool_decide_eq_false_2 in Hn by lia. rewrite Hn.
    match goal with |- context [pagerRun f _ ?q] => set (p1 := q) end.
    assert (Hp1 : pagerInv N p1).
    { subst p1. split; [reflexivity | split; [cbn; lia | reflexivity]]. }
    rewrite Hrun.
    destruct (hovers_keep_the_page f N hovers p1 Hp1) as (p2 & -> & Hp2 & Hpage).
    cbn [pagerRun pagerStep].
    rewrite (prevButton_spec N p2 Hp2). rewrite Hpage. subst p1. cbn.
    replace (currentPage p + 1 - 1) with (currentPage p) by lia.
    destruct p as [c n v l]. cbn in *. subst. reflexivity.
  - cbn [pagerRun pagerStep].
    rewrite (prevButton_spec N p Hp).
    match goal with |- context [pagerRun f _ ?q] => set (p1 := q) end.
    assert (Hp1 : pagerInv N p1).
    { subst p1. split; [reflexivity | split; [cbn; lia | reflexivity]]. }
    rewrite Hrun.
    destruct (hovers_keep_the_page f N hovers p1 Hp1) as (p2 & -> & Hp2 & Hpage).
    cbn [pagerRun pagerStep].
    pose proof (nextButton_spec N p2 Hp2) as Hn. cbn zeta in Hn.
    rewrite bool_decide_eq_false_2 in Hn
      by (rewrite Hpage; subst p1; cbn; lia).
    rewrite Hn. rewrite Hpage. subst p1. cbn.
    replace (currentPage p - 1 + 1) with (currentPage p) by lia.
    destruct p as [c n v l]. cbn in *. subst. reflexivity.
  - split.
    + cbn [pagerRun pagerStep].
      pose proof (nextButton_spec N p Hp) as Hn. cbn zeta in Hn.
      rewrite bool_decide_eq_true_2 in Hn by lia. rewrite Hn.
      match goal with |- context [pagerRun f _ ?q] => set (p1 := q) end.
      assert (Hp1 : pagerInv N p1).
      { subst p1. split; [reflexivity | split; [cbn; lia | reflexivity]]. }
      rewrite Hrun.
      destruct (hovers_keep_the_page f N hovers p1 Hp1)
        as (p2 & -> & Hp2 & Hpage).
      cbn [pagerRun pagerStep].
      rewrite (prevButton_spec N p2 Hp2), (prevButton_spec N p Hp), Hpage.
      subst p1. reflexivity.
    + cbn [pagerRun pagerStep]. rewrite (prevButton_spec N p Hp).
      eexists. split; [reflexivity|]. split; [reflexivity|].
      intros Hpos Heq. apply (f_equal currentPage) in Heq. cbn in Heq. lia.
  - split.
    + cbn [pagerRun pagerStep].
      rewrite (prevButton_spec N p Hp).
      match goal with |- context [pagerRun f _ ?q] => set (p1 := q) end.
      assert (Hp1 : pagerInv N p1).
      { subst p1. split; [reflexivity | split; [cbn; lia | reflexivity]]. }
      rewrite Hrun.
      destruct (hovers_keep_the_page f N hovers p1 Hp1)
        as (p2 & -> & Hp2 & Hpage).
      cbn [pagerRun pagerStep].
      pose proof (nextButton_spec N p2 Hp2) as Hn2. cbn zeta in Hn2.
      pose proof (nextButton_spec N p Hp) as Hn. cbn zeta in Hn.
      rewrite Hn2, Hn, Hpage. subst p1. cbn [currentPage].
      rewrite Hc. reflexivity.
    + cbn [pagerRun pagerStep].
      pose proof (nextButton_spec N p Hp) as Hn. cbn zeta in Hn.
      rewrite Hn, Hc. eexists. split; [reflexivity|]. cbn [currentPage].
      destruct (Nat.eqb_spec N 1) as [E|E].
      * rewrite bool_decide_eq_true_2 by lia. split; [reflexivity|]. lia.
      * rewrite bool_decide_eq_false_2 by lia. split; [reflexivity|].
        intros _ Heq. apply (f_equal currentPage) in Heq. cbn in Heq. lia.
Qed.

(** X4, witness: the medium piano, as [showEditor_] leaves it when it is
    paginated; key 3 is hovered between the two buttons.  From the first
    page, next and previous come back to it; previous and next end on the
    second page. *)
Lemma next_and_previous_cancel_witness :
  pagerRun (fresh "440" "" "note" None)
    [NextPage; HoverKey 3; PreviousPage]
    (showEditor_pager (fresh "440" "" "note" None))
  = Some (showEditor_pager (fresh "440" "" "note" None))
  /\ exists q,
       pagerRun (fresh "440" "" "note" None)
         [PreviousPage; HoverKey 3; NextPage]
         (showEditor_pager (fresh "440" "" "note" None))
       = Some q
       /\ currentPage q = 1.
Proof.
  assert (Hinv : pagerInv 3 (showEditor_pager (fresh "440" "" "note" None)))
    by (apply showEditor_pager_inv; [lia | reflexivity]).
  destruct (next_and_previous_cancel (fresh "440" "" "note" None) 3
              (showEditor_pager (fresh "440" "" "note" None)) [3] Hinv
              eq_refl)
    as (Hround & _ & _ & Hfirst).
  split.
  - apply Hround. cbn. lia.
  - destruct (Hfirst eq_refl) as (Heq & q & Hq & Hpage & _).
    exists q. split; [|exact Hpage].
    etransitivity; [exact Heq | exact Hq].
Defined.

End PagerRoundTrip.

(** ** The note tables of the three pianos *)

Section NoteTables.

Import FieldNote.

(** [setText] and [setValue] change the value and the text, nothing else. *)
Lemma setText_only_text (rt : Builtins) (o : option string) (f : t) :
  exists tx, setText rt o f = with_text_ tx f.
Proof.
  assert (Hid : f = with_text_ (text_ f) f) by (destruct f; reflexivity).
  destruct o as [s |]; cbn [setText].
  - destruct (negb (isNaN (ToNumber rt s)));
      match goal with |- context [String.eqb ?a ?b] => destruct (String.eqb a b) end;
      eauto.
  - eauto.
Qed.

Lemma setValue_only_value (rt : Builtins) (en : bool) (o : option string) (f : t) :
  exists n tx, fst (setValue rt en o f) = with_text_ tx (with_note_ n f).
Proof.
  assert (Hid : f = with_text_ (text_ f) (with_note_ (note_ f) f))
    by (destruct f; reflexivity).
  unfold setValue.
  match goal with |- context [if ?c then _ else _] => destruct c end.
  - cbn [fst]. eauto.
  - cbn [fst].
    match goal with |- context [setText rt ?o' ?f'] =>
      destruct (setText_only_text rt o' f') as (tx & ->) end.
    eauto.
Qed.

(** The loop pushes onto the arrays it is given. *)
Lemma notesLoop_app (nKeys n : nat) :
  forall (i : nat) prefix curNote keyNumber names freqs,
    notesLoop nKeys n i prefix curNote keyNumber names freqs
    = (names ++ fst (notesLoop nKeys n i prefix curNote keyNumber [] []),
       freqs ++ snd (notesLoop nKeys n i prefix curNote keyNumber [] [])).
Proof.
  induction n as [| n IH]; intros i prefix curNote keyNumber names freqs.
  - cbn. rewrite !app_nil_r. reflexivity.
  - cbn [notesLoop]. rewrite IH.
    rewrite (IH _ _ _ _ ([] ++ _) ([] ++ _)). cbn [fst snd app].
    rewrite <- !app_assoc. reflexivity.
Qed.

Lemma notesLoop_length (nKeys n : nat) :
  forall (i : nat) prefix curNote keyNumber names freqs,
    length (fst (notesLoop nKeys n i prefix curNote keyNumber names freqs))
    = (length names + n)%nat
    /\ length (snd (notesLoop nKeys n i prefix curNote keyNumber names freqs))
       = (length freqs + n)%nat.
Proof.
  induction n as [| n IH]; intros i prefix curNote keyNumber names freqs.
  - cbn. split; lia.
  - cbn [notesLoop].
    match goal with |- context [notesLoop nKeys n ?i' ?p' ?c' ?k' ?ns ?fs] =>
      destruct (IH i' p' c' k' ns fs) as [-> ->] end.
    rewrite !length_app. cbn. split; lia.
Qed.

(** Without a start key every frequency is NaN and every name starts with
    "undefined". *)
Lemma notesLoop_undefined (nKeys n : nat) :
  forall (i : nat) curNote names freqs,
    exists ns,
      notesLoop nKeys n i None curNote None names freqs
      = (names ++ ns, freqs ++ repeat NaN n)
      /\ length ns = n
      /\ Forall (fun s => exists c, s = ("undefined " ++ c)%string) ns.
Proof.
  induction n as [| n IH]; intros i curNote names freqs.
  - exists []. cbn. rewrite !app_nil_r. repeat split. constructor.
  - cbn [notesLoop].
    assert (Hp : (if ((i + 1) mod 12 =? 0)%nat then nextNotePrefix_ nKeys None else None)
                 = None) by (destruct ((i + 1) mod 12 =? 0)%nat; reflexivity).
    rewrite Hp. cbn [fmap option_fmap option_map].
    destruct (IH (S i) (nextNote_ curNote) (names ++ [keyName None curNote])
                (freqs ++ [keyFrequency None])) as (ns & -> & Hlen & Hall).
    exists (keyName None curNote :: ns). rewrite <- !app_assoc. cbn.
    split; [reflexivity | split; [lia |]].
    constructor; [| exact Hall]. exists curNote. reflexivity.
Qed.

Lemma small_names :
  fst (notesLoop 12 12 0 (Some ""%string) "C" (Some 40) [] [])
  = [ " C"; " C#"; " D"; " D#"; " E"; " F"; " F#"; " G"; " G#"; " A"; " A#";
      " B" ]%string.
Proof. lazy. reflexivity. Qed.

Lemma large_names :
  fst (notesLoop 60 60 0 (Some "Deep"%string) "C" (Some 16) [] [])
  = flat_map
      (fun p => map (fun n => (p ++ " " ++ n)%string)
                  [ "C"; "C#"; "D"; "D#"; "E"; "F"; "F#"; "G"; "G#"; "A"; "A#";
                    "B" ]%string)
      [ "Deep"; "Low"; "Middle"; "Tenor"; "High" ]%string.
Proof. lazy. reflexivity. Qed.

(** X5.  The table that [createNotesArray_] builds in empty arrays, for each
    size of the piano: the 12 keys carry no prefix (their names start with a
    space) and start at key 40; the 36 keys are named Low, Middle, High from
    key 28; the 60 keys Deep, Low, Middle, Tenor, High from key 16; within
    an octave the names run C, C#, ..., B.  For any other number of keys no
    start key is set: every frequency is NaN and every name starts with
    "undefined". *)
Theorem note_names_of_every_piano :
  forall f : FieldNote.t,
    noteFreq_ f = [] -> noteName_ f = [] ->
    let letters :=
      [ "C"; "C#"; "D"; "D#"; "E"; "F"; "F#"; "G"; "G#"; "A"; "A#"; "B" ]%string in
    let named (prefixes : list string) :=
      flat_map (fun p => map (fun n => (p ++ " " ++ n)%string) letters) prefixes in
    let keysFrom (k0 : Z) :=
      map (fun j => keyFrequency (Some (k0 + Z.of_nat j))) (seq 0 (nKeys_ f)) in
    let table := createNotesArray_ f in
    (nKeys_ f = 12%nat ->
       noteName_ table = named [""%string] /\ noteFreq_ table = keysFrom 40)
    /\ (nKeys_ f = 36%nat ->
        noteName_ table = named ["Low"; "Middle"; "High"]%string
        /\ noteFreq_ table = keysFrom 28)
    /\ (nKeys_ f = 60%nat ->
        noteName_ table = named ["Deep"; "Low"; "Middle"; "Tenor"; "High"]%string
        /\ noteFreq_ table = keysFrom 16)
    /\ (nKeys_ f <> 12%nat -> nKeys_ f <> 36%nat -> nKeys_ f <> 60%nat ->
        noteFreq_ table = repeat NaN (nKeys_ f)
        /\ length (noteName_ table) = nKeys_ f
        /\ Forall (fun s => exists c, s = ("undefined " ++ c)%string)
             (noteName_ table)).
Proof.
  intros f Hf Hn letters named keysFrom table.
  split; [| split; [| split]].
  - intros H12.
    destruct (createNotesArray_spec f 40 (Some ""%string)) as (Hfr & Hnm & _);
      [rewrite H12; reflexivity | assumption | assumption |].
    split; [| exact Hfr].
    subst table. rewrite Hnm, H12. exact small_names.
  - intros H36.
    destruct (createNotesArray_spec f 28 (Some "Low"%string)) as (Hfr & Hnm & _);
      [rewrite H36; reflexivity | assumption | assumption |].
    split; [| exact Hfr].
    subst table. rewrite Hnm, H36. exact medium_names.
  - intros H60.
    destruct (createNotesArray_spec f 16 (Some "Deep"%string)) as (Hfr & Hnm & _);
      [rewrite H60; reflexivity | assumption | assumption |].
    split; [| exact Hfr].
    subst table. rewrite Hnm, H60. exact large_names.
  - intros N12 N36 N60. subst table. unfold createNotesArray_.
    assert (Hs : startKey (nKeys_ f) = (None, None)).
    { unfold startKey. cbn [pianoSize_value].
      rewrite (proj2 (Nat.eqb_neq _ _) N12), (proj2 (Nat.eqb_neq _ _) N36),
        (proj2 (Nat.eqb_neq _ _) N60). reflexivity. }
    rewrite Hs, Hf, Hn.
    destruct (notesLoop_undefined (nKeys_ f) (nKeys_ f) 0 "C" [] [])
      as (ns & -> & Hlen & Hall).
    cbn. repeat split; assumption.
Qed.

(** X5, witness: the field as the constructor leaves it has 36 keys. *)
Lemma note_names_of_every_piano_witness :
  noteName_ (createNotesArray_ (fresh "440" "" "note" None))
  = flat_map
      (fun p => map (fun n => (p ++ " " ++ n)%string)
                  [ "C"; "C#"; "D"; "D#"; "E"; "F"; "F#"; "G"; "G#"; "A"; "A#";
                    "B" ]%string)
      [ "Low"; "Middle"; "High" ]%string.
Proof.
  refine (proj1 (proj1 (proj2 (note_names_of_every_piano
                                 (fresh "440" "" "note" None) eq_refl eq_refl))
                   eq_refl)).
Defined.

(** [createNotesArray_] pushes one name and one frequency per key onto the
    arrays that are there. *)
Lemma createNotesArray_appends (g : t) :
  nKeys_ (createNotesArray_ g) = nKeys_ g
  /\ noteName_ (createNotesArray_ g)
     = noteName_ g
       ++ fst (notesLoop (nKeys_ g) (nKeys_ g) 0 (snd (startKey (nKeys_ g))) "C"
                 (fst (startKey (nKeys_ g))) [] [])
  /\ noteFreq_ (createNotesArray_ g)
     = noteFreq_ g
       ++ snd (notesLoop (nKeys_ g) (nKeys_ g) 0 (snd (startKey (nKeys_ g))) "C"
                 (fst (startKey (nKeys_ g))) [] []).
Proof.
  unfold createNotesArray_.
  destruct (startKey (nKeys_ g)) as [k p]. cbn [fst snd].
  rewrite notesLoop_app. cbn. repeat split.
Qed.

(** X6.  [init] builds the table anew: whatever the arrays held, they hold
    one entry per key afterwards, the same after a second [init]; a call of
    [createNotesArray_] without [init] leaves the entries in place and
    pushes as many again behind them. *)
Theorem init_builds_the_table_anew :
  forall (rt : Builtins) (eventsEnabled : bool) (f : FieldNote.t),
    let f1 := fst (init rt eventsEnabled f) in
    noteEntries f1 = noteEntries (createNotesArray_ (with_notes [] [] f))
    /\ nKeys_ f1 = nKeys_ f
    /\ length (noteFreq_ f1) = nKeys_ f
    /\ length (noteName_ f1) = nKeys_ f
    /\ noteEntries (fst (init rt eventsEnabled f1)) = noteEntries f1
    /\ length (noteEntries (createNotesArray_ f1)) = (2 * nKeys_ f)%nat
    /\ (forall i : nat, (i < nKeys_ f)%nat ->
          noteEntries (createNotesArray_ f1) !! i = noteEntries f1 !! i).
Proof.
  intros rt en f f1.
  assert (Hinit : forall g,
            exists n tx,
              fst (init rt en g)
              = with_text_ tx (with_note_ n (createNotesArray_ (with_notes [] [] g)))).
  { intros g. unfold init. apply setValue_only_value. }
  destruct (Hinit f) as (n & tx & Hf1). fold f1 in Hf1.
  destruct (createNotesArray_appends (with_notes [] [] f)) as (Hk & Hnm & Hfr).
  cbn [nKeys_ noteName_ noteFreq_ with_notes app] in Hk, Hnm, Hfr.
  destruct (notesLoop_length (nKeys_ f) (nKeys_ f) 0 (snd (startKey (nKeys_ f)))
              "C" (fst (startKey (nKeys_ f))) [] []) as (Hl1 & Hl2).
  cbn [length Nat.add] in Hl1, Hl2.
  assert (Hk1 : nKeys_ f1 = nKeys_ f) by (rewrite Hf1; exact Hk).
  assert (Hn1 : noteName_ f1 = noteName_ (createNotesArray_ (with_notes [] [] f)))
    by (rewrite Hf1; reflexivity).
  assert (Hr1 : noteFreq_ f1 = noteFreq_ (createNotesArray_ (with_notes [] [] f)))
    by (rewrite Hf1; reflexivity).
  assert (Hlf : length (noteFreq_ f1) = nKeys_ f) by (rewrite Hr1, Hfr; exact Hl2).
  assert (Hln : length (noteName_ f1) = nKeys_ f) by (rewrite Hn1, Hnm; exact Hl1).
  split; [unfold noteEntries; rewrite Hn1, Hr1; reflexivity |].
  split; [exact Hk1 |]. split; [exact Hlf |]. split; [exact Hln |].
  split; [| split].
  - destruct (Hinit f1) as (n' & tx' & ->).
    unfold noteEntries. cbn [noteName_ noteFreq_ with_text_ with_note_].
    destruct (createNotesArray_appends (with_notes [] [] f1)) as (_ & -> & ->).
    cbn [nKeys_ noteName_ noteFreq_ with_notes app].
    rewrite Hk1, Hn1, Hr1, Hnm, Hfr. reflexivity.
  - unfold noteEntries.
    destruct (createNotesArray_appends f1) as (_ & -> & ->).
    rewrite Hk1. rewrite length_zip_with, !length_app, Hlf, Hln, Hl1, Hl2. lia.
  - intros i Hi. unfold noteEntries.
    destruct (createNotesArray_appends f1) as (_ & -> & ->).
    rewrite !lookup_zip_with.
    rewrite !lookup_app_l by lia. reflexivity.
Qed.


End NoteTables.

(** ** The highlighted key of the piano *)

Section Highlight.

Import FieldNote.

Variable rt : Builtins.
Variable eventsEnabled : bool.

(** What the key loop leaves: the colours, and the last key near the value
    with the colour of its kind. *)
Lemma renderKeys_colors (f : t) (n : nat) :
  forall (i : nat) tgs colors sel prev tg cols s p,
    renderKeys rt f i n tgs colors sel prev = Some (tg, cols, s, p) ->
    cols
    = colors
      ++ map (fun k => if nearKey f (ToNumber rt (getValue f)) k
                       then selectedKeyColor_ f else getBgColor_ k) (seq i n)
    /\ length tg = (length tgs + n)%nat
    /\ ((s = sel /\ p = prev
         /\ forall k, (i <= k < i + n)%nat ->
                      nearKey f (ToNumber rt (getValue f)) k = false)
        \/ exists k, (i <= k < i + n)%nat
                     /\ nearKey f (ToNumber rt (getValue f)) k = true
                     /\ s = Some k /\ p = Some (getBgColor_ k)).
Proof.
  induction n as [| n IH]; intros i tgs colors sel prev tg cols s p H.
  - cbn in H. injection H as <- <- <- <-. cbn. rewrite app_nil_r.
    split; [reflexivity | split; [lia |]]. left. repeat split. intros k Hk. lia.
  - cbn [renderKeys] in H.
    destruct (noteFreq_ f !! i) as [fr |] eqn:Hfr; [| discriminate].
    destruct (nearKey f (ToNumber rt (getValue f)) i) eqn:Hnear.
    + apply IH in H as (Hc & Hl & Hs).
      split; [| split].
      * rewrite Hc, <- app_assoc. cbn [seq map app]. rewrite Hnear. reflexivity.
      * rewrite Hl, length_app. cbn. lia.
      * right. destruct Hs as [(-> & -> & _) | (k & Hk & Hn & -> & ->)].
        -- exists i. repeat split; [lia | lia | exact Hnear].
        -- exists k. repeat split; [lia | lia | exact Hn].
    + apply IH in H as (Hc & Hl & Hs).
      split; [| split].
      * rewrite Hc, <- app_assoc. cbn [seq map app]. rewrite Hnear. reflexivity.
      * rewrite Hl, length_app. cbn. lia.
      * destruct Hs as [(-> & -> & Hall) | (k & Hk & Hn & -> & ->)].
        -- left. repeat split. intros k Hk.
           destruct (decide (k = i)) as [-> | Hne]; [exact Hnear |].
           apply Hall. lia.
        -- right. exists k. repeat split; [lia | lia | exact Hn].
Qed.

Lemma sameTable_refl (f : t) : sameTable f f.
Proof. repeat split. Qed.

Lemma sameTable_trans (f g h : t) :
  sameTable f g -> sameTable g h -> sameTable f h.
Proof.
  intros (A1 & A2 & A3 & A4) (B1 & B2 & B3 & B4).
  repeat split; congruence.
Qed.

Lemma sameTable_generated (f g : t) :
  sameTable f g -> generated f -> generated g.
Proof.
  intros (A1 & A2 & _) (k0 & Hk & Hfr). exists k0.
  split; [exact Hk |]. rewrite A1, A2. exact Hfr.
Qed.

Lemma setText_sameTable (o : option string) (f : t) :
  sameTable f (setText rt o f).
Proof. destruct (setText_only_text rt o f) as (tx & ->). repeat split. Qed.

Lemma setValue_sameTable (o : option string) (f : t) :
  sameTable f (fst (setValue rt eventsEnabled o f)).
Proof.
  destruct (setValue_only_value rt eventsEnabled o f) as (n & tx & ->).
  repeat split.
Qed.

Lemma showEditor_sizes_sameTable (ws : Goog.Size) (ew : Z) (q m : bool) (f : t) :
  sameTable f (snd (showEditor_sizes ws ew q m f)).
Proof.
  unfold showEditor_sizes.
  destruct (negb q && m); repeat split.
Qed.

Lemma showEditor__sameTable (o : Opening) (e e' : Editor) :
  showEditor_ rt o e = Some e' -> sameTable (field e) (field e').
Proof.
  unfold showEditor_. intros H.
  pose proof (showEditor_sizes_sameTable (windowSize o) (editorWidth o)
                (opt_quietInput o) (uaMobile o)
                (with_text_ (getText rt (field e)) (field e))) as Hs.
  destruct (showEditor_sizes _ _ _ _ _) as [[pg mb] f1]. cbn [snd] in Hs.
  destruct (negb mb && bool_decide (sourceBlock_ f1 = None)); [discriminate|].
  destruct (renderKeys rt f1 0 (nKeys_ f1) [] [] None None)
    as [[[[tg cols] sel] prev] |]; [| discriminate].
  injection H as <-. cbn [field].
  destruct Hs as (A1 & A2 & A3 & A4). repeat split; assumption.
Qed.

Lemma key_MOUSEDOWN_sameTable (i : nat) (e e' : Editor) :
  key_MOUSEDOWN rt eventsEnabled i e = Some e' -> sameTable (field e) (field e').
Proof.
  unfold key_MOUSEDOWN. intros H.
  destruct (tags e !! i) as [freq |]; [| discriminate].
  destruct (backgroundColor e !! i); [| discriminate].
  pose proof (setValue_sameTable (Some freq)
                (with_soundingKeys_ (S (soundingKeys_ (field e))) (field e))) as Hv.
  destruct (setValue rt eventsEnabled (Some freq) _) as [f2 evs]. cbn [fst] in Hv.
  pose proof (setText_sameTable (Some freq) f2) as Ht.
  injection H as <-.
  eapply sameTable_trans; [| exact Ht].
  eapply sameTable_trans; [| exact Hv]. repeat split.
Qed.

Lemma key_timeout_same (cnt : nat) (e e' : Editor) :
  key_timeout cnt e = Some e' ->
  field e' = field e /\ tags e' = tags e
  /\ backgroundColor e' = backgroundColor e
  /\ currentSelectedKey e' = currentSelectedKey e
  /\ previousColor e' = previousColor e.
Proof.
  unfold key_timeout. intros H.
  destruct (bool_decide (cnt ∈ timeouts e)); [| discriminate].
  injection H as <-. repeat split.
Qed.

(** Opening the picker on a piano highlights the key of the value, if there
    is one. *)
Lemma showEditor__keysInv (o : Opening) (e e' : Editor) :
  generated (field e) -> eps_ (field e) = Fin 1 ->
  showEditor_ rt o e = Some e' -> keysInv e'.
Proof.
  intros Hgen Heps H.
  pose proof (showEditor__sameTable o e e' H) as Hsame.
  pose proof (sameTable_generated _ _ Hsame Hgen) as Hgen'.
  assert (Heps' : eps_ (field e') = Fin 1)
    by (destruct Hsame as (_ & _ & -> & _); exact Heps).
  unfold showEditor_ in H.
  destruct (showEditor_sizes _ _ _ _ _) as [[pg mb] f1].
  destruct (negb mb && bool_decide (sourceBlock_ f1 = None)); [discriminate|].
  destruct (renderKeys rt f1 0 (nKeys_ f1) [] [] None None)
    as [[[[tg cols] sel] prev] |] eqn:Hr; [| discriminate].
  injection H as <-. cbn [field] in Hgen', Heps'.
  apply renderKeys_colors in Hr as (Hc & Hl & Hs). cbn [app length Nat.add] in Hc, Hl.
  unfold keysInv, highlighted. cbn [field tags backgroundColor currentSelectedKey previousColor].
  split; [exact Hl |].
  split; [rewrite Hc, length_map, length_seq; reflexivity |].
  split.
  - intros k Hk. rewrite Hc, list_lookup_fmap, lookup_seq_lt by exact Hk.
    cbn. f_equal.
    destruct Hs as [(-> & _ & Hall) | (k0 & Hk0 & Hn0 & -> & _)].
    + rewrite (Hall k) by lia. rewrite bool_decide_eq_false_2 by discriminate.
      reflexivity.
    + destruct (decide (k0 = k)) as [-> | Hne].
      * rewrite Hn0, bool_decide_eq_true_2 by reflexivity. reflexivity.
      * rewrite bool_decide_eq_false_2 by congruence.
        destruct (nearKey f1 (ToNumber rt (getValue f1)) k) eqn:Hn; [| reflexivity].
        exfalso. apply Hne.
        exact (generated_near_unique f1 _ k0 k Hgen' Heps' Hn0 Hn).
  - intros k Hk.
    destruct Hs as [(-> & _ & _) | (k0 & Hk0 & _ & -> & ->)]; [discriminate |].
    injection Hk as <-. split; [lia | reflexivity].
Qed.

(** A key that goes down takes the highlight from the key that had it. *)
Lemma key_MOUSEDOWN_keysInv (i : nat) (e e' : Editor) :
  keysInv e ->
  key_MOUSEDOWN rt eventsEnabled i e = Some e' ->
  keysInv e' /\ currentSelectedKey e' = Some i.
Proof.
  intros (Ht & Hc & Hh & Hp) H.
  pose proof (key_MOUSEDOWN_sameTable i e e' H) as (A1 & A2 & A3 & A4).
  unfold key_MOUSEDOWN in H.
  destruct (tags e !! i) as [freq |] eqn:Htag; [| discriminate].
  destruct (backgroundColor e !! i) as [ci |] eqn:Hci; [| discriminate].
  destruct (setValue rt eventsEnabled (Some freq) _) as [f2 evs].
  injection H as <-.
  cbn [field] in A1, A2, A3, A4.
  assert (Hi : (i < nKeys_ (field e))%nat).
  { rewrite <- Hc. apply lookup_lt_is_Some. eauto. }
  set (cols1 := match currentSelectedKey e with
                | Some k => <[k := default "undefined"%string (previousColor e)]>
                              (backgroundColor e)
                | None => backgroundColor e
                end).
  assert (Hcols1 : length cols1 = nKeys_ (field e)
                   /\ forall k, (k < nKeys_ (field e))%nat ->
                                cols1 !! k = Some (getBgColor_ k)).
  { subst cols1. destruct (currentSelectedKey e) as [k0 |] eqn:Hsel.
    - destruct (Hp k0 eq_refl) as (Hk0 & Hprev). rewrite Hprev. cbn [default].
      split; [rewrite length_insert; exact Hc |].
      intros k Hk. destruct (decide (k0 = k)) as [-> | Hne].
      + rewrite list_lookup_insert_eq by lia. reflexivity.
      + rewrite list_lookup_insert_ne by exact Hne.
        rewrite (Hh k Hk), bool_decide_eq_false_2 by congruence. reflexivity.
    - split; [exact Hc |]. intros k Hk.
      rewrite (Hh k Hk), Hsel, bool_decide_eq_false_2 by discriminate. reflexivity. }
  destruct Hcols1 as (Hl1 & Hnat).
  split; [| reflexivity].
  unfold keysInv, highlighted.
  cbn [field tags backgroundColor currentSelectedKey previousColor].
  rewrite A1. split; [exact Ht |].
  split; [rewrite length_insert; exact Hl1 |].
  split.
  - intros k Hk. rewrite A4. cbn [selectedKeyColor_ with_soundingKeys_].
    destruct (decide (i = k)) as [-> | Hne].
    + rewrite list_lookup_insert_eq by lia.
      rewrite bool_decide_eq_true_2 by reflexivity. reflexivity.
    + rewrite list_lookup_insert_ne by exact Hne.
      rewrite (Hnat k Hk), bool_decide_eq_false_2 by congruence. reflexivity.
  - intros k Hk. injection Hk as <-. split; [exact Hi |].
    destruct (bool_decide (currentSelectedKey e = Some i)) eqn:Hb.
    + apply bool_decide_eq_true_1 in Hb. exact (proj2 (Hp i Hb)).
    + exact (Hnat i Hi).
Qed.

Lemma key_timeout_keysInv (cnt : nat) (e e' : Editor) :
  keysInv e -> key_timeout cnt e = Some e' -> keysInv e'.
Proof.
  intros (Ht & Hc & Hh & Hp) H.
  apply key_timeout_same in H as (Hf & Htg & Hcol & Hsel & Hprev).
  unfold keysInv, highlighted. rewrite Hf, Htg, Hcol, Hsel, Hprev.
  repeat split; try assumption; apply Hp; assumption.
Qed.

Lemma run_app (l1 l2 : list action) (e : Editor) :
  run rt eventsEnabled (l1 ++ l2) e
  = match run rt eventsEnabled l1 e with
    | Some e' => run rt eventsEnabled l2 e'
    | None => None
    end.
Proof.
  revert e. induction l1 as [| a r IH]; intros e; [reflexivity |].
  cbn [app run]. destruct (step rt eventsEnabled a e); [apply IH | reflexivity].
Qed.

Lemma run_keysInv (l : list action) :
  forall e e' : Editor,
    generated (field e) -> eps_ (field e) = Fin 1 -> keysInv e ->
    run rt eventsEnabled l e = Some e' ->
    generated (field e') /\ eps_ (field e') = Fin 1 /\ keysInv e'.
Proof.
  induction l as [| a r IH]; intros e e' Hgen Heps Hinv H.
  - injection H as <-. split; [exact Hgen | split; [exact Heps | exact Hinv]].
  - cbn [run] in H. destruct (step rt eventsEnabled a e) as [e1 |] eqn:Hstep;
      [| discriminate].
    assert (H1 : generated (field e1) /\ eps_ (field e1) = Fin 1 /\ keysInv e1).
    { destruct a as [o | i | cnt]; cbn [step] in Hstep.
      - pose proof (showEditor__sameTable o e e1 Hstep) as Hs.
        split; [exact (sameTable_generated _ _ Hs Hgen) |].
        split; [destruct Hs as (_ & _ & -> & _); exact Heps |].
        exact (showEditor__keysInv o e e1 Hgen Heps Hstep).
      - pose proof (key_MOUSEDOWN_sameTable i e e1 Hstep) as Hs.
        split; [exact (sameTable_generated _ _ Hs Hgen) |].
        split; [destruct Hs as (_ & _ & -> & _); exact Heps |].
        exact (proj1 (key_MOUSEDOWN_keysInv i e e1 Hinv Hstep)).
      - pose proof (key_timeout_same cnt e e1 Hstep) as (Hf & _).
        rewrite Hf. split; [exact Hgen | split; [exact Heps |]].
        exact (key_timeout_keysInv cnt e e1 Hinv Hstep). }
    destruct H1 as (G1 & E1 & I1). exact (IH e1 e' G1 E1 I1 H).
Qed.

(** X8.  On a piano (a generated table, the tolerance of 1 Hz), from the
    moment the picker is opened and whatever keys go down, time-outs fire
    or openings follow: one key at most shows the selection colour, the one
    held as selected, and every other key shows white or black as its kind
    is; the colour put back on a key that loses the selection is the colour
    of its kind; after a key went down that key is the selected one. *)
Theorem selection_highlight_is_exclusive :
  forall (f : FieldNote.t) (a : AudioContextManager.t) (o : Opening)
         (l : list action) (e : Editor),
    generated f -> eps_ f = Fin 1 ->
    run rt eventsEnabled (ShowEditor o :: l) (closedEditor f a) = Some e ->
    highlighted e
    /\ length (backgroundColor e) = nKeys_ f
    /\ (forall k : nat,
          currentSelectedKey e = Some k ->
          (k < nKeys_ f)%nat /\ previousColor e = Some (getBgColor_ k))
    /\ (forall (l' : list action) (i : nat),
          l = l' ++ [KeyDown i] -> currentSelectedKey e = Some i).
Proof.
  intros f a o l e Hgen Heps H.
  cbn [run step] in H.
  destruct (showEditor_ rt o (closedEditor f a)) as [e0 |] eqn:H0; [| discriminate].
  pose proof (showEditor__sameTable o _ e0 H0) as Hs0. cbn [field closedEditor] in Hs0.
  assert (G0 : generated (field e0)) by exact (sameTable_generated _ _ Hs0 Hgen).
  assert (E0 : eps_ (field e0) = Fin 1)
    by (destruct Hs0 as (_ & _ & -> & _); exact Heps).
  assert (I0 : keysInv e0)
    by exact (showEditor__keysInv o (closedEditor f a) e0 Hgen Heps H0).
  assert (Hk : forall l1 e1, run rt eventsEnabled l1 e0 = Some e1 ->
                             nKeys_ (field e1) = nKeys_ f).
  { induction l1 as [| a1 r IH] using rev_ind; intros e1 H1.
    - injection H1 as <-. exact (proj1 Hs0).
    - rewrite run_app in H1.
      destruct (run rt eventsEnabled r e0) as [e2 |] eqn:H2; [| discriminate].
      rewrite <- (IH e2 eq_refl). cbn [run] in H1.
      destruct (step rt eventsEnabled a1 e2) as [e3 |] eqn:H3; [| discriminate].
      injection H1 as <-.
      destruct a1 as [o1 | i1 | c1]; cbn [step] in H3.
      + exact (proj1 (showEditor__sameTable o1 e2 e3 H3)).
      + exact (proj1 (key_MOUSEDOWN_sameTable i1 e2 e3 H3)).
      + destruct (key_timeout_same c1 e2 e3 H3) as (-> & _). reflexivity. }
  destruct (run_keysInv l e0 e G0 E0 I0 H) as (_ & _ & (Ht & Hc & Hh & Hp)).
  rewrite <- (Hk l e H).
  split; [exact Hh | split; [exact Hc | split; [exact Hp |]]].
  intros l' i ->. rewrite run_app in H.
  destruct (run rt eventsEnabled l' e0) as [e1 |] eqn:H1; [| discriminate].
  cbn [run step] in H.
  destruct (key_MOUSEDOWN rt eventsEnabled i e1) as [e2 |] eqn:H2; [| discriminate].
  injection H as <-.
  destruct (run_keysInv l' e0 e1 G0 E0 I0 H1) as (_ & _ & I1).
  exact (proj2 (key_MOUSEDOWN_keysInv i e1 e2 I1 H2)).
Qed.

End Highlight.

(** ** The same key twice *)

Section SameKeyTwice.

Import FieldNote.

Variable rt : Builtins.
Variable eventsEnabled : bool.

Lemma getNoteName_with_soundingKeys_ (c : nat) (f : t) :
  getNoteName_ rt (with_soundingKeys_ c f) = getNoteName_ rt f.
Proof.
  unfold getNoteName_, getValue. cbn [note_ nKeys_ with_soundingKeys_].
  assert (H : forall v i n,
             findNoteName (with_soundingKeys_ c f) v i n = findNoteName f v i n).
  { intros v i n. revert i. induction n as [| n IH]; intros i; [reflexivity |].
    cbn [findNoteName]. rewrite IH. reflexivity. }
  rewrite H. reflexivity.
Qed.

Lemma setText_as_with_text_ (s : string) (f : t) :
  setText rt (Some s) f
  = with_text_ (if negb (isNaN (ToNumber rt s)) then getNoteName_ rt f else s) f.
Proof.
  unfold setText.
  match goal with |- context [String.eqb ?a ?b] =>
    destruct (String.eqb_spec a b) as [Heq | Hne] end; [| reflexivity].
  rewrite Heq. destruct f; reflexivity.
Qed.

(** What a key that goes down does to the field, its counter apart: the
    value becomes the note that [setValue] makes of the tag, unless it is
    refused, and the text the name of that value. *)
Lemma press_field (freq : string) (f : t) :
  let note := ToString rt (parseFloat rt (strOr (Some freq) "0")) in
  let rej := isNaN (ToNumber rt note) || lt (ToNumber rt note) (Fin 0) in
  let N := if rej then note_ f else note in
  setText rt (Some freq) (fst (setValue rt eventsEnabled (Some freq) f))
  = with_text_ (if negb (isNaN (ToNumber rt freq))
                then getNoteName_ rt (with_note_ N f) else freq)
      (with_note_ N f)
  /\ snd (setValue rt eventsEnabled (Some freq) f)
     = (if rej then []
        else match sourceBlock_ f with
             | Some _ =>
                 if eventsEnabled && negb (String.eqb (note_ f) note)
                 then [ {| element := "field"; fieldName := name f;
                           oldValue := note_ f; newValue := note |} ]
                 else []
             | None => []
             end).
Proof.
  intros note rej N. unfold setValue. fold note. fold rej.
  destruct rej eqn:Hrej; cbn [fst snd].
  - split; [| reflexivity]. subst N. rewrite setText_as_with_text_.
    assert (Hid : with_note_ (note_ f) f = f) by (destruct f; reflexivity).
    rewrite Hid. reflexivity.
  - split; [| reflexivity]. subst N.
    rewrite !setText_as_with_text_.
    rewrite !getNoteName_with_text_.
    assert (E : (if negb (isNaN (ToNumber rt (getNoteName_ rt (with_note_ note f))))
                 then getNoteName_ rt (with_note_ note f)
                 else getNoteName_ rt (with_note_ note f))
                = getNoteName_ rt (with_note_ note f))
      by (destruct (negb _); reflexivity).
    rewrite E. reflexivity.
Qed.

(** X9.  A key that goes down a second time, nothing else happening in
    between, changes nothing but the tone and the counter: the value and
    the text of the field stay, no change event is fired, the colours of
    the keys stay; the tone is started again and one more time-out is
    pending. *)
Theorem same_key_again_changes_nothing :
  forall (i : nat) (e e1 : Editor),
    key_MOUSEDOWN rt eventsEnabled i e = Some e1 ->
    exists (e2 : Editor) (tag : string),
      key_MOUSEDOWN rt eventsEnabled i e1 = Some e2
      /\ field e2
         = with_soundingKeys_ (S (soundingKeys_ (field e1))) (field e1)
      /\ fired e2 = fired e1
      /\ htmlInput_value e2 = htmlInput_value e1
      /\ backgroundColor e2 = backgroundColor e1
      /\ currentSelectedKey e2 = Some i
      /\ previousColor e2 = previousColor e1
      /\ tags e1 !! i = Some tag
      /\ audio e2
         = AudioContextManager.tone (ToNumber rt tag) 1
             (AudioContextManager.stop (audio e1))
      /\ timeouts e2 = timeouts e1 ++ [S (soundingKeys_ (field e1))].
Proof.
  intros i e e1 H.
  unfold key_MOUSEDOWN in H.
  destruct (tags e !! i) as [freq |] eqn:Htag; [| discriminate].
  destruct (backgroundColor e !! i) as [ci |] eqn:Hci; [| discriminate].
  set (c1 := S (soundingKeys_ (field e))) in *.
  pose proof (press_field freq (with_soundingKeys_ c1 (field e))) as (Hf & _).
  cbn zeta in Hf.
  set (note := ToString rt (parseFloat rt (strOr (Some freq) "0"))) in *.
  set (rej := isNaN (ToNumber rt note) || lt (ToNumber rt note) (Fin 0)) in *.
  set (N := if rej then note_ (with_soundingKeys_ c1 (field e)) else note) in *.
  set (T := if negb (isNaN (ToNumber rt freq))
            then getNoteName_ rt (with_note_ N (with_soundingKeys_ c1 (field e)))
            else freq) in *.
  destruct (setValue rt eventsEnabled (Some freq) (with_soundingKeys_ c1 (field e)))
    as [f2 evs] eqn:Hsv.
  cbn [fst] in Hf.
  set (h := with_text_ T (with_note_ N (with_soundingKeys_ c1 (field e)))) in *.
  set (cols1 := match currentSelectedKey e with
                | Some k => <[k := default "undefined"%string (previousColor e)]>
                              (backgroundColor e)
                | None => backgroundColor e
                end) in *.
  injection H as He1.
  assert (F1 : field e1 = h) by (rewrite <- He1; exact Hf).
  assert (F2 : tags e1 = tags e) by (rewrite <- He1; reflexivity).
  assert (F3 : backgroundColor e1
               = <[i := selectedKeyColor_ (field e)]> cols1)
    by (rewrite <- He1; reflexivity).
  assert (F4 : currentSelectedKey e1 = Some i) by (rewrite <- He1; reflexivity).
  assert (F5 : htmlInput_value e1 = getText rt h)
    by (rewrite <- He1; cbn [htmlInput_value]; f_equal; exact Hf).
  clear He1 Hf Hsv.
  assert (Hi : (i < length cols1)%nat).
  { subst cols1. destruct (currentSelectedKey e); [rewrite length_insert |];
      apply lookup_lt_is_Some; eauto. }
  unfold key_MOUSEDOWN. rewrite F1, F2, F3, F4, Htag.
  rewrite list_lookup_insert_eq by exact Hi.
  set (c2 := S (soundingKeys_ h)).
  (* the second press, on the field [h] *)
  pose proof (press_field freq (with_soundingKeys_ c2 h)) as (Hf2 & He2).
  cbn zeta in Hf2, He2. fold note in Hf2, He2. fold rej in Hf2, He2.
  assert (HN : (if rej then note_ (with_soundingKeys_ c2 h) else note) = N).
  { subst N. destruct rej; reflexivity. }
  rewrite HN in Hf2.
  assert (Hh : with_note_ N (with_soundingKeys_ c2 h) = with_soundingKeys_ c2 h).
  { subst h. reflexivity. }
  rewrite Hh in Hf2.
  assert (HT : (if negb (isNaN (ToNumber rt freq))
                then getNoteName_ rt (with_soundingKeys_ c2 h) else freq) = T).
  { subst T. destruct (negb (isNaN (ToNumber rt freq))); [| reflexivity].
    rewrite getNoteName_with_soundingKeys_. subst h.
    rewrite getNoteName_with_text_. reflexivity. }
  rewrite HT in Hf2.
  assert (Hh2 : with_text_ T (with_soundingKeys_ c2 h) = with_soundingKeys_ c2 h).
  { subst h. reflexivity. }
  rewrite Hh2 in Hf2.
  assert (Hev : snd (setValue rt eventsEnabled (Some freq) (with_soundingKeys_ c2 h))
                = []).
  { rewrite He2.
    assert (Hcase : rej = true \/ rej = false) by (destruct rej; auto).
    destruct Hcase as [Hrej | Hrej]; rewrite Hrej; [reflexivity |].
    assert (Hn : note_ (with_soundingKeys_ c2 h) = note).
    { subst h N. rewrite Hrej. reflexivity. }
    destruct (sourceBlock_ (with_soundingKeys_ c2 h)); [| reflexivity].
    rewrite Hn, String.eqb_refl, andb_false_r. reflexivity. }
  destruct (setValue rt eventsEnabled (Some freq) (with_soundingKeys_ c2 h))
    as [f2' evs'] eqn:Hsv2.
  cbn [fst snd] in Hf2, Hev. subst evs'.
  assert (Hg : getText rt (with_soundingKeys_ c2 h) = getText rt h) by reflexivity.
  match goal with |- exists e2 tag, Some ?r = Some e2 /\ _ =>
    exists r, freq; split; [reflexivity |] end.
  assert (Hf2' : field
                   {| field := setText rt (Some freq) f2';
                      audio := audio e1; timeouts := [];
                      fired := []; htmlInput_value := ""; tags := [];
                      backgroundColor := []; currentSelectedKey := None;
                      previousColor := None |}
                 = with_soundingKeys_ c2 h) by exact Hf2.
  cbn [field] in Hf2'.
  cbn [field tags backgroundColor currentSelectedKey previousColor fired
       htmlInput_value audio timeouts].
  split; [exact Hf2' |].
  split; [apply app_nil_r |].
  split; [rewrite Hf2', F5; exact Hg |].
  split; [rewrite !list_insert_insert_eq; reflexivity |].
  split; [reflexivity |].
  split; [rewrite bool_decide_eq_true_2 by reflexivity; reflexivity |].
  split; [reflexivity |].
  split; reflexivity.
Qed.

End SameKeyTwice.

Section HighlightAtWork.

Import Ref FieldNote.

Lemma open_then_key (rt : Builtins) (en : bool) (f : t)
  (a : AudioContextManager.t) (o : Opening) (i : nat) :
  (nKeys_ f <= length (noteFreq_ f))%nat -> sourceBlock_ f <> None ->
  (i < nKeys_ f)%nat ->
  exists e, run rt en [ShowEditor o; KeyDown i] (closedEditor f a) = Some e.
Proof.
  intros Hready Hblk Hi.
  destruct (two_keys_then_time_out rt en f a o i i Hready Hblk Hi Hi)
    as (e0 & eX & _ & _ & H0 & HX & _ & _).
  exists eX. cbn [run step] in H0 |- *.
  destruct (showEditor_ rt o (closedEditor f a)) as [e0' |]; [| discriminate].
  injection H0 as ->. rewrite HX. reflexivity.
Qed.

Lemma eps_mediumField (s : string) : eps_ (mediumField s) = Fin 1.
Proof. reflexivity. Qed.

Lemma mediumField_generated (s : string) : generated (mediumField s).
Proof.
  apply createNotesArray_generated; [right; left; reflexivity | |]; reflexivity.
Qed.

Lemma eps_mediumFieldOn (b : Block) (s : string) :
  eps_ (mediumFieldOn b s) = Fin 1.
Proof. reflexivity. Qed.

Lemma mediumFieldOn_generated (b : Block) (s : string) :
  generated (mediumFieldOn b s).
Proof.
  apply createNotesArray_generated; [right; left; reflexivity | |]; reflexivity.
Qed.

(** X8, witness: the medium piano of a field at 440 Hz, on a block, is
    opened on a desktop and key 12 goes down. *)
Lemma selection_highlight_is_exclusive_witness :
  exists e : Editor,
    run refBuiltins true [ShowEditor desktop; KeyDown 12]
      (closedEditor (mediumFieldOn ltrBlock "440")
         (AudioContextManager.initial true true))
    = Some e
    /\ highlighted e
    /\ currentSelectedKey e = Some 12%nat.
Proof.
  destruct (open_then_key refBuiltins true (mediumFieldOn ltrBlock "440")
              (AudioContextManager.initial true true) desktop 12
              (mediumFieldOn_ready ltrBlock "440")
              (mediumFieldOn_block ltrBlock "440"))
    as (e & Hrun); [rewrite nKeys_mediumFieldOn; lia |].
  exists e. split; [exact Hrun |].
  pose proof (selection_highlight_is_exclusive refBuiltins true
                (mediumFieldOn ltrBlock "440")
                (AudioContextManager.initial true true)
                desktop [KeyDown 12] e
                (mediumFieldOn_generated ltrBlock "440")
                (eps_mediumFieldOn ltrBlock "440") Hrun)
    as (Hh & _ & _ & Hlast).
  split; [exact Hh |]. exact (Hlast [] 12%nat eq_refl).
Defined.

(** X9, witness: on the medium piano of a field at 440 Hz, on a block and
    opened on a desktop, key 12 goes down twice. *)
Lemma same_key_again_changes_nothing_witness :
  exists e0 e1 e2 : Editor,
    run refBuiltins true [ShowEditor desktop]
      (closedEditor (mediumFieldOn ltrBlock "440")
         (AudioContextManager.initial true true))
    = Some e0
    /\ key_MOUSEDOWN refBuiltins true 12 e0 = Some e1
    /\ key_MOUSEDOWN refBuiltins true 12 e1 = Some e2
    /\ fired e2 = fired e1
    /\ backgroundColor e2 = backgroundColor e1.
Proof.
  destruct (two_keys_then_time_out refBuiltins true
              (mediumFieldOn ltrBlock "440")
              (AudioContextManager.initial true true) desktop 12 12
              (mediumFieldOn_ready ltrBlock "440")
              (mediumFieldOn_block ltrBlock "440"))
    as (e0 & e1 & _ & _ & H0 & H1 & _ & _);
    [rewrite nKeys_mediumFieldOn; lia | rewrite nKeys_mediumFieldOn; lia |].
  destruct (same_key_again_changes_nothing refBuiltins true 12 e0 e1 H1)
    as (e2 & tag & H2 & _ & Hfired & _ & Hcols & _).
  exists e0, e1, e2.
  split; [exact H0 |]. split; [exact H1 |]. split; [exact H2 |].
  split; [exact Hfired | exact Hcols].
Defined.

End HighlightAtWork.

(** ** The geometry of the piano *)

Section KeyGeometry.

Import FieldNote.

Lemma whiteKeysBelow_S (i : nat) :
  whiteKeysBelow (S i) = whiteKeysBelow i + (if isWhite_ i then 1 else 0).
Proof.
  unfold whiteKeysBelow. rewrite seq_S, List.filter_app, length_app.
  cbn [List.filter Nat.add]. destruct (isWhite_ i); cbn [length]; lia.
Qed.

Lemma isWhite_period (i : nat) : isWhite_ (12 + i) = isWhite_ i.
Proof.
  unfold isWhite_.
  replace ((12 + i) mod 12)%nat with (i mod 12)%nat; [reflexivity |].
  rewrite Nat.add_comm.
  rewrite <- (Nat.Div0.add_mod_idemp_r i 12 12).
  rewrite Nat.Div0.mod_same, Nat.add_0_r. reflexivity.
Qed.

Lemma whiteKeysBelow_12 (i : nat) : whiteKeysBelow (12 + i) = 7 + whiteKeysBelow i.
Proof.
  induction i as [| i IH]; [reflexivity |].
  replace (12 + S i)%nat with (S (12 + i)) by lia.
  rewrite !whiteKeysBelow_S, IH, isWhite_period. lia.
Qed.

Lemma whiteKeysBelow_octave (q r : nat) :
  whiteKeysBelow (12 * q + r) = 7 * Z.of_nat q + whiteKeysBelow r.
Proof.
  induction q as [| q IH]; [cbn [Nat.mul Nat.add]; lia |].
  replace (12 * S q + r)%nat with (12 + (12 * q + r))%nat by lia.
  rewrite whiteKeysBelow_12, IH. lia.
Qed.

Lemma whiteKeysBelow_div (i : nat) :
  whiteKeysBelow i = 7 * Z.of_nat (i / 12) + whiteKeysBelow (i mod 12).
Proof.
  rewrite (Nat.div_mod_eq i 12) at 1. apply whiteKeysBelow_octave.
Qed.

(** The octave counter when the loop is at key [i], after its update. *)
Lemma octave_counter (i : nat) :
  (if ((0 <? i) && (i mod 12 =? 0))%nat
   then Z.of_nat ((i - 1) / 12) + 1 else Z.of_nat ((i - 1) / 12))
  = Z.of_nat (i / 12).
Proof.
  pose proof (Nat.div_mod_eq i 12) as Hi.
  pose proof (Nat.mod_upper_bound i 12 ltac:(lia)) as Hr.
  destruct i as [| i]; [reflexivity |].
  replace (S i - 1)%nat with i in * by lia.
  cbn [Nat.ltb Nat.leb andb].
  destruct (Nat.eqb_spec (S i mod 12) 0) as [H0 | Hne].
  - assert (Hq : (i / 12 = S i / 12 - 1)%nat).
    { symmetry. apply (Nat.div_unique i 12 (S i / 12 - 1) 11); lia. }
    rewrite Hq. lia.
  - assert (Hq : (i / 12 = S i / 12)%nat).
    { symmetry. apply (Nat.div_unique i 12 (S i / 12) (S i mod 12 - 1)); lia. }
    rewrite Hq. reflexivity.
Qed.

Lemma renderKeyStyles_spec (f : t) (colour_ : string) (pagination mobile : bool)
  (leftPosition topPosition : Z) (n : nat) :
  forall i : nat,
    renderKeyStyles f colour_ pagination mobile leftPosition topPosition i n
      (whiteKeysBelow i) (Z.of_nat ((i - 1) / 12))
    = map (keyAt f colour_ pagination mobile leftPosition topPosition) (seq i n).
Proof.
  induction n as [| n IH]; intros i; [reflexivity |].
  cbn [renderKeyStyles seq map]. rewrite octave_counter.
  f_equal.
  rewrite <- IH. rewrite whiteKeysBelow_S.
  replace (S i - 1)%nat with i by lia.
  destruct (isWhite_ i); [reflexivity |].
  rewrite Z.add_0_r. reflexivity.
Qed.

Lemma isWhite_octave (q r : nat) : isWhite_ (12 * q + r) = isWhite_ r.
Proof.
  induction q as [| q IH]; [reflexivity |].
  replace (12 * S q + r)%nat with (12 + (12 * q + r))%nat by lia.
  rewrite isWhite_period. exact IH.
Qed.

Lemma isWhite_mod (i : nat) : isWhite_ i = isWhite_ (i mod 12).
Proof. rewrite (Nat.div_mod_eq i 12) at 1. apply isWhite_octave. Qed.

(** A black key has a white key on either side. *)
Lemma black_key_neighbours (i : nat) :
  isWhite_ i = false ->
  (0 < i)%nat /\ isWhite_ (i - 1) = true /\ isWhite_ (S i) = true.
Proof.
  intros Hb.
  pose proof (Nat.div_mod_eq i 12) as Hi.
  pose proof (Nat.mod_upper_bound i 12 ltac:(lia)) as Hr.
  rewrite isWhite_mod in Hb.
  set (q := (i / 12)%nat) in *. set (r := (i mod 12)%nat) in *.
  assert (Hr0 : (0 < r)%nat) by (destruct r; [discriminate Hb | lia]).
  split; [lia |].
  replace (i - 1)%nat with (12 * q + (r - 1))%nat by lia.
  replace (S i) with (12 * q + S r)%nat by lia.
  rewrite !isWhite_octave.
  do 12 (destruct r as [| r]; [first [discriminate Hb | lia | split; reflexivity] |]).
  lia.
Qed.

Lemma lookup_keys (f : t) (colour_ : string) (pagination mobile : bool)
  (leftPosition topPosition : Z) (i : nat) (s : KeyStyle) (v : bool) :
  renderKeyStyles f colour_ pagination mobile leftPosition topPosition 0
    (nKeys_ f) 0 0 !! i = Some (s, v) ->
  (i < nKeys_ f)%nat
  /\ (s, v) = keyAt f colour_ pagination mobile leftPosition topPosition i.
Proof.
  intros H.
  rewrite (renderKeyStyles_spec f colour_ pagination mobile leftPosition
             topPosition (nKeys_ f) 0 : renderKeyStyles _ _ _ _ _ _ 0 _ 0 0 = _) in H.
  rewrite list_lookup_fmap in H.
  destruct (seq 0 (nKeys_ f) !! i) as [k |] eqn:Hk; [| discriminate].
  apply lookup_seq in Hk as (-> & Hlt). cbn in H. injection H as <- <-.
  split; [exact Hlt | reflexivity].
Qed.

(** X10.  Without pagination the keys stand side by side from the left
    offset of the piano: white key [i] starts as many key widths to the
    right as there are white keys below it and is one key width wide; a
    black key is half as wide and half as high, lies on top (z-index 1001
    over 1000), has a white key on either side and is centred on the line
    where these two meet.  Every key is left visible. *)
Theorem keys_stand_side_by_side :
  forall (f : FieldNote.t) (colour_ : string) (mobile : bool)
         (leftPosition topPosition : Z) (i : nat) (s : KeyStyle) (v : bool),
    renderKeyStyles f colour_ false mobile leftPosition topPosition 0
      (nKeys_ f) 0 0 !! i = Some (s, v) ->
    let line := inject_Z (leftPosition + keyWidth_ f * whiteKeysBelow i) in
    v = true
    /\ key_top s = topPosition
    /\ (isWhite_ i = true ->
        (key_left s == line)%Q
        /\ (key_width s == inject_Z (keyWidth_ f))%Q
        /\ (key_height s == inject_Z (keyHeight_ f))%Q
        /\ key_z_index s = 1000
        /\ key_background_color s = "white"%string
        /\ key_border_color s = colour_)
    /\ (isWhite_ i = false ->
        (key_left s + key_width s / 2 == line)%Q
        /\ (key_width s == inject_Z (keyWidth_ f) / 2)%Q
        /\ (key_height s == inject_Z (keyHeight_ f) / 2)%Q
        /\ key_z_index s = 1001
        /\ key_background_color s = "black"%string
        /\ key_border_color s = "black"%string
        /\ (0 < i)%nat /\ isWhite_ (i - 1) = true /\ isWhite_ (S i) = true).
Proof.
  intros f colour_ mobile L T i s v H line.
  apply lookup_keys in H as (Hlt & Heq).
  unfold keyAt in Heq. injection Heq as -> ->.
  cbn [andb negb key_top key_left key_width key_height key_z_index
       key_background_color key_border_color getKeyStyle_].
  split; [reflexivity | split; [reflexivity |]].
  unfold getPosition_, getKeyWidth_, getKeyHeight_, getBgColor_.
  split; intros Hw; rewrite Hw.
  - repeat split. subst line.
    rewrite <- inject_Z_plus.
    replace (whiteKeysBelow i * keyWidth_ f + L)
      with (L + keyWidth_ f * whiteKeysBelow i) by lia.
    reflexivity.
  - split; [| split; [reflexivity | split; [reflexivity |]]].
    + subst line. rewrite inject_Z_plus, !inject_Z_mult. field.
    + repeat split; try apply black_key_neighbours; exact Hw.
Qed.

(** X10, witness: key 1 (C#) and key 2 (D) of the piano as the constructor
    sizes it, with keys 22 pixels wide: the black key is centred on pixel
    22, where the second white key starts, and 11 pixels wide. *)
Lemma keys_stand_side_by_side_witness :
  exists s : KeyStyle,
    renderKeyStyles (fresh "440" "" "note" None) "#5ba55b" false false 0 0 0
      36 0 0 !! 1%nat = Some (s, true)
    /\ (key_left s + key_width s / 2 == inject_Z 22)%Q
    /\ (key_width s == inject_Z 22 / 2)%Q.
Proof.
  eexists. split; [reflexivity |].
  pose proof (keys_stand_side_by_side (fresh "440" "" "note" None) "#5ba55b"
                false 0 0 1%nat _ true eq_refl) as (_ & _ & _ & Hb).
  destruct (Hb eq_refl) as (H1 & H2 & _).
  split; [exact H1 | exact H2].
Defined.

Lemma ceilDiv_bounds (a b : Z) :
  0 < b -> b * ceilDiv a b - b < a <= b * ceilDiv a b.
Proof.
  intros Hb. unfold ceilDiv.
  pose proof (Z.div_mod (- a) b ltac:(lia)) as Hd.
  pose proof (Z.mod_pos_bound (- a) b Hb) as Hm.
  nia.
Qed.

(** X11.  The sizes that [showEditor_] sets, for a piano of whole octaves.
    On a mobile (and when the input is not quiet) the piano is paginated
    and seven keys fill the width of the window: the key width is the
    seventh of it, rounded up, so that the piano is at least as wide as the
    window and less than 7 pixels wider; label and page buttons are 90
    high.  Elsewhere the keys keep their size and the piano is paginated
    exactly when the editor is narrower than all its white keys.  In every
    case the piano is as wide as the white keys of what it shows, one
    octave when paginated and all keys otherwise. *)
Theorem piano_is_as_wide_as_the_keys_shown :
  forall (ws : Goog.Size) (ew : Z) (opt_quietInput uaMobile : bool)
         (f : FieldNote.t) (N : nat),
    nKeys_ f = (12 * N)%nat ->
    let r := showEditor_sizes ws ew opt_quietInput uaMobile f in
    let pagination := fst (fst r) in
    let mobile := snd (fst r) in
    let f1 := snd r in
    mobile = negb opt_quietInput && uaMobile
    /\ nKeys_ f1 = nKeys_ f
    /\ pianoWidth_ f1
       = keyWidth_ f1 * whiteKeysBelow (if pagination then 12 else nKeys_ f)
    /\ pianoHeight_ f1 = keyHeight_ f1
    /\ (mobile = true ->
        pagination = true
        /\ keyWidth_ f1 = ceilDiv (Goog.width ws) 7
        /\ pianoWidth_ f1 - 7 < Goog.width ws <= pianoWidth_ f1
        /\ labelHeight_ f1 = 90 /\ prevNextHeight_ f1 = 90)
    /\ (mobile = false ->
        keyWidth_ f1 = keyWidth_ f /\ keyHeight_ f1 = keyHeight_ f
        /\ (pagination = true <-> ew < keyWidth_ f * whiteKeysBelow (nKeys_ f))).
Proof.
  intros ws ew q m f N HN r pagination mobile f1.
  assert (HW : whiteKeysBelow (nKeys_ f) = 7 * Z.of_nat N).
  { rewrite HN. replace (12 * N)%nat with (12 * N + 0)%nat by lia.
    rewrite whiteKeysBelow_octave. change (whiteKeysBelow 0) with 0. lia. }
  assert (H12 : whiteKeysBelow 12 = 7) by reflexivity.
  assert (Hfull : keyWidth_ f
                  * (Z.of_nat (nKeys_ f) - Z.of_nat (nKeys_ f) / 12 * 5)
                  = keyWidth_ f * whiteKeysBelow (nKeys_ f)).
  { rewrite HW, HN, Nat2Z.inj_mul.
    change (Z.of_nat 12) with 12.
    rewrite (Z.mul_comm 12 (Z.of_nat N)), Z.div_mul by lia. lia. }
  subst r pagination mobile f1. unfold showEditor_sizes.
  rewrite Hfull.
  destruct (negb q && m) eqn:Hmob; cbn [fst snd].
  - cbn [nKeys_ pianoWidth_ pianoHeight_ keyWidth_ keyHeight_ labelHeight_
         prevNextHeight_ with_piano with_soundingKeys_].
    pose proof (ceilDiv_bounds (Goog.width ws) 7 ltac:(lia)) as Hc.
    repeat split; try reflexivity; try discriminate; try lia.
  - cbn [nKeys_ pianoWidth_ pianoHeight_ keyWidth_ keyHeight_ labelHeight_
         prevNextHeight_ with_piano with_soundingKeys_].
    destruct (ew <? keyWidth_ f * whiteKeysBelow (nKeys_ f)) eqn:Hpg.
    + apply Z.ltb_lt in Hpg.
      repeat split; try reflexivity; try discriminate; try lia.
    + apply Z.ltb_ge in Hpg.
      repeat split; try reflexivity; try discriminate; try lia.
Qed.

(** X11, witness: on a phone 400 pixels wide the keys of the medium piano
    become 58 pixels wide and the piano 406. *)
Lemma piano_is_as_wide_as_the_keys_shown_witness :
  pianoWidth_
    (snd (showEditor_sizes {| Goog.width := 400; Goog.height := 700 |} 400
            false true (fresh "440" "" "note" None)))
  - 7 < 400
  <= pianoWidth_
       (snd (showEditor_sizes {| Goog.width := 400; Goog.height := 700 |} 400
               false true (fresh "440" "" "note" None))).
Proof.
  pose proof (piano_is_as_wide_as_the_keys_shown
                {| Goog.width := 400; Goog.height := 700 |} 400 false true
                (fresh "440" "" "note" None) 3 eq_refl)
    as (_ & _ & _ & _ & Hm & _).
  destruct (Hm eq_refl) as (_ & _ & Hw & _). exact Hw.
Defined.

(** X12.  With pagination the octaves lie on one another: key [i] gets the
    place and the size of the key of the first octave that is 12, 24, ...
    keys below it, so that every key lies within the seven key widths of
    the piano; the keys of the first octave are left visible and no others,
    which is the visibility that the page buttons start from. *)
Theorem paginated_octaves_lie_on_one_another :
  forall (f : FieldNote.t) (colour_ : string) (mobile : bool)
         (leftPosition topPosition : Z) (i : nat) (s : KeyStyle) (v : bool),
    renderKeyStyles f colour_ true mobile leftPosition topPosition 0
      (nKeys_ f) 0 0 !! i = Some (s, v) ->
    (exists s0 : KeyStyle,
        renderKeyStyles f colour_ true mobile leftPosition topPosition 0
          (nKeys_ f) 0 0 !! (i mod 12)%nat = Some (s0, true)
        /\ (key_left s == key_left s0)%Q
        /\ key_width s = key_width s0
        /\ key_height s = key_height s0
        /\ key_top s = key_top s0
        /\ key_z_index s = key_z_index s0
        /\ key_background_color s = key_background_color s0
        /\ key_border_color s = key_border_color s0)
    /\ v = (i <? 12)%nat
    /\ visible (showEditor_pager f) !! i = Some v
    /\ (0 <= keyWidth_ f ->
        (inject_Z leftPosition <= key_left s)%Q
        /\ (key_left s + key_width s
            <= inject_Z (leftPosition + 7 * keyWidth_ f))%Q).
Proof.
  intros f colour_ mobile L T i s v H.
  apply lookup_keys in H as (Hlt & Heq).
  pose proof (Nat.div_mod_eq i 12) as Hi.
  pose proof (Nat.mod_upper_bound i 12 ltac:(lia)) as Hr.
  assert (Hleft : (key_left s
                   == getPosition_ f (whiteKeysBelow (i mod 12)) (i mod 12)
                      + inject_Z L)%Q).
  { assert (Hs : s = fst (keyAt f colour_ true mobile L T i))
      by (rewrite <- Heq; reflexivity).
    rewrite Hs. unfold keyAt, getKeyStyle_, fst, key_left, andb.
    unfold getPosition_. rewrite (isWhite_mod i).
    destruct (12 <=? i)%nat eqn:H12.
    - rewrite (whiteKeysBelow_div i).
      destruct (isWhite_ (i mod 12)); rewrite !inject_Z_mult, !inject_Z_plus,
        !inject_Z_mult; first [ring | field].
    - apply Nat.leb_gt in H12.
      rewrite (Nat.mod_small i 12) by lia. reflexivity. }
  split; [| split; [| split]].
  - exists (fst (keyAt f colour_ true mobile L T (i mod 12))).
    split.
    { rewrite (renderKeyStyles_spec f colour_ true mobile L T (nKeys_ f) 0
               : renderKeyStyles _ _ _ _ _ _ 0 _ 0 0 = _).
      rewrite list_lookup_fmap, lookup_seq_lt by lia. cbn [fmap option_fmap option_map Nat.add].
      unfold keyAt at 1. cbn [fst]. f_equal. f_equal.
      replace (11 <? i mod 12)%nat with false
        by (symmetry; apply Nat.ltb_ge; lia).
      reflexivity. }
    split.
    { rewrite Hleft. unfold keyAt. cbn [fst key_left getKeyStyle_].
      replace (12 <=? i mod 12)%nat with false
        by (symmetry; apply Nat.leb_gt; lia).
      cbn [andb]. reflexivity. }
    unfold keyAt in Heq |- *. injection Heq as -> _.
    cbn [fst key_width key_height key_top key_z_index key_background_color
         key_border_color getKeyStyle_].
    unfold getKeyWidth_, getKeyHeight_, getBgColor_.
    rewrite <- (isWhite_mod i). repeat split.
  - unfold keyAt in Heq. injection Heq as _ ->. cbn [andb].
    destruct (Nat.ltb_spec i 12) as [Hs | Hs];
      [rewrite (proj2 (Nat.ltb_ge 11 i)) by lia
      | rewrite (proj2 (Nat.ltb_lt 11 i)) by lia]; reflexivity.
  - unfold keyAt in Heq. injection Heq as _ ->. cbn [andb].
    unfold showEditor_pager. cbn [visible].
    rewrite list_lookup_fmap, lookup_seq_lt by lia. reflexivity.
  - intros Hkw.
    assert (Hwidth : key_width s = getKeyWidth_ f (i mod 12)).
    { unfold keyAt in Heq. injection Heq as -> _. cbn [key_width getKeyStyle_].
      unfold getKeyWidth_. rewrite <- (isWhite_mod i). reflexivity. }
    rewrite Hwidth, Hleft. clear Hleft Hwidth Heq.
    assert (Hq : (0 <= inject_Z (keyWidth_ f))%Q)
      by (change (inject_Z 0 <= inject_Z (keyWidth_ f))%Q;
          rewrite <- Zle_Qle; exact Hkw).
    unfold getPosition_, getKeyWidth_.
    rewrite inject_Z_plus, inject_Z_mult.
    generalize dependent (i mod 12)%nat. intros r _ Hr.
    rewrite !inject_Z_mult. change (inject_Z 7) with 7%Q.
    do 12 (destruct r as [| r];
           [repeat match goal with
                   | |- context [inject_Z (whiteKeysBelow ?k)] =>
                       let c := eval vm_compute in (inject_Z (whiteKeysBelow k)) in
                       change (inject_Z (whiteKeysBelow k)) with c
                   | |- context [isWhite_ ?k] =>
                       let b := eval vm_compute in (isWhite_ k) in
                       change (isWhite_ k) with b
                   end;
            cbv iota; unfold Qdiv; change (/ 4)%Q with (1 # 4)%Q;
            change (/ 2)%Q with (1 # 2)%Q; split; Lqa.lra |]).
    lia.
Qed.

Lemma lookup_keyAt (f : t) (colour_ : string) (pagination mobile : bool)
  (leftPosition topPosition : Z) (i : nat) :
  (i < nKeys_ f)%nat ->
  renderKeyStyles f colour_ pagination mobile leftPosition topPosition 0
    (nKeys_ f) 0 0 !! i
  = Some (keyAt f colour_ pagination mobile leftPosition topPosition i).
Proof.
  intros Hi.
  rewrite (renderKeyStyles_spec f colour_ pagination mobile leftPosition
             topPosition (nKeys_ f) 0 : renderKeyStyles _ _ _ _ _ _ 0 _ 0 0 = _).
  rewrite list_lookup_fmap, lookup_seq_lt by exact Hi. reflexivity.
Qed.

(** X12, witness: key 13 (the C# of the second octave) of the medium piano
    lies where key 1 lies and is hidden. *)
Lemma paginated_octaves_lie_on_one_another_witness :
  exists s s0 : KeyStyle,
    renderKeyStyles (fresh "440" "" "note" None) "#5ba55b" true false 0 0 0
      (nKeys_ (fresh "440" "" "note" None)) 0 0 !! 13%nat = Some (s, false)
    /\ renderKeyStyles (fresh "440" "" "note" None) "#5ba55b" true false 0 0 0
         (nKeys_ (fresh "440" "" "note" None)) 0 0 !! 1%nat = Some (s0, true)
    /\ (key_left s == key_left s0)%Q.
Proof.
  assert (H13 : renderKeyStyles (fresh "440" "" "note" None) "#5ba55b" true
                  false 0 0 0 (nKeys_ (fresh "440" "" "note" None)) 0 0 !! 13%nat
                = Some (fst (keyAt (fresh "440" "" "note" None) "#5ba55b" true
                               false 0 0 13), false)).
  { apply (lookup_keyAt (fresh "440" "" "note" None) "#5ba55b" true false 0 0 13).
    cbn. lia. }
  destruct (paginated_octaves_lie_on_one_another
              (fresh "440" "" "note" None) "#5ba55b" false 0 0 13%nat _ false
              H13) as ((s0 & H0 & Hl & _) & _).
  exists (fst (keyAt (fresh "440" "" "note" None) "#5ba55b" true false 0 0 13)), s0.
  split; [exact H13 | split; [exact H0 | exact Hl]].
Defined.

(** X13.  How the label and the page buttons are stacked under the keys.
    On a desktop the label starts where the white keys end and the buttons
    start where the label ends.  On a mobile the buttons come first and the
    label, 90 high, starts 90 below them; with the sizes and the offsets
    that [showEditor_] computes there, the label ends at the bottom of the
    window less the height of the field, and the piano starts at the left
    edge of the page.  The two buttons start at the left edge and in the
    middle of the piano and each is half the piano wide, rounded up. *)
Theorem label_and_buttons_are_stacked :
  forall (f : FieldNote.t) (colour_ : string) (topPosition leftPosition : Z)
         (isPrev : bool),
    let label m := getShowNoteStyle_ f colour_ topPosition leftPosition m in
    let button p m :=
      getNextPrevStyle_ f colour_ topPosition leftPosition p m in
    (label_top (label false) = topPosition + keyHeight_ f
     /\ button_top (button isPrev false)
        = label_top (label false) + labelHeight_ f
     /\ label_height (label false) = None)
    /\ (button_top (button isPrev true) = topPosition + keyHeight_ f
        /\ button_height (button isPrev true) = Some 90
        /\ label_top (label true)
           = button_top (button isPrev true) + prevNextHeight_ f
        /\ label_height (label true) = Some 90)
    /\ (forall m : bool,
          label_left (label m) = leftPosition
          /\ label_width (label m) = pianoWidth_ f
          /\ (button_left (button true m) == inject_Z leftPosition)%Q
          /\ (button_left (button false m)
              == inject_Z leftPosition + inject_Z (pianoWidth_ f) / 2)%Q
          /\ pianoWidth_ f <= 2 * button_width (button isPrev m)
             < pianoWidth_ f + 2)
    /\ (forall (ws : Goog.Size) (ew : Z) (rtl : bool)
               (xy scrollOffset widgetOffset : Goog.Coordinate)
               (borderBBox : Goog.Size) (divScrollHeight : Z),
          let f1 := snd (showEditor_sizes ws ew false true f) in
          let pos := showEditor_position f1 true rtl xy borderBBox ws
                       scrollOffset divScrollHeight widgetOffset in
          let docked := getShowNoteStyle_ f1 colour_ (fst pos) (snd pos) true in
          Goog.y widgetOffset + label_top docked + 90
          = Goog.height ws - Goog.height borderBBox
          /\ Goog.x widgetOffset + label_left docked = 0).
Proof.
  intros f colour_ T L isPrev label button.
  split; [| split; [| split]].
  - subst label button. cbn. repeat split; lia.
  - subst label button. cbn. repeat split; lia.
  - intros m. subst label button.
    unfold getShowNoteStyle_, getNextPrevStyle_.
    cbn [label_left label_width button_left button_width].
    pose proof (ceilDiv_bounds (pianoWidth_ f) 2 ltac:(lia)) as Hc.
    split; [reflexivity | split; [reflexivity |]].
    split; [ring |]. split; [ring |]. lia.
  - intros ws ew rtl xy scrollOffset widgetOffset borderBBox dsh f1 pos docked.
    subst docked pos f1. unfold showEditor_sizes, showEditor_position.
    cbn. split; lia.
Qed.

End KeyGeometry.

(** ** The rows of the grid picker *)

Section GridRows.

Import FieldGridPicker.

Variable Base : Type.

Local Open Scope nat_scope.

Lemma ltQuot_pos (f : t Base) (i len : nat) :
  (0 < columns_ _ f)%Z ->
  ltQuot (Z.of_nat i) (Z.of_nat len) (columns_ _ f)
  = bool_decide (i * Z.to_nat (columns_ _ f) < len).
Proof.
  intros Hc. unfold ltQuot.
  rewrite (proj2 (Z.ltb_lt 0 (columns_ _ f)) Hc).
  destruct (Z.ltb_spec (Z.of_nat i * columns_ _ f) (Z.of_nat len)) as [H | H];
    symmetry; [apply bool_decide_eq_true_2 | apply bool_decide_eq_false_2]; nia.
Qed.

Lemma createRow_length (f : t Base) (r : nat) (options : list MenuOption) :
  (0 < columns_ _ f)%Z ->
  length (createRow _ f r options)
  = Nat.min (Z.to_nat (columns_ _ f))
      (length options - Z.to_nat (columns_ _ f) * r).
Proof.
  intros Hc. unfold createRow.
  rewrite length_map, length_take, length_drop.
  set (c := columns_ _ f) in *. nia.
Qed.

Lemma createRow_lookup (f : t Base) (r j : nat) (options : list MenuOption) :
  (0 < columns_ _ f)%Z ->
  createRow _ f r options !! j
  = if bool_decide (j < Z.to_nat (columns_ _ f))
    then menuItemOf _ f <$> options !! (Z.to_nat (columns_ _ f) * r + j)
    else None.
Proof.
  intros Hc. unfold createRow. rewrite list_lookup_fmap.
  set (c := columns_ _ f) in *.
  assert (Hfirst : Z.to_nat (c * Z.of_nat r) = Z.to_nat c * r) by nia.
  rewrite Hfirst.
  destruct (decide (j < Z.to_nat c)) as [Hj | Hj].
  - rewrite bool_decide_eq_true_2 by exact Hj.
    destruct (decide (j < Z.to_nat (Z.min (c * Z.of_nat r + c)
                                      (Z.of_nat (length options))
                                    - c * Z.of_nat r))) as [Hk | Hk].
    + rewrite lookup_take_lt by exact Hk. rewrite lookup_drop. reflexivity.
    + rewrite lookup_take_ge by lia.
      rewrite (proj2 (lookup_ge_None options (Z.to_nat c * r + j))) by nia.
      reflexivity.
  - rewrite bool_decide_eq_false_2 by exact Hj.
    rewrite lookup_take_ge by nia. reflexivity.
Qed.

(** The rows in closed form, [R] being the number of rows. *)
Lemma rowsLoop_spec (f : t Base) (options : list MenuOption) (R : nat) :
  (0 < columns_ _ f)%Z ->
  (forall i, i * Z.to_nat (columns_ _ f) < length options <-> i < R) ->
  forall n i,
    R - i <= n ->
    rowsLoop _ f options i n
    = map (fun r => createRow _ f r options) (seq i (R - i)).
Proof.
  intros Hc HR. induction n as [| n IH]; intros i Hn.
  - replace (R - i) with 0 by lia. reflexivity.
  - cbn [rowsLoop]. rewrite ltQuot_pos by exact Hc.
    destruct (decide (i < R)) as [Hi | Hi].
    + rewrite bool_decide_eq_true_2 by (apply HR; exact Hi).
      rewrite IH by lia.
      replace (R - i) with (S (R - S i)) by lia. reflexivity.
    + rewrite bool_decide_eq_false_2 by (rewrite HR; exact Hi).
      replace (R - i) with 0 by lia. reflexivity.
Qed.

Lemma number_of_rows (c len : nat) :
  0 < c ->
  forall i, i * c < len <-> i < (len + c - 1) / c.
Proof.
  intros Hc i.
  pose proof (Nat.div_mod_eq (len + c - 1) c) as Hd.
  pose proof (Nat.mod_upper_bound (len + c - 1) c ltac:(lia)) as Hm.
  split; intros H; nia.
Qed.

Lemma rows_closed_form (f : t Base) (options : list MenuOption) :
  (0 < columns_ _ f)%Z ->
  let c := Z.to_nat (columns_ _ f) in
  rowsLoop _ f options 0 (length options)
  = map (fun r => createRow _ f r options)
      (seq 0 ((length options + c - 1) / c)).
Proof.
  intros Hc c.
  assert (Hc' : 0 < c) by (subst c; lia).
  rewrite (rowsLoop_spec f options ((length options + c - 1) / c) Hc
             (number_of_rows c (length options) Hc')).
  - rewrite Nat.sub_0_r. reflexivity.
  - rewrite Nat.sub_0_r.
    pose proof (proj2 (number_of_rows c (length options) Hc'
                         (length options))) as H.
    destruct (decide ((length options + c - 1) / c <= length options));
      [assumption | exfalso; nia].
Qed.

(** X14.  The rows of the menu, for a positive number of columns: there are
    as many rows as the options need, option [i] is the item of row
    [i / columns] at column [i mod columns] (checked when its value is that
    of the field), every row holds at least one item and every row but the
    last exactly [columns], and no row holds anything else.  For a negative
    number of columns there is no row at all. *)
Theorem rows_lay_out_the_options :
  forall (f : t Base) (options : list MenuOption),
    let rows := rowsLoop _ f options 0 (length options) in
    let c := Z.to_nat (columns_ _ f) in
    ((0 < columns_ _ f)%Z ->
       ((Z.of_nat (length rows) - 1) * columns_ _ f
        < Z.of_nat (length options)
        <= Z.of_nat (length rows) * columns_ _ f)%Z
       /\ (forall (i : nat) (o : MenuOption),
             options !! i = Some o ->
             exists row,
               rows !! (i / c) = Some row
               /\ row !! (i mod c)
                  = Some {| itemContent := optContent o; itemValue := optValue o;
                            itemChecked := String.eqb (optValue o) (value_ _ f) |})
       /\ (forall (r : nat) (row : list MenuItem),
             rows !! r = Some row ->
             0 < length row <= c
             /\ (S r < length rows -> length row = c))
       /\ (forall (r j : nat) (row : list MenuItem) (item : MenuItem),
             rows !! r = Some row -> row !! j = Some item ->
             exists o, options !! (c * r + j) = Some o
                       /\ item = menuItemOf _ f o))
    /\ ((columns_ _ f < 0)%Z -> rows = []).
Proof.
  intros f options rows c. split.
  - intros Hc.
    assert (Hc' : 0 < c) by (subst c; lia).
    pose proof (rows_closed_form f options Hc) as Hrows. cbn zeta in Hrows.
    fold c in Hrows. fold rows in Hrows.
    set (R := (length options + c - 1) / c) in *.
    pose proof (number_of_rows c (length options) Hc') as HR. fold R in HR.
    assert (Hlen : length rows = R)
      by (rewrite Hrows, length_map, length_seq; reflexivity).
    assert (Hrow : forall r, r < R ->
              rows !! r = Some (createRow _ f r options)).
    { intros r Hr. rewrite Hrows, list_lookup_fmap, lookup_seq_lt by exact Hr.
      reflexivity. }
    split; [| split; [| split]].
    + rewrite Hlen.
      assert (HcZ : columns_ _ f = Z.of_nat c) by (subst c; lia).
      rewrite HcZ.
      assert (H1 : length options <= R * c).
      { destruct (decide (R * c < length options)) as [H | H]; [| lia].
        apply HR in H. lia. }
      split; [| nia].
      destruct R as [| R']; [nia |].
      pose proof (proj2 (HR R') ltac:(lia)) as H2. nia.
    + intros i o Hi.
      pose proof (lookup_lt_Some _ _ _ Hi) as Hlt.
      pose proof (Nat.div_mod_eq i c) as Hd.
      pose proof (Nat.mod_upper_bound i c ltac:(lia)) as Hm.
      exists (createRow _ f (i / c) options). split.
      * apply Hrow. apply HR. nia.
      * rewrite createRow_lookup by exact Hc. fold c.
        rewrite bool_decide_eq_true_2 by exact Hm.
        rewrite <- Hd, Hi. reflexivity.
    + intros r row Hr.
      pose proof (lookup_lt_Some _ _ _ Hr) as Hlt. rewrite Hlen in Hlt.
      rewrite (Hrow r Hlt) in Hr. injection Hr as <-.
      rewrite createRow_length by exact Hc. fold c.
      pose proof (proj2 (HR r) Hlt) as H1.
      split; [nia |]. intros HS. rewrite Hlen in HS.
      pose proof (proj2 (HR (S r)) HS) as H2. nia.
    + intros r j row item Hr Hj.
      pose proof (lookup_lt_Some _ _ _ Hr) as Hlt. rewrite Hlen in Hlt.
      rewrite (Hrow r Hlt) in Hr. injection Hr as <-.
      rewrite createRow_lookup in Hj by exact Hc. fold c in Hj.
      destruct (bool_decide (j < c)); [| discriminate].
      destruct (options !! (c * r + j)) as [o |]; [| discriminate].
      injection Hj as <-. exists o. split; reflexivity.
  - intros Hneg. subst rows.
    destruct (length options) as [| n] eqn:Hlen; [reflexivity |].
    cbn [rowsLoop]. unfold ltQuot.
    rewrite (proj2 (Z.ltb_ge 0 (columns_ _ f))) by lia.
    rewrite (proj2 (Z.ltb_ge _ _)) by lia. reflexivity.
Qed.

(** *** The search for the selected item *)

Lemma findInRow_none (f : t Base) (row : list MenuItem) (n : nat) :
  forall col,
    (forall k, col <= k < col + n ->
               exists it, row !! k = Some it /\ itemValue it <> value_ _ f) ->
    findInRow _ f row col n = Some None.
Proof.
  induction n as [| n IH]; intros col H; [reflexivity |].
  cbn [findInRow]. destruct (H col ltac:(lia)) as (it & -> & Hne).
  rewrite (proj2 (String.eqb_neq _ _)) by congruence.
  apply IH. intros k Hk. apply H. lia.
Qed.

Lemma findInRow_found (f : t Base) (row : list MenuItem) (n : nat) :
  forall col j,
    col <= j < col + n ->
    (forall k, col <= k < j ->
               exists it, row !! k = Some it /\ itemValue it <> value_ _ f) ->
    (exists it, row !! j = Some it /\ itemValue it = value_ _ f) ->
    findInRow _ f row col n = Some (Some j).
Proof.
  induction n as [| n IH]; intros col j Hj Hbefore Hat; [lia |].
  cbn [findInRow]. destruct (decide (col = j)) as [-> | Hne].
  - destruct Hat as (it & -> & Heq). rewrite Heq, String.eqb_refl. reflexivity.
  - destruct (Hbefore col ltac:(lia)) as (it & -> & Hv).
    rewrite (proj2 (String.eqb_neq _ _)) by congruence.
    apply IH; [lia | | exact Hat]. intros k Hk. apply Hbefore. lia.
Qed.

Lemma findInRow_raises (f : t Base) (row : list MenuItem) (n : nat) :
  forall col m,
    col <= m < col + n ->
    (forall k, col <= k < m ->
               exists it, row !! k = Some it /\ itemValue it <> value_ _ f) ->
    row !! m = None ->
    findInRow _ f row col n = None.
Proof.
  induction n as [| n IH]; intros col m Hm Hbefore Hat; [lia |].
  cbn [findInRow]. destruct (decide (col = m)) as [-> | Hne].
  - rewrite Hat. reflexivity.
  - destruct (Hbefore col ltac:(lia)) as (it & -> & Hv).
    rewrite (proj2 (String.eqb_neq _ _)) by congruence.
    apply IH with (m := m); [lia | | exact Hat]. intros k Hk. apply Hbefore. lia.
Qed.

Lemma findSelected_skips (f : t Base) (g : nat -> list MenuItem)
  (rest : list (list MenuItem)) (k : nat) :
  forall r,
    (forall r', r <= r' < r + k ->
                findInRow _ f (g r') 0 (Z.to_nat (columns_ _ f)) = Some None) ->
    findSelected _ f (map g (seq r k) ++ rest) r
    = findSelected _ f rest (r + k).
Proof.
  induction k as [| k IH]; intros r H.
  - cbn. rewrite Nat.add_0_r. reflexivity.
  - cbn [seq map app findSelected]. rewrite (H r) by lia.
    rewrite IH by (intros r' Hr'; apply H; lia).
    f_equal. lia.
Qed.

(** X15.  The row limit of [showEditor_], for a positive number of columns
    and of rows.  Where the test of the code finds the menu too high (its
    height is above that of [maxRows_ + 0.3] rows, as binary64 computes
    it): when an option has the value of the field, the item of the first
    such option is the one scrolled into view, at row [i / columns] and
    column [i mod columns]; when no option has it, nothing is scrolled if
    the last row is full, and the search raises on the item that is
    missing if the last row is short; a menu without options raises
    before, on the row that is measured.  Where the test does not find the
    menu too high, it is left alone. *)
Theorem row_limit_scrolls_to_the_selected_item :
  forall (f : t Base) (options : list MenuOption) (scrollHeight rowHeight : Z),
    (0 < columns_ _ f)%Z -> (0 < maxRows_ _ f)%Z ->
    let rows := rowsLoop _ f options 0 (length options) in
    let c := Z.to_nat (columns_ _ f) in
    (tooHigh _ f scrollHeight rowHeight = true ->
       (forall (i : nat) (o : MenuOption),
           options !! i = Some o -> optValue o = value_ _ f ->
           (forall j o', j < i -> options !! j = Some o' ->
                         optValue o' <> value_ _ f) ->
           showEditor_rowLimit _ f rows scrollHeight rowHeight
           = Some (true, Some (i / c, i mod c)))
       /\ ((forall o, o ∈ options -> optValue o <> value_ _ f) ->
           showEditor_rowLimit _ f rows scrollHeight rowHeight
           = if (length options =? 0) then None
             else if (length options mod c =? 0) then Some (true, None)
                  else None))
    /\ (tooHigh _ f scrollHeight rowHeight = false ->
        showEditor_rowLimit _ f rows scrollHeight rowHeight
        = if (length options =? 0) then None else Some (false, None)).
Proof.
  intros f options sh rh Hc Hm rows c.
  assert (Hc' : 0 < c) by (subst c; lia).
  pose proof (rows_closed_form f options Hc) as Hrows. cbn zeta in Hrows.
  fold c in Hrows. fold rows in Hrows.
  set (R := (length options + c - 1) / c) in *.
  pose proof (number_of_rows c (length options) Hc') as HR. fold R in HR.
  set (g := fun r => createRow _ f r options) in *.
  assert (Hempty : length options = 0 -> rows = []).
  { intros H0. rewrite Hrows. subst R. rewrite H0.
    rewrite (Nat.div_small (0 + c - 1) c) by lia. reflexivity. }
  assert (Hnonempty : length options <> 0 -> exists r0 rest, rows = r0 :: rest).
  { intros Hn. rewrite Hrows.
    assert (HR0 : 0 < R) by (apply HR; lia).
    destruct R as [| R']; [lia |]. cbn [seq map]. eauto. }
  (* the items of a row *)
  assert (Hitem : forall r j it,
            g r !! j = Some it ->
            j < c /\ exists o, options !! (c * r + j) = Some o
                               /\ it = menuItemOf _ f o).
  { intros r j it H. subst g. cbn beta in H.
    rewrite createRow_lookup in H by exact Hc. fold c in H.
    destruct (decide (j < c)) as [Hj | Hj];
      [rewrite bool_decide_eq_true_2 in H by exact Hj
      | rewrite bool_decide_eq_false_2 in H by exact Hj; discriminate].
    split; [exact Hj |].
    destruct (options !! (c * r + j)) as [o |]; [| discriminate].
    injection H as <-. eauto. }
  assert (Hfull : forall r j, j < c -> c * r + j < length options ->
            exists o, options !! (c * r + j) = Some o
                      /\ g r !! j = Some (menuItemOf _ f o)).
  { intros r j Hj Hlt. subst g. cbn beta.
    rewrite createRow_lookup by exact Hc. fold c.
    rewrite bool_decide_eq_true_2 by exact Hj.
    destruct (lookup_lt_is_Some_2 options (c * r + j) Hlt) as (o & Ho).
    rewrite Ho. eauto. }
  unfold showEditor_rowLimit.
  rewrite (proj2 (Z.ltb_lt 0 (maxRows_ _ f)) Hm).
  split.
  - intros Hhigh. rewrite Hhigh.
    split.
    + intros i o Hi Hv Hfirst.
      pose proof (lookup_lt_Some _ _ _ Hi) as Hlt.
      pose proof (Nat.div_mod_eq i c) as Hd.
      pose proof (Nat.mod_upper_bound i c ltac:(lia)) as Hmod.
      destruct (Hnonempty ltac:(lia)) as (r0 & rest & Hr0).
      rewrite Hr0, <- Hr0.
      assert (Hri : i / c < R) by (apply HR; nia).
      assert (Hsplit : rows
                       = map g (seq 0 (i / c))
                         ++ g (i / c) :: map g (seq (S (i / c)) (R - S (i / c)))).
      { rewrite Hrows.
        replace R with (i / c + S (R - S (i / c))) at 1 by lia.
        rewrite seq_app, map_app. reflexivity. }
      rewrite Hsplit, findSelected_skips.
      * cbn [findSelected Nat.add]. fold c.
        rewrite (findInRow_found f (g (i / c)) c 0 (i mod c)).
        -- reflexivity.
        -- lia.
        -- intros k Hk.
           destruct (Hfull (i / c) k ltac:(lia) ltac:(nia)) as (o' & Ho' & Hg).
           exists (menuItemOf _ f o'). split; [exact Hg |].
           cbn. apply (Hfirst (c * (i / c) + k)); [nia | exact Ho'].
        -- destruct (Hfull (i / c) (i mod c) Hmod ltac:(nia)) as (o' & Ho' & Hg).
           rewrite <- Hd, Hi in Ho'. injection Ho' as <-.
           exists (menuItemOf _ f o). split; [exact Hg | exact Hv].
      * intros r' Hr'. apply findInRow_none. intros k Hk.
        destruct (Hfull r' k ltac:(lia) ltac:(nia)) as (o' & Ho' & Hg).
        exists (menuItemOf _ f o'). split; [exact Hg |].
        cbn. apply (Hfirst (c * r' + k)); [nia | exact Ho'].
    + intros Hnone.
      destruct (Nat.eqb_spec (length options) 0) as [H0 | H0].
      { rewrite (Hempty H0). reflexivity. }
      destruct (Hnonempty H0) as (r0 & rest & Hr0).
      rewrite Hr0, <- Hr0.
      assert (HR0 : 0 < R) by (apply HR; lia).
      pose proof (Nat.div_mod_eq (length options) c) as Hd.
      pose proof (Nat.mod_upper_bound (length options) c ltac:(lia)) as Hmod.
      assert (Hne : forall r j o, options !! (c * r + j) = Some o ->
                optValue o <> value_ _ f).
      { intros r j o Ho. apply Hnone. eapply list_elem_of_lookup_2. exact Ho. }
      assert (Hlast : length options <= R * c).
      { destruct (decide (R * c < length options)) as [H | H]; [| lia].
        apply HR in H. lia. }
      pose proof (proj2 (HR (R - 1)) ltac:(lia)) as Hprev.
      destruct (Nat.eqb_spec (length options mod c) 0) as [Hz | Hz].
      * (* every row is full *)
        replace rows with (map g (seq 0 R) ++ []) by (rewrite app_nil_r; auto).
        rewrite findSelected_skips; [reflexivity |].
        intros r' Hr'. apply findInRow_none. intros k Hk.
        assert (HRc : length options = R * c).
        { assert (Hq : length options / c = R).
          { apply Nat.le_antisymm; [| nia].
            apply Nat.Div0.div_le_upper_bound. lia. }
          nia. }
        destruct (Hfull r' k ltac:(lia) ltac:(nia)) as (o' & Ho' & Hg).
        exists (menuItemOf _ f o'). split; [exact Hg |].
        cbn. exact (Hne r' k o' Ho').
      * (* the last row is short *)
        assert (Hsplit : rows = map g (seq 0 (R - 1)) ++ [g (R - 1)]).
        { rewrite Hrows. replace R with (R - 1 + 1) at 1 by lia.
          rewrite seq_app, map_app. reflexivity. }
        rewrite Hsplit, findSelected_skips.
        -- cbn [findSelected Nat.add]. fold c.
           rewrite (findInRow_raises f (g (R - 1)) c 0
                      (length options - c * (R - 1))); [reflexivity | | |].
           ++ assert (length options < R * c); [| nia].
              destruct (decide (length options = R * c)) as [He | He]; [| lia].
              exfalso. apply Hz. rewrite He. apply Nat.Div0.mod_mul.
           ++ intros k Hk.
              destruct (Hfull (R - 1) k ltac:(nia) ltac:(nia)) as (o' & Ho' & Hg).
              exists (menuItemOf _ f o'). split; [exact Hg |].
              cbn. exact (Hne (R - 1) k o' Ho').
           ++ subst g. cbn beta. rewrite createRow_lookup by exact Hc. fold c.
              destruct (bool_decide _); [| reflexivity].
              rewrite (proj2 (lookup_ge_None options _)) by nia. reflexivity.
        -- intros r' Hr'. apply findInRow_none. intros k Hk.
           destruct (Hfull r' k ltac:(lia) ltac:(nia)) as (o' & Ho' & Hg).
           exists (menuItemOf _ f o'). split; [exact Hg |].
           cbn. exact (Hne r' k o' Ho').
  - intros Hlow. rewrite Hlow.
    destruct (Nat.eqb_spec (length options) 0) as [H0 | H0].
    + rewrite (Hempty H0). reflexivity.
    + destruct (Hnonempty H0) as (r0 & rest & ->). reflexivity.
Qed.

End GridRows.

(** The literal [0.3] is the number of binary64 nearest to three tenths:
    it is less than half a unit in the last place away. *)
Lemma three_tenths_is_nearest :
  Float64.three_tenths = SpecFloat.S754_finite false 5404319552844595 (-54)
  /\ (2 ^ 52 <= 5404319552844595 < 2 ^ 53)%Z
  /\ (Z.abs (3 * 2 ^ 54 - 10 * 5404319552844595) < 5)%Z.
Proof. split; [reflexivity|]. split; lia. Qed.

(** With rows 50 high and two rows at most, the limit that binary64
    computes is just below 115, so that a menu 115 high is too high; a
    menu 114 high is not. *)
Lemma tooHigh_at_115 (Base : Type) (f : FieldGridPicker.t Base) :
  FieldGridPicker.maxRows_ _ f = 2 ->
  FieldGridPicker.maxHeight _ f 50
  = SpecFloat.S754_finite false 8092405580431359 (-46)
  /\ (8092405580431359 < 115 * 2 ^ 46)%Z
  /\ FieldGridPicker.tooHigh _ f 115 50 = true
  /\ FieldGridPicker.tooHigh _ f 114 50 = false.
Proof.
  intros Hm. unfold FieldGridPicker.tooHigh, FieldGridPicker.maxHeight.
  rewrite Hm. split; [vm_compute; reflexivity|].
  split; [lia|]. split; vm_compute; reflexivity.
Qed.

(** X15, witness: five options in four columns, a menu 115 high with rows
    of 50 and two rows at most, which binary64 finds too high.  With the
    value of the second option the item at row 0, column 1 is scrolled
    into view; with a value that no option has the search raises in the
    second row, which holds one item.  At 114 the menu is left alone. *)
Lemma row_limit_scrolls_to_the_selected_item_witness :
  let opt s :=
    {| FieldGridPicker.optContent := FieldGridPicker.Text s;
       FieldGridPicker.optValue := s |} in
  let options := [opt "A"; opt "B"; opt "C"; opt "D"; opt "E"]%string in
  let f v : FieldGridPicker.t unit :=
    {| FieldGridPicker.base := tt;
       FieldGridPicker.menuGenerator_ := options;
       FieldGridPicker.value_ := v;
       FieldGridPicker.tooltips_ := [];
       FieldGridPicker.columns_ := 4;
       FieldGridPicker.maxRows_ := 2;
       FieldGridPicker.width_ := 400;
       FieldGridPicker.backgroundColour_ := "#000";
       FieldGridPicker.itemColour_ := FieldGridPicker.JStr "#fff";
       FieldGridPicker.tooltipConfig_ :=
         {| FieldGridPicker.enabled := true;
            FieldGridPicker.xOffset := 15;
            FieldGridPicker.yOffset := -10 |} |} in
  FieldGridPicker.showEditor_rowLimit unit (f "B"%string)
    (FieldGridPicker.rowsLoop unit (f "B"%string) options 0 5) 115 50
  = Some (true, Some (0%nat, 1%nat))
  /\ FieldGridPicker.showEditor_rowLimit unit (f "Z"%string)
       (FieldGridPicker.rowsLoop unit (f "Z"%string) options 0 5) 115 50
     = None
  /\ FieldGridPicker.showEditor_rowLimit unit (f "B"%string)
       (FieldGridPicker.rowsLoop unit (f "B"%string) options 0 5) 114 50
     = Some (false, None).
Proof.
  intros opt options f. split; [|split].
  - refine (proj1 (proj1 (row_limit_scrolls_to_the_selected_item unit
                            (f "B"%string) options 115 50 _ _) _)
              1%nat (opt "B"%string) eq_refl eq_refl _).
    + reflexivity.
    + reflexivity.
    + exact (proj1 (proj2 (proj2 (tooHigh_at_115 unit (f "B"%string) eq_refl)))).
    + intros j o' Hj Ho'. destruct j as [| j]; [| lia].
      cbn in Ho'. injection Ho' as <-. discriminate.
  - refine (proj2 (proj1 (row_limit_scrolls_to_the_selected_item unit
                            (f "Z"%string) options 115 50 _ _) _) _).
    + reflexivity.
    + reflexivity.
    + exact (proj1 (proj2 (proj2 (tooHigh_at_115 unit (f "Z"%string) eq_refl)))).
    + intros o Ho. subst options.
      repeat (apply elem_of_cons in Ho as [-> | Ho]; [discriminate |]).
      apply elem_of_nil in Ho. destruct Ho.
  - refine (proj2 (row_limit_scrolls_to_the_selected_item unit
                     (f "B"%string) options 114 50 _ _) _).
    + reflexivity.
    + reflexivity.
    + exact (proj2 (proj2 (proj2 (tooHigh_at_115 unit (f "B"%string) eq_refl)))).
Defined.

(** ** The width and the configuration of the grid picker *)

Section GridConfiguration.

Import FieldGridPicker.

Variable rt : Builtins.
Variable parseInt : jsval -> option Z.
Variable hueToRgb : jsnum -> string.
Variable CHECKMARK_OVERHANG : Z.
Variable Base : Type.
Variable super_new : list MenuOption -> Base.

(** What an opening keeps of the picker, and what it does to its width. *)
Lemma showEditor__configuration (rtl : bool) (xy scrollOffset : Goog.Coordinate)
  (paddingContainerSize borderBBox windowSize : Goog.Size)
  (w w1 : World Base) (rows : list (list MenuItem)) (xy1 : Goog.Coordinate) :
  FieldGridPicker.showEditor_ CHECKMARK_OVERHANG Base rtl xy paddingContainerSize
    borderBBox windowSize scrollOffset w = Some (w1, rows, xy1) ->
  width_ _ (picker _ w1) = Z.min (width_ _ (picker _ w)) (Goog.width windowSize)
  /\ columns_ _ (picker _ w1) = columns_ _ (picker _ w)
  /\ maxRows_ _ (picker _ w1) = maxRows_ _ (picker _ w)
  /\ value_ _ (picker _ w1) = value_ _ (picker _ w)
  /\ menuGenerator_ _ (picker _ w1) = menuGenerator_ _ (picker _ w)
  /\ backgroundColour_ _ (picker _ w1) = backgroundColour_ _ (picker _ w)
  /\ itemColour_ _ (picker _ w1) = itemColour_ _ (picker _ w)
  /\ tooltipConfig_ _ (picker _ w1) = tooltipConfig_ _ (picker _ w)
  /\ base _ (picker _ w1) = base _ (picker _ w).
Proof.
  unfold FieldGridPicker.showEditor_. intros H.
  assert (Hd : picker _ (disposeTooltips _ w) = picker _ w
               \/ picker _ (disposeTooltips _ w) = with_tooltips _ [] (picker _ w)).
  { unfold disposeTooltips.
    destruct (negb (length (tooltips_ _ (picker _ w)) =? 0)%nat); auto. }
  set (f := picker _ (disposeTooltips _ w)) in *.
  destruct (tooltipsLoop _ _ _ _ _ _) as [ts |]; [| discriminate].
  injection H as <- _ _. cbn [picker].
  destruct (Z.gtb_spec (width_ _ f) (Goog.width windowSize)) as [Hgt | Hle].
  - destruct Hd as [-> | ->]; cbn in Hgt |- *; repeat split; lia.
  - destruct Hd as [-> | ->]; cbn in Hle |- *; repeat split; lia.
Qed.

(** X16.  An opening cuts the width of the menu to the width of the window
    and keeps that width: the width after an opening is the smaller of the
    width before and the width of the window, so that a menu that was
    opened in a narrow window stays narrow when it is opened again in a
    wide one.  Nothing else of the configuration changes. *)
Theorem width_of_the_menu_never_grows_back :
  forall (rtl rtl' : bool) (xy xy' scrollOffset scrollOffset' : Goog.Coordinate)
         (paddingContainerSize paddingContainerSize' borderBBox borderBBox'
          windowSize windowSize' : Goog.Size)
         (w w1 w2 : World Base) (rows rows' : list (list MenuItem))
         (xy1 xy2 : Goog.Coordinate),
    FieldGridPicker.showEditor_ CHECKMARK_OVERHANG Base rtl xy
      paddingContainerSize borderBBox windowSize scrollOffset w
    = Some (w1, rows, xy1) ->
    FieldGridPicker.showEditor_ CHECKMARK_OVERHANG Base rtl' xy'
      paddingContainerSize' borderBBox' windowSize' scrollOffset' w1
    = Some (w2, rows', xy2) ->
    width_ _ (picker _ w1) = Z.min (width_ _ (picker _ w)) (Goog.width windowSize)
    /\ width_ _ (picker _ w2)
       = Z.min (Z.min (width_ _ (picker _ w)) (Goog.width windowSize))
           (Goog.width windowSize')
    /\ width_ _ (picker _ w2) <= Goog.width windowSize
    /\ columns_ _ (picker _ w2) = columns_ _ (picker _ w)
    /\ maxRows_ _ (picker _ w2) = maxRows_ _ (picker _ w)
    /\ menuGenerator_ _ (picker _ w2) = menuGenerator_ _ (picker _ w)
    /\ tooltipConfig_ _ (picker _ w2) = tooltipConfig_ _ (picker _ w).
Proof.
  intros rtl rtl' xy xy' so so' pcs pcs' bb bb' ws ws' w w1 w2 rows rows' xy1 xy2
    H1 H2.
  apply showEditor__configuration in H1 as (W1 & C1 & M1 & _ & G1 & _ & _ & T1 & _).
  apply showEditor__configuration in H2 as (W2 & C2 & M2 & _ & G2 & _ & _ & T2 & _).
  repeat split; try congruence; try lia.
Qed.

(** X17.  What the constructor never lets through.  A number of columns, a
    width or a tooltip offset that is missing, not a number or zero is
    replaced by 4, 400, 15 and -10: these fields are never zero, and a zero
    offset cannot be asked for.  The background colour is what
    [Blockly.hueToRgb] makes of the argument when [Number] reads it as a
    number; when it does not, a string that is a [#] followed by six
    hexadecimal digits (seven characters) is kept as it is, and anything
    else gives ['#000'].  The item colour is never falsy; the picker
    starts without tooltips. *)
Theorem constructor_replaces_what_is_missing :
  forall (menuGenerator : list MenuOption) (value : string)
         (backgroundColour : jsval) (params : Params),
    let f := FieldGridPicker.new rt parseInt hueToRgb Base super_new
               menuGenerator value backgroundColour params in
    let missing v := parseInt v = None \/ parseInt v = Some 0 in
    let hue := valToNumber rt
                 (match backgroundColour with
                  | JUndefined => JStr "#000"
                  | v => v
                  end) in
    (columns_ _ f <> 0 /\ width_ _ f <> 0
     /\ xOffset (tooltipConfig_ _ f) <> 0 /\ yOffset (tooltipConfig_ _ f) <> 0)
    /\ (missing (columns params) -> columns_ _ f = 4)
    /\ (missing (maxRows params) -> maxRows_ _ f = 0)
    /\ (missing (width params) -> width_ _ f = 400)
    /\ (missing (tooltipsXOffset params) -> xOffset (tooltipConfig_ _ f) = 15)
    /\ (missing (tooltipsYOffset params) -> yOffset (tooltipConfig_ _ f) = -10)
    /\ (forall z : Z, z <> 0 -> parseInt (columns params) = Some z ->
                      columns_ _ f = z)
    /\ (isNaN hue = false -> backgroundColour_ _ f = hueToRgb hue)
    /\ (isNaN hue = true ->
        (forall s, backgroundColour = JStr s -> isHexColour s = true ->
                   backgroundColour_ _ f = s /\ String.length s = 7%nat)
        /\ ((forall s, backgroundColour = JStr s -> isHexColour s = false) ->
            backgroundColour_ _ f = "#000"%string))
    /\ toBoolean (itemColour_ _ f) = true
    /\ tooltips_ _ f = []
    /\ menuGenerator_ _ f = menuGenerator
    /\ value_ _ f = value.
Proof.
  intros menuGenerator value backgroundColour params f missing hue.
  assert (Hnz : forall v d, d <> 0 -> parseIntOr parseInt v d <> 0).
  { intros v d Hd. unfold parseIntOr.
    destruct (parseInt v) as [[| p | p] |]; try exact Hd; discriminate. }
  assert (Hmiss : forall v d, missing v -> parseIntOr parseInt v d = d).
  { intros v d [H | H]; unfold parseIntOr; rewrite H; reflexivity. }
  subst f. unfold FieldGridPicker.new.
  cbn [columns_ maxRows_ width_ tooltipConfig_ xOffset yOffset backgroundColour_
       itemColour_ tooltips_ menuGenerator_ value_].
  split; [repeat split; apply Hnz; lia |].
  do 5 (split; [apply Hmiss |]).
  split.
  { intros z Hz Hp. unfold parseIntOr. rewrite Hp.
    destruct z; [contradiction | reflexivity | reflexivity]. }
  fold hue.
  split; [intros ->; reflexivity |].
  split.
  { intros ->. cbn [negb]. split.
    - intros s -> Hhex. rewrite Hhex. split; [reflexivity|].
      unfold isHexColour in Hhex.
      destruct s as [| ch r]; [discriminate |].
      destruct (Ascii.eqb_spec ch "#"%char) as [-> | Hne].
      + apply andb_prop in Hhex as (Hl & _). apply Nat.eqb_eq in Hl.
        cbn [String.length]. rewrite Hl. reflexivity.
      + exfalso. revert Hhex.
        destruct ch as [[] [] [] [] [] [] [] []]; try discriminate;
          intros _; apply Hne; reflexivity.
    - intros Hall.
      destruct backgroundColour as [| | b | n | s]; try reflexivity.
      rewrite (Hall s eq_refl). reflexivity. }
  split.
  { unfold valOr. destruct (toBoolean (itemColour params)) eqn:Hb;
      [exact Hb | reflexivity]. }
  repeat split.
Qed.

End GridConfiguration.

(** X17, at work: a hexadecimal colour is kept, the name of a colour and a
    colour that is left out give ['#000'], a hue goes through
    [Blockly.hueToRgb] (here a function that answers "rgb"), and columns
    that are left out are 4. *)
Lemma constructor_replaces_what_is_missing_witness :
  let params :=
    {| FieldGridPicker.columns := FieldGridPicker.JUndefined;
       FieldGridPicker.maxRows := FieldGridPicker.JUndefined;
       FieldGridPicker.width := FieldGridPicker.JUndefined;
       FieldGridPicker.itemColour := FieldGridPicker.JUndefined;
       FieldGridPicker.tooltips := FieldGridPicker.JUndefined;
       FieldGridPicker.tooltipsXOffset := FieldGridPicker.JUndefined;
       FieldGridPicker.tooltipsYOffset := FieldGridPicker.JUndefined |} in
  let new c :=
    FieldGridPicker.new Ref.refBuiltins (fun _ => None)
      (fun _ => "rgb"%string) unit (fun _ => tt) [] "" c params in
  FieldGridPicker.backgroundColour_ _ (new (FieldGridPicker.JStr "#a1B2c3")) = "#a1B2c3"%string
  /\ FieldGridPicker.backgroundColour_ _ (new (FieldGridPicker.JStr "red")) = "#000"%string
  /\ FieldGridPicker.backgroundColour_ _ (new FieldGridPicker.JUndefined) = "#000"%string
  /\ FieldGridPicker.backgroundColour_ _ (new (FieldGridPicker.JStr "120")) = "rgb"%string
  /\ FieldGridPicker.columns_ _ (new FieldGridPicker.JUndefined) = 4.
Proof.
  intros params new.
  pose proof (fun c =>
                constructor_replaces_what_is_missing Ref.refBuiltins
                  (fun _ => None) (fun _ => "rgb"%string) unit (fun _ => tt)
                  [] ""%string c params) as H.
  cbv zeta in H.
  split.
  { destruct (H (FieldGridPicker.JStr "#a1B2c3")) as (_ & _ & _ & _ & _ & _ & _ & _ & Hc & _).
    exact (proj1 (proj1 (Hc eq_refl) _ eq_refl eq_refl)). }
  split.
  { destruct (H (FieldGridPicker.JStr "red")) as (_ & _ & _ & _ & _ & _ & _ & _ & Hc & _).
    apply (proj2 (Hc eq_refl)). intros s Hs. injection Hs as <-. reflexivity. }
  split.
  { destruct (H FieldGridPicker.JUndefined) as (_ & _ & _ & _ & _ & _ & _ & _ & Hc & _).
    apply (proj2 (Hc eq_refl)). intros s Hs. discriminate Hs. }
  split.
  { destruct (H (FieldGridPicker.JStr "120")) as (_ & _ & _ & _ & _ & _ & _ & Hc & _).
    apply Hc. cbn [FieldGridPicker.valToNumber ToNumber Ref.refBuiltins].
    unfold Ref.ref_ToNumber.
    change (Ref.numberLiteral "120") with (Some (Ref.LDec false 120 0)).
    reflexivity. }
  destruct (H FieldGridPicker.JUndefined) as (_ & Hc & _).
  apply Hc. left. reflexivity.
Defined.

(** X16, witness: a menu 400 wide with two options is opened in a window
    300 wide, then in a window 1000 wide. *)
Lemma width_of_the_menu_never_grows_back_witness :
  let opt s :=
    {| FieldGridPicker.optContent := FieldGridPicker.Text s;
       FieldGridPicker.optValue := s |} in
  let w : FieldGridPicker.World unit :=
    {| FieldGridPicker.picker :=
         {| FieldGridPicker.base := tt;
            FieldGridPicker.menuGenerator_ := [opt "A"; opt "B"]%string;
            FieldGridPicker.value_ := "A";
            FieldGridPicker.tooltips_ := [];
            FieldGridPicker.columns_ := 4;
            FieldGridPicker.maxRows_ := 0;
            FieldGridPicker.width_ := 400;
            FieldGridPicker.backgroundColour_ := "#000";
            FieldGridPicker.itemColour_ := FieldGridPicker.JStr "#fff";
            FieldGridPicker.tooltipConfig_ :=
              {| FieldGridPicker.enabled := true;
                 FieldGridPicker.xOffset := 15;
                 FieldGridPicker.yOffset := -10 |} |};
       FieldGridPicker.disposed := [] |} in
  let open width w0 :=
    FieldGridPicker.showEditor_ 25 unit false
      {| Goog.x := 10; Goog.y := 10 |}
      {| Goog.width := 100; Goog.height := 50 |}
      {| Goog.width := 80; Goog.height := 20 |}
      {| Goog.width := width; Goog.height := 600 |}
      {| Goog.x := 0; Goog.y := 0 |} w0 in
  exists w1 w2 rows rows' xy1 xy2,
    open 300 w = Some (w1, rows, xy1)
    /\ open 1000 w1 = Some (w2, rows', xy2)
    /\ FieldGridPicker.width_ unit (FieldGridPicker.picker unit w2) <= 300.
Proof.
  intros opt w open.
  destruct (open 300 w) as [[[w1 rows] xy1] |] eqn:H1; [| discriminate H1].
  destruct (open 1000 w1) as [[[w2 rows'] xy2] |] eqn:H2.
  - exists w1, w2, rows, rows', xy1, xy2.
    split; [reflexivity | split; [exact H2 |]].
    exact (proj1 (proj2 (proj2 (width_of_the_menu_never_grows_back 25 unit
                                  _ _ _ _ _ _ _ _ _ _ _ _ _ _ _ _ _ _ _
                                  H1 H2)))).
  - exfalso. subst open. vm_compute in H1. injection H1 as <- _ _.
    vm_compute in H2. discriminate H2.
Defined.

(** ** The SVG elements of the flyout button *)

Section FlyoutDom.

Import FlyoutButton.

Variable Callback : Type.
Variable MouseEvent : Type.
Variable getCachedWidth : string -> option string -> Z.
Variable EDGE_OR_IE : bool.
Variable IE_TEXT_OFFSET : string.

(** X18.  What [createDom] makes the button measure.  The width is that of
    the text, plus that of the icon and 80 when there is an icon or an icon
    class, plus 80 for a button that is not a label; it is computed anew at
    each call.  The background rectangle has that width and the height of
    the prototype, and so has the shadow, which only a button has; the text
    is centred in it.  A line without a width of its own is as long as the
    button was wide before the 80 of a button were added: as long as a
    label, 80 shorter than a button. *)
Theorem createDom_sizes_the_button :
  forall (p p' : Page Callback MouseEvent),
    createDom _ _ getCachedWidth EDGE_OR_IE IE_TEXT_OFFSET p = Some p' ->
    let b := button _ _ (dom _ _ p) in
    let textWidth :=
      getCachedWidth
        (if isLabel_ _ _ b then "blocklyFlyoutLabelText" else "blocklyText")
        (text_ _ _ b) in
    let hasIcon := truthy (icon_ _ _ b) || truthy (iconClass_ _ _ b) in
    let iconWidth :=
      getCachedWidth
        (if truthy (iconClass_ _ _ b)
         then ("blocklyFlyoutLabelIcon " ++ default "" (iconClass_ _ _ b))%string
         else "blocklyFlyoutLabelIcon")
        (if truthy (icon_ _ _ b) then icon_ _ _ b else None) in
    let margin := if isLabel_ _ _ b then 0 else 80 in
    let w := width _ _ (dom _ _ p') in
    w = textWidth + (if hasIcon then iconWidth + 80 else 0) + margin
    /\ height _ _ (dom _ _ p') = height _ _ (dom _ _ p)
    /\ button _ _ (dom _ _ p') = b
    /\ exists g : SvgGroup,
         svgGroup_ _ _ (dom _ _ p') = Some g
         /\ svg_rect g = {| Goog.width := w; Goog.height := height _ _ (dom _ _ p) |}
         /\ svg_shadow g
            = (if isLabel_ _ _ b then None
               else Some {| Goog.width := w;
                            Goog.height := height _ _ (dom _ _ p) |})
         /\ (svg_text_x g * 2 == inject_Z w)%Q
         /\ (svg_text_y g * 2 == inject_Z (height _ _ (dom _ _ p)))%Q
         /\ svg_textContent g = text_ _ _ b
         /\ (is_Some (svg_icon g) <-> hasIcon = true)
         /\ (is_Some (svg_line g) <-> truthy (line_ _ _ b) = true)
         /\ (forall l : Line,
               svg_line g = Some l ->
               line_x1 l = 0
               /\ line_x2 l = match lineWidth_ _ _ b with
                              | Some lw => inl lw
                              | None => inr (w - margin)
                              end).
Proof.
  intros p p' H b textWidth hasIcon iconWidth margin w.
  unfold createDom in H. fold b in H.
  destruct (workspace_ _ _ b) as [ws |]; [| discriminate].
  fold textWidth in H. fold hasIcon in H. fold iconWidth in H.
  assert (Hm : (if negb (isLabel_ _ _ b) then 2 * MARGIN else 0) = margin).
  { subst margin. unfold MARGIN. destruct (isLabel_ _ _ b); reflexivity. }
  destruct hasIcon eqn:Hicon.
  - destruct (targetWorkspace_ _ _ b) as [tws |]; [| discriminate].
    injection H as <-. subst w. cbn [dom width height button svgGroup_].
    unfold MARGIN in *.
    split; [destruct (isLabel_ _ _ b); subst margin; cbn; lia |].
    split; [reflexivity | split; [reflexivity |]].
    eexists. split; [reflexivity |].
    cbn [svg_rect svg_shadow svg_text_x svg_text_y svg_textContent svg_icon
         svg_line].
    split; [reflexivity |].
    split; [destruct (isLabel_ _ _ b); reflexivity |].
    split; [field |]. split; [field |]. split; [reflexivity |].
    split; [split; [reflexivity | intros _; eexists; reflexivity] |].
    split.
    { destruct (truthy (line_ _ _ b)); split; intros Hx;
        first [reflexivity | discriminate | destruct Hx; discriminate
              | eexists; reflexivity]. }
    intros l Hl. destruct (truthy (line_ _ _ b)); [| discriminate].
    injection Hl as <-. cbn [line_x1 line_x2]. split; [reflexivity |].
    destruct (lineWidth_ _ _ b); [reflexivity |].
    f_equal. destruct (isLabel_ _ _ b); subst margin; cbn; lia.
  - injection H as <-. subst w. cbn [dom width height button svgGroup_].
    unfold MARGIN in *.
    split; [destruct (isLabel_ _ _ b); subst margin; cbn; lia |].
    split; [reflexivity | split; [reflexivity |]].
    eexists. split; [reflexivity |].
    cbn [svg_rect svg_shadow svg_text_x svg_text_y svg_textContent svg_icon
         svg_line].
    split; [reflexivity |].
    split; [destruct (isLabel_ _ _ b); reflexivity |].
    split; [field |]. split; [field |]. split; [reflexivity |].
    split; [split; [intros [? ?]; discriminate | discriminate] |].
    split.
    { destruct (truthy (line_ _ _ b)); split; intros Hx;
        first [reflexivity | discriminate | destruct Hx; discriminate
              | eexists; reflexivity]. }
    intros l Hl. destruct (truthy (line_ _ _ b)); [| discriminate].
    injection Hl as <-. cbn [line_x1 line_x2]. split; [reflexivity |].
    destruct (lineWidth_ _ _ b); [reflexivity |].
    f_equal. destruct (isLabel_ _ _ b); subst margin; cbn; lia.
Qed.

(** What holds of a button from its construction to its disposal. *)
Lemma domStep_kept (a : domAction) (p p' : Page Callback MouseEvent) :
  domStep _ _ getCachedWidth EDGE_OR_IE IE_TEXT_OFFSET a p = Some p' ->
  onMouseUpWrapper_ _ _ (dom _ _ p) = None
  /\ (forall k, mouseUpWrapper_ _ _ (dom _ _ p) = Some k -> k ∈ bound _ _ p)
  /\ (forall g, svgGroup_ _ _ (dom _ _ p) = Some g ->
                svg_transform g = None
                \/ svg_transform g = Some (position_ _ _ (dom _ _ p))) ->
  (onMouseUpWrapper_ _ _ (dom _ _ p') = None
   /\ (forall k, mouseUpWrapper_ _ _ (dom _ _ p') = Some k -> k ∈ bound _ _ p')
   /\ (forall g, svgGroup_ _ _ (dom _ _ p') = Some g ->
                 svg_transform g = None
                 \/ svg_transform g = Some (position_ _ _ (dom _ _ p'))))
  /\ (a = CreateDom \/ is_Some (mouseUpWrapper_ _ _ (dom _ _ p)) ->
      is_Some (mouseUpWrapper_ _ _ (dom _ _ p')))
  /\ is_Some (svgGroup_ _ _ (dom _ _ p'))
  /\ (forall x y, a = MoveTo x y ->
                  getPosition _ _ (dom _ _ p') = {| Goog.x := x; Goog.y := y |})
  /\ (a = Show -> getPosition _ _ (dom _ _ p') = getPosition _ _ (dom _ _ p)).
Proof.
  intros H (Hon & Hmw & Htr).
  destruct a as [| | x y]; cbn [domStep] in H.
  - unfold createDom in H.
    destruct (workspace_ _ _ _); [| discriminate].
    match type of H with
    | match ?c with _ => _ end = _ => destruct c as [[ic w1] |]; [| discriminate]
    end.
    injection H as <-. cbn [dom bound onMouseUpWrapper_ mouseUpWrapper_ svgGroup_
                            position_ getPosition].
    split; [split; [exact Hon | split] |].
    + intros k Hk. injection Hk as <-. apply elem_of_app. right.
      apply list_elem_of_here.
    + intros g Hg. injection Hg as <-. left. reflexivity.
    + split; [intros _; eexists; reflexivity |].
      split; [eexists; reflexivity |].
      split; [intros x y Hxy; discriminate | intros Hs; discriminate].
  - unfold show, updateTransform_ in H.
    destruct (svgGroup_ _ _ (dom _ _ p)) as [g |] eqn:Hg; [| discriminate].
    cbn in H. injection H as <-.
    cbn [dom bound onMouseUpWrapper_ mouseUpWrapper_ svgGroup_ position_
         with_svgGroup_ getPosition].
    split; [split; [exact Hon | split; [exact Hmw |]] |].
    + intros g' Hg'. injection Hg' as <-. right. reflexivity.
    + split; [intros [Hc | Hs]; [discriminate | exact Hs] |].
      split; [eexists; reflexivity |].
      split; [intros x y Hxy; discriminate | intros _; reflexivity].
  - unfold moveTo, updateTransform_ in H. cbn [svgGroup_] in H.
    destruct (svgGroup_ _ _ (dom _ _ p)) as [g |] eqn:Hg; [| discriminate].
    injection H as <-.
    cbn [dom bound onMouseUpWrapper_ mouseUpWrapper_ svgGroup_ position_
         with_svgGroup_ getPosition].
    split; [split; [exact Hon | split; [exact Hmw |]] |].
    + intros g' Hg'. injection Hg' as <-. right. reflexivity.
    + split; [intros [Hc | Hs]; [discriminate | exact Hs] |].
      split; [eexists; reflexivity |].
      split; [intros x' y' Hxy; injection Hxy as <- <-; reflexivity
             | intros Hs; discriminate].
Qed.

(** X19.  The life of a button, from its construction on, through any calls
    of [createDom], [show] and [moveTo] that do not raise.  [show] and
    [moveTo] raise as long as [createDom] was not called.  The transform on
    the group, once set, is the position of the button.  [dispose] never
    undoes an event binding: it looks for it in [onMouseUpWrapper_], where
    nothing puts it, while [createDom] keeps it in [mouseUpWrapper_]; so
    the mouse-up listener of every [createDom] stays bound.  After
    [dispose] the group is removed and the workspaces are let go, a second
    [dispose] changes nothing, and [createDom], [show], [moveTo] and a
    mouse-up that reaches the listener all raise. *)
Theorem listener_outlives_the_button :
  forall (b : FlyoutButton.t Callback MouseEvent) (l : list domAction)
         (p : Page Callback MouseEvent),
    domRun _ _ getCachedWidth EDGE_OR_IE IE_TEXT_OFFSET l (newPage _ _ b) = Some p ->
    let q := dispose _ _ p in
    (show _ _ (newDom _ _ b) = None
     /\ forall x y, moveTo _ _ x y (newDom _ _ b) = None)
    /\ (forall g, svgGroup_ _ _ (dom _ _ p) = Some g ->
                  svg_transform g = None
                  \/ svg_transform g = Some (getPosition _ _ (dom _ _ p)))
    /\ bound _ _ q = bound _ _ p
    /\ (CreateDom ∈ l ->
        exists k, mouseUpWrapper_ _ _ (dom _ _ p) = Some k /\ k ∈ bound _ _ q)
    /\ svgGroup_ _ _ (dom _ _ q) = None
    /\ removed _ _ q
       = removed _ _ p ++ match svgGroup_ _ _ (dom _ _ p) with
                          | Some g => [g]
                          | None => []
                          end
    /\ workspace_ _ _ (button _ _ (dom _ _ q)) = None
    /\ getTargetWorkspace _ _ (dom _ _ q) = None
    /\ dispose _ _ q = q
    /\ createDom _ _ getCachedWidth EDGE_OR_IE IE_TEXT_OFFSET q = None
    /\ show _ _ (dom _ _ q) = None
    /\ (forall x y, moveTo _ _ x y (dom _ _ q) = None)
    /\ (forall e : MouseEvent, onMouseUp_ _ _ e (button _ _ (dom _ _ q)) = None).
Proof.
  intros b l p Hrun q.
  assert (Hinv : forall l (p0 p1 : Page Callback MouseEvent),
            domRun _ _ getCachedWidth EDGE_OR_IE IE_TEXT_OFFSET l p0 = Some p1 ->
            onMouseUpWrapper_ _ _ (dom _ _ p0) = None
            /\ (forall k, mouseUpWrapper_ _ _ (dom _ _ p0) = Some k ->
                          k ∈ bound _ _ p0)
            /\ (forall g, svgGroup_ _ _ (dom _ _ p0) = Some g ->
                          svg_transform g = None
                          \/ svg_transform g = Some (position_ _ _ (dom _ _ p0))) ->
            (onMouseUpWrapper_ _ _ (dom _ _ p1) = None
             /\ (forall k, mouseUpWrapper_ _ _ (dom _ _ p1) = Some k ->
                           k ∈ bound _ _ p1)
             /\ (forall g, svgGroup_ _ _ (dom _ _ p1) = Some g ->
                           svg_transform g = None
                           \/ svg_transform g
                              = Some (position_ _ _ (dom _ _ p1))))
            /\ (CreateDom ∈ l \/ is_Some (mouseUpWrapper_ _ _ (dom _ _ p0)) ->
                is_Some (mouseUpWrapper_ _ _ (dom _ _ p1)))).
  { clear. induction l as [| a r IH]; intros p0 p1 H Hi.
    - injection H as <-. split; [exact Hi |].
      intros [Hc | Hs]; [apply elem_of_nil in Hc; destruct Hc | exact Hs].
    - cbn [domRun] in H.
      destruct (domStep _ _ _ _ _ a p0) as [p' |] eqn:Hstep; [| discriminate].
      destruct (domStep_kept a p0 p' Hstep Hi) as (Hi' & Hm' & _).
      destruct (IH p' p1 H Hi') as (Hi1 & Hm1).
      split; [exact Hi1 |]. intros Hc. apply Hm1.
      destruct Hc as [Hc | Hs].
      + apply elem_of_cons in Hc as [<- | Hc]; [| left; exact Hc].
        right. apply Hm'. left. reflexivity.
      + right. apply Hm'. right. exact Hs. }
  destruct (Hinv l (newPage _ _ b) p Hrun) as ((Hon & Hmw & Htr) & Hcreated).
  { cbn. repeat split; intros; discriminate. }
  split; [split; [reflexivity | intros x y; reflexivity] |].
  split; [exact Htr |].
  assert (Hq : q = {| dom := dom _ _ q; bound := bound _ _ p;
                      nextBinding := nextBinding _ _ p;
                      removed := removed _ _ q |}).
  { subst q. unfold dispose. cbv zeta. rewrite Hon. reflexivity. }
  assert (Hdq : svgGroup_ _ _ (dom _ _ q) = None
                /\ workspace_ _ _ (button _ _ (dom _ _ q)) = None
                /\ targetWorkspace_ _ _ (button _ _ (dom _ _ q)) = None
                /\ onMouseUpWrapper_ _ _ (dom _ _ q) = None).
  { subst q. unfold dispose. cbv zeta. cbn. repeat split. exact Hon. }
  destruct Hdq as (Hg & Hw & Htw & Honq).
  split; [rewrite Hq; reflexivity |].
  split.
  { intros Hc. destruct (Hcreated (or_introl Hc)) as (k & Hk).
    exists k. split; [exact Hk | rewrite Hq; cbn [bound]; apply Hmw; exact Hk]. }
  split; [exact Hg |].
  split.
  { subst q. unfold dispose. cbv zeta. cbn [removed].
    destruct (svgGroup_ _ _ (dom _ _ p)); [reflexivity | symmetry; apply app_nil_r]. }
  split; [exact Hw |]. split; [exact Htw |].
  split.
  { subst q. clear - Hon. destruct p as [[bq pos wd ht sg omw mw] bd nb rm].
    cbn in Hon. subst omw. reflexivity. }
  split; [unfold createDom; rewrite Hw; reflexivity |].
  split; [unfold show, updateTransform_; rewrite Hg; reflexivity |].
  split; [intros x y; unfold moveTo, updateTransform_; cbn [svgGroup_];
          rewrite Hg; reflexivity |].
  intros e. unfold onMouseUp_. rewrite Htw. reflexivity.
Qed.

End FlyoutDom.

(** X18, witness: a button "Make a Variable" with a dashed line and no icon;
    every text is taken to be ten pixels wide for each of its characters. *)
Lemma createDom_sizes_the_button_witness :
  let ws : FlyoutButton.Workspace string unit :=
    {| FlyoutButton.getButtonCallback := fun _ => Some "createVariable"%string;
       FlyoutButton.getGesture := fun _ => false;
       FlyoutButton.RTL := false |} in
  let xml : FlyoutButton.Element :=
    <["text" := "Make a Variable"]>
      (<["callbackkey" := "CREATE_VARIABLE"]> (<["web-line" := "4"]> ∅)) in
  let measure (_ : string) (text : option string) :=
    10 * Z.of_nat (String.length (default ""%string text)) in
  let page :=
    FlyoutButton.newPage string unit
      (fst (FlyoutButton.new string unit ws ws xml false)) in
  exists p' g l,
    FlyoutButton.createDom string unit measure false "0.3em" page = Some p'
    /\ FlyoutButton.width string unit (FlyoutButton.dom string unit p') = 230
    /\ FlyoutButton.svgGroup_ string unit (FlyoutButton.dom string unit p')
       = Some g
    /\ FlyoutButton.svg_line g = Some l
    /\ FlyoutButton.line_x2 l = inr 150.
Proof.
  intros ws xml measure page.
  destruct (FlyoutButton.createDom string unit measure false "0.3em" page)
    as [p' |] eqn:H; [| vm_compute in H; discriminate H].
  destruct (createDom_sizes_the_button string unit measure false "0.3em"
              page p' H) as (Hw & _ & _ & g & Hg & _ & _ & _ & _ & _ & _ & Hl & Hx).
  assert (Hline : is_Some (FlyoutButton.svg_line g)).
  { apply Hl. vm_compute. reflexivity. }
  destruct Hline as (l & Hline).
  exists p', g, l.
  split; [reflexivity |].
  split; [rewrite Hw; vm_compute; reflexivity |].
  split; [exact Hg |]. split; [exact Hline |].
  destruct (Hx l Hline) as (_ & ->).
  rewrite Hw. vm_compute. reflexivity.
Defined.

(** X19, witness: the same button is created, moved, shown and disposed of;
    binding 0, which [createDom] made, is still in force. *)
Lemma listener_outlives_the_button_witness :
  let ws : FlyoutButton.Workspace string unit :=
    {| FlyoutButton.getButtonCallback := fun _ => Some "createVariable"%string;
       FlyoutButton.getGesture := fun _ => false;
       FlyoutButton.RTL := false |} in
  let xml : FlyoutButton.Element :=
    <["text" := "Make a Variable"]> (<["callbackkey" := "CREATE_VARIABLE"]> ∅) in
  let measure (_ : string) (text : option string) :=
    10 * Z.of_nat (String.length (default ""%string text)) in
  let b := fst (FlyoutButton.new string unit ws ws xml false) in
  let run :=
    FlyoutButton.domRun string unit measure false "0.3em"
      [FlyoutButton.CreateDom; FlyoutButton.MoveTo 8 16; FlyoutButton.Show]
      (FlyoutButton.newPage string unit b) in
  exists p,
    run = Some p
    /\ FlyoutButton.bound string unit (FlyoutButton.dispose string unit p)
       = FlyoutButton.bound string unit p
    /\ exists k, FlyoutButton.mouseUpWrapper_ string unit
                   (FlyoutButton.dom string unit p) = Some k
                 /\ k ∈ FlyoutButton.bound string unit
                         (FlyoutButton.dispose string unit p).
Proof.
  intros ws xml measure b run.
  destruct run as [p |] eqn:H; [| vm_compute in H; discriminate H].
  exists p. split; [reflexivity |].
  destruct (listener_outlives_the_button string unit measure false "0.3em"
              b _ p H) as (_ & _ & Hb & Hk & _).
  split; [exact Hb |]. apply Hk.
  apply list_elem_of_here.
Defined.

(** ** The toolbox of categories *)

Section ToolboxColours.

Import JS PXTToolbox.

Context {Multiplier : Type} {Opacity : Type}.
Variable fadeColour : string -> Multiplier -> bool -> string.

Implicit Types (tb : @PXTToolbox.t Multiplier Opacity).
Implicit Types (n tree child this : @TreeNode Multiplier Opacity).
Implicit Types (el row : @RowElement Multiplier Opacity).

(** Induction on a tree of categories, every child of a node first. *)
Lemma TreeNode_induction (P : @TreeNode Multiplier Opacity -> Prop) :
  (forall r h d s children,
      Forall P children -> P (mkTreeNode r h d s children)) ->
  forall n, P n.
Proof.
  intros H. fix IH 1. intros [el h d s children]. apply H.
  induction children as [|c r IHr]; constructor; [apply IH | exact IHr].
Qed.

Lemma addColour__own_node tb n :
  getRowElement (addColour_ tb n) = getRowElement n
  /\ hexColour (addColour_ tb n) = hexColour n
  /\ disabled (addColour_ tb n) = disabled n
  /\ isSelected (addColour_ tb n) = isSelected n
  /\ length (getChildren (addColour_ tb n)) = length (getChildren n).
Proof.
  destruct n as [el h d s children]. cbn.
  rewrite length_map. auto.
Qed.

Lemma getChildren_addColour_ tb n :
  getChildren (addColour_ tb n)
  = map (fun child =>
           withRowElement
             (option_map (styleRow tb child) (getRowElement child))
             (addColour_ tb child))
        (getChildren n).
Proof.
  destruct n as [el h d s children]. cbn [addColour_ getChildren].
  apply map_ext. intros child.
  destruct (addColour__own_node tb child) as [-> _]. reflexivity.
Qed.

Lemma withRowElement_fields (r : option (@RowElement Multiplier Opacity)) n :
  getRowElement (withRowElement r n) = r
  /\ hexColour (withRowElement r n) = hexColour n
  /\ disabled (withRowElement r n) = disabled n
  /\ isSelected (withRowElement r n) = isSelected n
  /\ getChildren (withRowElement r n) = getChildren n.
Proof. destruct n; cbn; auto. Qed.

Lemma addColour__withRowElement tb (r : option (@RowElement Multiplier Opacity)) n :
  addColour_ tb (withRowElement r n) = withRowElement r (addColour_ tb n).
Proof. destruct n; reflexivity. Qed.

Lemma styleRow_ext tb n n' el :
  hexColour n' = hexColour n -> disabled n' = disabled n ->
  styleRow tb n' el = styleRow tb n el.
Proof. intros Hh Hd. unfold styleRow. rewrite Hh, Hd. reflexivity. Qed.

(** The node that a path leads to after [addColour_]: the outcome of
    [addColour_] on the node that the path led to, with its row styled
    unless the path is empty. *)
Lemma subtree_addColour_ tb :
  forall (path : list nat) tree,
    subtree path (addColour_ tb tree)
    = option_map
        (fun n =>
           match path with
           | [] => addColour_ tb n
           | _ :: _ =>
               withRowElement
                 (option_map (styleRow tb n) (getRowElement n))
                 (addColour_ tb n)
           end)
        (subtree path tree).
Proof.
  induction path as [|i path IH]; intros tree; [reflexivity|].
  cbn [subtree]. rewrite getChildren_addColour_, list_lookup_fmap.
  destruct (getChildren tree !! i) as [child|]; [|reflexivity].
  cbn [fmap option_fmap option_map].
  destruct path as [|j path].
  - reflexivity.
  - change (subtree (j :: path) ?x)
      with (match getChildren x !! j with
            | Some c => subtree path c
            | None => None
            end).
    destruct (withRowElement_fields
                (option_map (styleRow tb child) (getRowElement child))
                (addColour_ tb child)) as (_ & _ & _ & _ & ->).
    apply (IH child).
Qed.

(** X20.  [addColour_] goes through the whole tree and writes on rows only.
    The paths that lead to a node are the same before and after.  The node
    at the end of a path keeps its colour, its flags and the number of its
    children; the root keeps its row as it is, a node without a row stays
    without, and the row of every other node is the one that the body of
    the loop makes of it, whatever the depth.  On that row: a toolbox that
    is not inverted leaves the background, the listeners and the border of
    the far side alone; an inverted one leaves both borders alone; the
    opacity is written for a disabled category and never for another. *)
Theorem addColour__goes_through_the_whole_tree :
  forall tb tree (path : list nat),
    match subtree path tree with
    | None => subtree path (addColour_ tb tree) = None
    | Some n =>
        exists n',
          subtree path (addColour_ tb tree) = Some n'
          /\ hexColour n' = hexColour n
          /\ disabled n' = disabled n
          /\ isSelected n' = isSelected n
          /\ length (getChildren n') = length (getChildren n)
          /\ (path = [] -> getRowElement n' = getRowElement n)
          /\ (getRowElement n = None -> getRowElement n' = None)
          /\ (forall el,
                path <> [] -> getRowElement n = Some el ->
                let el' := styleRow tb n el in
                getRowElement n' = Some el'
                /\ (invertedToolbox (options tb) = false ->
                    background (style el') = background (style el)
                    /\ listeners el' = listeners el
                    /\ (if RTL tb then borderLeft (style el')
                        else borderRight (style el'))
                       = (if RTL tb then borderLeft (style el)
                          else borderRight (style el))
                    /\ (if RTL tb then borderRight (style el')
                        else borderLeft (style el'))
                       = Some (if hasColours_ tb
                               then ("8px solid "
                                     ++ strOr (hexColour n) "#ddd")%string
                               else "none"%string))
                /\ (invertedToolbox (options tb) = true ->
                    borderLeft (style el') = borderLeft (style el)
                    /\ borderRight (style el') = borderRight (style el))
                /\ opacity (style el')
                   = (if disabled n then Some (disabledOpacity (options tb))
                      else opacity (style el)))
    end.
Proof.
  intros tb tree path. rewrite subtree_addColour_.
  destruct (subtree path tree) as [n|]; [|reflexivity].
  cbn [option_map].
  destruct (addColour__own_node tb n) as (Hr & Hh & Hd & Hs & Hl).
  destruct path as [|i path].
  - exists (addColour_ tb n).
    split; [reflexivity|]. split; [exact Hh|]. split; [exact Hd|].
    split; [exact Hs|]. split; [exact Hl|]. split; [intros _; exact Hr|].
    split; [intros Hn; rewrite Hr; exact Hn|].
    intros el Hp. contradiction Hp. reflexivity.
  - set (r := option_map (styleRow tb n) (getRowElement n)).
    destruct (withRowElement_fields r (addColour_ tb n))
      as (Wr & Wh & Wd & Ws & Wc).
    exists (withRowElement r (addColour_ tb n)).
    split; [reflexivity|]. split; [rewrite Wh; exact Hh|].
    split; [rewrite Wd; exact Hd|]. split; [rewrite Ws; exact Hs|].
    split; [rewrite Wc; exact Hl|].
    split; [intros Hp; discriminate Hp|].
    split; [intros Hn; rewrite Wr; unfold r; rewrite Hn; reflexivity|].
    intros el _ Hel. rewrite Wr. unfold r. rewrite Hel.
    split; [reflexivity|].
    unfold styleRow.
    destruct (invertedToolbox (options tb)), (hasColours_ tb),
      (colouredToolbox (options tb)), (RTL tb), (disabled n);
      cbn; (split; [intros H; try discriminate H; auto|]);
      (split; [intros H; try discriminate H; auto|]); reflexivity.
Qed.

Lemma styleRow_listeners tb n el :
  listeners (styleRow tb n el)
  = listeners el
    ++ (if disabled n then []
        else if invertedToolbox (options tb) && hasColours_ tb
             then [OnMouseEnter (invertedMultiplier (options tb)); OnMouseLeave]
             else []).
Proof.
  unfold styleRow.
  destruct (invertedToolbox (options tb)), (hasColours_ tb),
    (colouredToolbox (options tb)), (RTL tb), (disabled n);
    cbn; rewrite ?app_nil_r, <- ?app_assoc; reflexivity.
Qed.

Lemma styleRow_style_again tb n el (el2 : @RowElement Multiplier Opacity) :
  style el2 = style (styleRow tb n el) ->
  style (styleRow tb n el2) = style (styleRow tb n el).
Proof.
  destruct el as [[c b bl br o] ls], el2 as [st2 ls2].
  unfold styleRow.
  destruct (invertedToolbox (options tb)), (hasColours_ tb),
    (colouredToolbox (options tb)), (RTL tb), (disabled n);
    cbn; intros ->; reflexivity.
Qed.

Lemma styleRow_idempotent tb n el :
  invertedToolbox (options tb) && hasColours_ tb = false ->
  styleRow tb n (styleRow tb n el) = styleRow tb n el.
Proof.
  destruct el as [[c b bl br o] ls]. unfold styleRow.
  destruct (invertedToolbox (options tb)), (hasColours_ tb),
    (colouredToolbox (options tb)), (RTL tb), (disabled n);
    cbn; intros H; try discriminate H; reflexivity.
Qed.

Lemma concat_repeat_snoc {A : Type} (l : list A) (k : nat) :
  concat (repeat l (S k)) = concat (repeat l k) ++ l.
Proof.
  induction k as [|k IH].
  - cbn. apply app_nil_r.
  - cbn [repeat concat] in *. rewrite IH at 1. apply app_assoc.
Qed.

(** One call, at a node below the root that has a row. *)
Lemma addColour__row_below tb tree (path : list nat) n el :
  path <> [] -> subtree path tree = Some n -> getRowElement n = Some el ->
  exists n',
    subtree path (addColour_ tb tree) = Some n'
    /\ hexColour n' = hexColour n
    /\ disabled n' = disabled n
    /\ isSelected n' = isSelected n
    /\ getRowElement n' = Some (styleRow tb n el).
Proof.
  intros Hp Hn Hel. rewrite subtree_addColour_, Hn. cbn [option_map].
  destruct path as [|i path]; [contradiction Hp; reflexivity|].
  destruct (addColour__own_node tb n) as (Hr & Hh & Hd & Hs & Hl).
  set (r := option_map (styleRow tb n) (getRowElement n)).
  destruct (withRowElement_fields r (addColour_ tb n))
    as (Wr & Wh & Wd & Ws & Wc).
  exists (withRowElement r (addColour_ tb n)).
  split; [reflexivity|]. split; [rewrite Wh; exact Hh|].
  split; [rewrite Wd; exact Hd|]. split; [rewrite Ws; exact Hs|].
  rewrite Wr. unfold r. rewrite Hel. reflexivity.
Qed.

(** Any number of calls, at a node below the root that has a row. *)
Lemma addColour__rows_after tb tree (path : list nat) n el (k : nat) :
  path <> [] -> subtree path tree = Some n -> getRowElement n = Some el ->
  exists n' (el' : @RowElement Multiplier Opacity),
    subtree path (Nat.iter (S k) (addColour_ tb) tree) = Some n'
    /\ hexColour n' = hexColour n
    /\ disabled n' = disabled n
    /\ isSelected n' = isSelected n
    /\ getRowElement n' = Some el'
    /\ style el' = style (styleRow tb n el)
    /\ listeners el'
       = listeners el
         ++ concat
              (repeat
                 (if disabled n then []
                  else if invertedToolbox (options tb) && hasColours_ tb
                       then [OnMouseEnter (invertedMultiplier (options tb));
                             OnMouseLeave]
                       else [])
                 (S k)).
Proof.
  intros Hp Hn Hel. induction k as [|k IH].
  - destruct (addColour__row_below tb tree path n el Hp Hn Hel)
      as (n1 & H1 & Hh & Hd & Hs & Hr).
    exists n1, (styleRow tb n el).
    split; [exact H1|]. split; [exact Hh|]. split; [exact Hd|].
    split; [exact Hs|]. split; [exact Hr|]. split; [reflexivity|].
    rewrite styleRow_listeners. cbn [repeat concat].
    rewrite app_nil_r. reflexivity.
  - destruct IH as (nk & elk & Hk & Hh & Hd & Hs & Hr & Hst & Hls).
    destruct (addColour__row_below tb _ path nk elk Hp Hk Hr)
      as (n1 & H1 & Hh1 & Hd1 & Hs1 & Hr1).
    exists n1, (styleRow tb nk elk).
    split; [exact H1|]. split; [congruence|]. split; [congruence|].
    split; [congruence|]. split; [exact Hr1|].
    rewrite (styleRow_ext tb n nk elk Hh Hd).
    split; [apply styleRow_style_again; exact Hst|].
    rewrite styleRow_listeners, Hls, (concat_repeat_snoc _ (S k)).
    rewrite <- app_assoc. reflexivity.
Qed.

Lemma withRowElement_again (r r' : option (@RowElement Multiplier Opacity)) n :
  withRowElement r' (withRowElement r n) = withRowElement r' n.
Proof. destruct n; reflexivity. Qed.

(** Without the colours of an inverted toolbox a second call changes
    nothing. *)
Lemma addColour__again tb :
  invertedToolbox (options tb) && hasColours_ tb = false ->
  forall tree, addColour_ tb (addColour_ tb tree) = addColour_ tb tree.
Proof.
  intros Hc. apply TreeNode_induction. intros r h d s children IH.
  cbn [addColour_]. f_equal. rewrite map_map.
  induction IH as [|c cs Hc1 _ IHcs]; [reflexivity|].
  cbn [map]. f_equal; [|exact IHcs]. cbv zeta.
  destruct (addColour__own_node tb c) as (Hr & Hh & Hd & Hs & Hl).
  rewrite addColour__withRowElement, Hc1.
  destruct (withRowElement_fields
              (option_map (styleRow tb c) (getRowElement (addColour_ tb c)))
              (addColour_ tb c))
    as (Wr & Wh & Wd & Ws & Wc).
  rewrite Wr, withRowElement_again. f_equal.
  assert (E : forall e,
             styleRow tb
               (withRowElement
                  (option_map (styleRow tb c)
                     (getRowElement (addColour_ tb c)))
                  (addColour_ tb c)) e
             = styleRow tb c e).
  { intros e. apply styleRow_ext; congruence. }
  destruct (getRowElement (addColour_ tb c)) as [el0|]; [|reflexivity].
  cbn [option_map]. f_equal. rewrite E.
  apply styleRow_idempotent. exact Hc.
Qed.

(** X21.  What a further call of [addColour_] adds.  After any number of
    calls the row of a category below the root has the style that the
    first call gave it.  On an inverted toolbox with colours each call
    binds one more pair of listeners on the row of every category that is
    not disabled, behind those of the calls before; nothing takes them off.
    On any other toolbox no listener is bound and the tree after any number
    of calls is the tree after the first. *)
Theorem addColour__again_binds_the_listeners_anew :
  forall tb tree (k : nat),
    let hover :=
      if invertedToolbox (options tb) && hasColours_ tb
      then [OnMouseEnter (invertedMultiplier (options tb)); OnMouseLeave]
      else [] in
    (forall (path : list nat) n el,
        path <> [] -> subtree path tree = Some n ->
        getRowElement n = Some el ->
        exists n' (el' : @RowElement Multiplier Opacity),
          subtree path (Nat.iter (S k) (addColour_ tb) tree) = Some n'
          /\ getRowElement n' = Some el'
          /\ style el' = style (styleRow tb n el)
          /\ listeners el'
             = listeners el
               ++ (if disabled n then [] else concat (repeat hover (S k)))
          /\ length (listeners el')
             = (length (listeners el)
                + (if disabled n then 0 else S k * length hover))%nat)
    /\ (invertedToolbox (options tb) && hasColours_ tb = false ->
        Nat.iter (S k) (addColour_ tb) tree = addColour_ tb tree).
Proof.
  intros tb tree k hover. split.
  - intros path n el Hp Hn Hel.
    destruct (addColour__rows_after tb tree path n el k Hp Hn Hel)
      as (n1 & el1 & H1 & _ & _ & _ & Hr & Hst & Hls).
    exists n1, el1.
    split; [exact H1|]. split; [exact Hr|]. split; [exact Hst|].
    assert (Hl : listeners el1
                 = listeners el
                   ++ (if disabled n then [] else concat (repeat hover (S k)))).
    { rewrite Hls. f_equal. fold hover. destruct (disabled n); [|reflexivity].
      clear. induction k as [|k IH]; [reflexivity|].
      rewrite (concat_repeat_snoc _ (S k)), IH. reflexivity. }
    split; [exact Hl|].
    rewrite Hl, length_app. f_equal.
    destruct (disabled n); [reflexivity|].
    clear. induction k as [|k IH].
    + cbn [repeat concat]. rewrite app_nil_r. lia.
    + rewrite (concat_repeat_snoc _ (S k)), length_app, IH. lia.
  - intros Hc. induction k as [|k IH]; [reflexivity|].
    change (Nat.iter (S (S k)) (addColour_ tb) tree)
      with (addColour_ tb (Nat.iter (S k) (addColour_ tb) tree)).
    rewrite IH. apply addColour__again. exact Hc.
Qed.

Lemma with_background_again (v v' : string) row :
  with_background v (with_background v' row) = with_background v row.
Proof. reflexivity. Qed.

(** On a selected category no listener writes. *)
Lemma listeners_of_selected (ev : EventType) this
  (ls : list (@Listener Multiplier)) row :
  isSelected this = true ->
  fold_left (fun r l => listener fadeColour ev this l r) ls row = row.
Proof.
  intros Hs. revert row. induction ls as [|l ls IH]; intros row; [reflexivity|].
  cbn [fold_left]. rewrite <- (IH row) at 2. f_equal.
  unfold listener. rewrite Hs. destruct ev, l; reflexivity.
Qed.

(** On another one the pairs of listeners write the same background, each
    in its turn. *)
Lemma listeners_of_unselected (ev : EventType) this (m : Multiplier)
  (k : nat) row :
  isSelected this = false ->
  fold_left (fun r l => listener fadeColour ev this l r)
    (concat (repeat [OnMouseEnter m; OnMouseLeave] (S k))) row
  = with_background
      (match ev with
       | mouseenter => fadeColour (strOr (hexColour this) "#ddd") m false
       | mouseleave => strOr (hexColour this) "#ddd"
       end)
      row.
Proof.
  intros Hs. revert row. induction k as [|k IH]; intros row.
  - cbn [repeat concat app fold_left]. unfold listener. rewrite Hs.
    destruct ev; reflexivity.
  - change (concat (repeat [OnMouseEnter m; OnMouseLeave] (S (S k))))
      with ([OnMouseEnter m; OnMouseLeave]
              ++ concat (repeat [OnMouseEnter m; OnMouseLeave] (S k))).
    rewrite fold_left_app, IH. cbn [fold_left]. unfold listener. rewrite Hs.
    destruct ev; reflexivity.
Qed.

(** X22.  Hovering over a category of an inverted toolbox with colours,
    after any number of calls of [addColour_] on rows that had no
    listeners.  On a category that is neither disabled nor selected, the
    mouse that enters turns the background into the faded colour and
    nothing else, and the mouse that leaves puts back the background that
    [addColour_] gave: the category is as before.  On a disabled category
    and on the selected one neither event changes anything. *)
Theorem hover_fades_and_restores :
  forall tb tree (k : nat) (path : list nat) n el,
    invertedToolbox (options tb) = true -> hasColours_ tb = true ->
    path <> [] -> subtree path tree = Some n ->
    getRowElement n = Some el -> listeners el = [] ->
    exists n' (el' : @RowElement Multiplier Opacity),
      subtree path (Nat.iter (S k) (addColour_ tb) tree) = Some n'
      /\ getRowElement n' = Some el'
      /\ color (style el') = Some "#fff"%string
      /\ background (style el') = Some (strOr (hexColour n) "#ddd")
      /\ (disabled n = false -> isSelected n = false ->
          getRowElement (dispatch fadeColour mouseenter n')
          = Some (with_background
                    (fadeColour (strOr (hexColour n) "#ddd")
                       (invertedMultiplier (options tb)) false)
                    el')
          /\ dispatch fadeColour mouseleave (dispatch fadeColour mouseenter n')
             = n'
          /\ dispatch fadeColour mouseleave n' = n')
      /\ (disabled n = true \/ isSelected n = true ->
          forall ev, dispatch fadeColour ev n' = n').
Proof.
  intros tb tree k path n el Hi Hc Hp Hn Hel Hno.
  destruct (addColour__rows_after tb tree path n el k Hp Hn Hel)
    as (n1 & el1 & H1 & Hh & Hd & Hs & Hr & Hst & Hls).
  rewrite Hno, Hi, Hc in Hls. cbn [app andb] in Hls.
  assert (Hcol : color (style el1) = Some "#fff"%string
                 /\ background (style el1) = Some (strOr (hexColour n) "#ddd")).
  { rewrite Hst. unfold styleRow. rewrite Hi, Hc.
    destruct (disabled n); split; reflexivity. }
  destruct Hcol as [Hcol Hbg].
  exists n1, el1.
  split; [exact H1|]. split; [exact Hr|]. split; [exact Hcol|].
  split; [exact Hbg|].
  destruct n1 as [r1 h1 d1 s1 c1]. cbn in Hh, Hd, Hs, Hr. subst r1 h1 d1 s1.
  assert (Hsame : with_background (strOr (hexColour n) "#ddd") el1 = el1).
  { destruct el1 as [[c b bl br o] ls1]. cbn in Hbg. subst b. reflexivity. }
  split.
  - intros Hdis Hsel. rewrite Hdis in Hls.
    assert (He : dispatch fadeColour mouseenter
                   (mkTreeNode (Some el1) (hexColour n) (disabled n)
                      (isSelected n) c1)
                 = mkTreeNode
                     (Some (with_background
                              (fadeColour (strOr (hexColour n) "#ddd")
                                 (invertedMultiplier (options tb)) false)
                              el1))
                     (hexColour n) (disabled n) (isSelected n) c1).
    { cbn [dispatch]. rewrite Hls, listeners_of_unselected by exact Hsel.
      reflexivity. }
    assert (Hl : forall row,
               listeners row = listeners el1 ->
               dispatch fadeColour mouseleave
                 (mkTreeNode (Some row) (hexColour n) (disabled n)
                    (isSelected n) c1)
               = mkTreeNode
                   (Some (with_background (strOr (hexColour n) "#ddd") row))
                   (hexColour n) (disabled n) (isSelected n) c1).
    { intros row Hrow. cbn [dispatch].
      rewrite Hrow, Hls, listeners_of_unselected by exact Hsel.
      reflexivity. }
    split; [rewrite He; reflexivity|].
    split.
    + rewrite He, Hl by reflexivity.
      rewrite with_background_again, Hsame. reflexivity.
    + rewrite Hl by reflexivity. rewrite Hsame. reflexivity.
  - intros Hor ev. cbn [dispatch]. f_equal. f_equal.
    destruct Hor as [Hdis|Hsel].
    + rewrite Hls, Hdis. clear. induction k as [|k IH]; [reflexivity|].
      exact IH.
    + apply listeners_of_selected. exact Hsel.
Qed.

End ToolboxColours.

(** X22, witness: a green category "Loops" under the root of an inverted
    toolbox with colours, coloured twice; the fading is written as a text
    here.  The mouse that enters and leaves gives back the category. *)
Lemma hover_fades_and_restores_witness :
  let fade := fun (c : string) (m : Z) (_ : bool) =>
                ("fade(" ++ c ++ ")")%string in
  let row : @PXTToolbox.RowElement Z string :=
    {| PXTToolbox.style :=
         {| PXTToolbox.color := None; PXTToolbox.background := None;
            PXTToolbox.borderLeft := None; PXTToolbox.borderRight := None;
            PXTToolbox.opacity := None |};
       PXTToolbox.listeners := [] |} in
  let loops :=
    PXTToolbox.mkTreeNode (Some row) (Some "#107c10"%string) false false [] in
  let tree := PXTToolbox.mkTreeNode None None false false [loops] in
  let tb :=
    {| PXTToolbox.options :=
         {| PXTToolbox.invertedToolbox := true;
            PXTToolbox.invertedMultiplier := 2;
            PXTToolbox.colouredToolbox := false;
            PXTToolbox.disabledOpacity := "0.5"%string |};
       PXTToolbox.RTL := false;
       PXTToolbox.hasColours_ := true;
       PXTToolbox.tree_ := tree |} in
  exists n' el',
    PXTToolbox.subtree [0%nat]
      (Nat.iter 2 (PXTToolbox.addColour_ tb) tree) = Some n'
    /\ PXTToolbox.getRowElement n' = Some el'
    /\ PXTToolbox.background (PXTToolbox.style el') = Some "#107c10"%string
    /\ PXTToolbox.getRowElement (PXTToolbox.dispatch fade PXTToolbox.mouseenter n')
       = Some (PXTToolbox.with_background "fade(#107c10)" el')
    /\ PXTToolbox.dispatch fade PXTToolbox.mouseleave
         (PXTToolbox.dispatch fade PXTToolbox.mouseenter n')
       = n'.
Proof.
  intros fade row loops tree tb.
  destruct (hover_fades_and_restores fade tb tree 1 [0%nat] loops row
              eq_refl eq_refl ltac:(discriminate) eq_refl eq_refl eq_refl)
    as (n' & el' & H1 & H2 & _ & H4 & H5 & _).
  destruct (H5 eq_refl eq_refl) as (H6 & H7 & _).
  exists n', el'.
  split; [exact H1|]. split; [exact H2|]. split; [exact H4|].
  split; [exact H6|exact H7].
Defined.
